(** * Console output widget: stream capture, line cap, callback, restore.

    Shallow embedding of [phopyqthelper/widgets/console_output.py]:
    the stream adapter [TextStream] and the widget [ConsoleOutputWidget].

    Python objects with identity (streams) are references; mutable state is
    threaded through a state-and-exception monad over a [World] holding the
    two process-wide stream slots, the adapters allocated so far, the widget
    and a trace of the calls made to objects outside this module (the
    callback, the original streams).

    The GUI toolkit is not part of the repository.  Its text document, text
    cursor and scroll bar are modelled in [Module Qt] after the toolkit's
    documented behaviour.  What depends on the geometry of the widget (where
    the layout wraps a block into several visual lines, where the view
    stands after a call on the text area) is a parameter of the model, a
    [Qt.Toolkit].  Characters are code points below 256. *)

From Stdlib Require Import ZArith Lia Bool String Ascii.
From stdpp Require Import base option list.

Open Scope Z_scope.
Open Scope string_scope.

(** ** Python strings *)

(** Truth value of a [str]: only the empty string is falsy. *)
Definition truthy (text : string) : bool :=
  match text with EmptyString => false | String _ _ => true end.

(** [len(text)] *)
Definition len (text : string) : Z := Z.of_nat (String.length text).

Definition newline : ascii := Ascii.ascii_of_nat 10.

(** ** The toolkit's text document, cursor and scroll bar *)
Module Qt.

Definition carriage_return : ascii := Ascii.ascii_of_nat 13.
Definition nbsp : ascii := Ascii.ascii_of_nat 160.
Definition space : ascii := Ascii.ascii_of_nat 32.

(** Text as a cursor inserts it: a carriage return, alone or followed by a
    newline, makes one block separator, like a newline.  The stored text of
    a document therefore has the newline as its only separator. *)
Fixpoint normalize (text : string) : string :=
  match text with
  | EmptyString => EmptyString
  | String c r =>
      if Ascii.eqb c carriage_return then
        match r with
        | String c' r' =>
            if Ascii.eqb c' newline then String newline (normalize r')
            else String newline (normalize r)
        | EmptyString => String newline EmptyString
        end
      else String c (normalize r)
  end.

(** [document.toPlainText()]: the stored text with each no-break space
    given as a space. *)
Fixpoint toPlainText (doc : string) : string :=
  match doc with
  | EmptyString => EmptyString
  | String c r =>
      String (if Ascii.eqb c nbsp then space else c) (toPlainText r)
  end.

(** Number of block separators in the stored text of a document. *)
Fixpoint count_newlines (s : string) : nat :=
  match s with
  | EmptyString => O
  | String c r =>
      if Ascii.eqb c newline then S (count_newlines r) else count_newlines r
  end.

(** [QTextDocument.blockCount()]: an empty document has one block, and
    every separator starts another one. *)
Definition blockCount (doc : string) : Z :=
  Z.of_nat (S (count_newlines doc)).

(** Position of the first character of block [k]; the end of the document
    when the document has fewer blocks. *)
Fixpoint block_start (doc : string) (k : nat) : nat :=
  match k with
  | O => O
  | S k' =>
      match doc with
      | EmptyString => O
      | String c r =>
          if Ascii.eqb c newline then S (block_start r k')
          else S (block_start r k)
      end
  end.

(** Index of the block containing position [p]. *)
Definition block_of (doc : string) (p : nat) : nat :=
  count_newlines (String.substring 0 p doc).

(** The calls on a text area after which the toolkit may move the view. *)
Inductive Call : Type := MovedCursor | InsertedText | RemovedText | Cleared.

(** What the toolkit and the geometry of the widget decide, and the code
    does not: where the layout wraps a block into further visual lines
    ([soft_break doc p]: position [p] of document [doc] starts a wrapped
    continuation line), and where the view stands after a call on the text
    area ([view_after call doc cursor page value]: the scroll bar value,
    given the document and cursor position after the call, the number of
    lines the viewport shows and the value before). *)
Record Toolkit : Type := mkToolkit {
  soft_break : string -> nat -> bool;
  view_after : Call -> string -> nat -> Z -> Z -> Z
}.

(** Whether a visual line starts right after character [c], at position
    [q], with [r] the text from [q] on: after a separator, or at a soft
    break inside a block. *)
Definition starts_after (soft : nat -> bool) (c : ascii) (r : string)
    (q : nat) : bool :=
  Ascii.eqb c newline
  || (soft q && match r with EmptyString => false | String _ _ => true end).

(** First start of a visual line after position [p], scanning the text [s]
    whose first character is at position [pos]. *)
Fixpoint scan_next (soft : nat -> bool) (s : string) (pos p : nat)
    : option nat :=
  match s with
  | EmptyString => None
  | String c r =>
      if Nat.ltb p (S pos) && starts_after soft c r (S pos) then Some (S pos)
      else scan_next soft r (S pos) p
  end.

(** Last start of a visual line at or before position [p]; [cur] is the
    last one seen so far. *)
Fixpoint last_start (soft : nat -> bool) (s : string) (pos cur p : nat)
    : nat :=
  match s with
  | EmptyString => cur
  | String c r =>
      if Nat.leb (S pos) p then
        last_start soft r (S pos)
          (if starts_after soft c r (S pos) then S pos else cur) p
      else cur
  end.

(** Number of visual lines that start after the first one. *)
Fixpoint count_starts (soft : nat -> bool) (s : string) (pos : nat) : nat :=
  match s with
  | EmptyString => O
  | String c r =>
      if starts_after soft c r (S pos) then S (count_starts soft r (S pos))
      else count_starts soft r (S pos)
  end.

Definition next_line_start (tk : Toolkit) (doc : string) (p : nat)
    : option nat :=
  scan_next (soft_break tk doc) doc 0 p.

Definition line_start (tk : Toolkit) (doc : string) (p : nat) : nat :=
  last_start (soft_break tk doc) doc 0 0 p.

(** Last cursor position on the visual line that starts at [q]. *)
Definition line_end (tk : Toolkit) (doc : string) (q : nat) : nat :=
  match next_line_start tk doc q with
  | Some q' => (q' - 1)%nat
  | None => String.length doc
  end.

(** Number of visual lines of the document. *)
Definition lineCount (tk : Toolkit) (doc : string) : Z :=
  Z.of_nat (S (count_starts (soft_break tk doc) doc 0)).

Inductive MoveOperation : Type := Start | End | Down | StartOfBlock.
Inductive MoveMode : Type := MoveAnchor | KeepAnchor.

(** [QTextCursor]: a position and an anchor; the text between them is the
    selection. *)
Record QTextCursor : Type := mkCursor { position : nat; anchor : nat }.

(** One step of [movePosition]: the new position, or [None] when the
    operation cannot move (a [Down] from the last line with
    [MoveAnchor]).  [Down] goes to the next visual line, keeping the
    column where that line is long enough. *)
Definition move_once (tk : Toolkit) (doc : string) (op : MoveOperation)
    (mode : MoveMode) (p : nat) : option nat :=
  match op with
  | Start => Some O
  | End => Some (String.length doc)
  | StartOfBlock => Some (block_start doc (block_of doc p))
  | Down =>
      match next_line_start tk doc p with
      | Some q =>
          Some (q + Nat.min (p - line_start tk doc p)
                            (line_end tk doc q - q))%nat
      | None =>
          match mode with
          | KeepAnchor => Some (String.length doc)
          | MoveAnchor => None
          end
      end
  end.

(** The operation is repeated [n] times and stops at the first step that
    cannot move. *)
Fixpoint move_n (tk : Toolkit) (doc : string) (op : MoveOperation)
    (mode : MoveMode) (n : nat) (p : nat) : nat :=
  match n with
  | O => p
  | S n' =>
      match move_once tk doc op mode p with
      | Some p' => move_n tk doc op mode n' p'
      | None => p
      end
  end.

(** [cursor.movePosition(op, mode, n)]; a count below one moves nothing. *)
Definition movePosition (tk : Toolkit) (doc : string) (op : MoveOperation)
    (mode : MoveMode) (n : Z) (c : QTextCursor) : QTextCursor :=
  let p := move_n tk doc op mode (Z.to_nat n) (position c) in
  match mode with
  | MoveAnchor => mkCursor p p
  | KeepAnchor => mkCursor p (anchor c)
  end.

Definition selectionStart (c : QTextCursor) : nat :=
  Nat.min (position c) (anchor c).
Definition selectionEnd (c : QTextCursor) : nat :=
  Nat.max (position c) (anchor c).

(** [cursor.removeSelectedText()] *)
Definition removeSelectedText (doc : string) (c : QTextCursor)
    : string * QTextCursor :=
  let lo := selectionStart c in
  let hi := selectionEnd c in
  (String.substring 0 lo doc
     ++ String.substring hi (String.length doc - hi) doc,
   mkCursor lo lo).

(** [cursor.insertText(text)]: replaces the selection by the text, split
    into blocks. *)
Definition insertText (doc : string) (c : QTextCursor) (text : string)
    : string * QTextCursor :=
  let '(doc', c') := removeSelectedText doc c in
  let p := position c' in
  let t := normalize text in
  (String.substring 0 p doc' ++ t
     ++ String.substring p (String.length doc' - p) doc',
   mkCursor (p + String.length t) (p + String.length t)).

(** A cursor kept by the widget is pulled back into a document that
    shrank. *)
Definition clamp (doc : string) (c : QTextCursor) : QTextCursor :=
  mkCursor (Nat.min (position c) (String.length doc))
           (Nat.min (anchor c) (String.length doc)).

(** [QPlainTextEdit] with its vertical scroll bar.  [alive] is false once
    the underlying toolkit object is gone: every call on it then raises.
    [page] is the number of lines the viewport shows. *)
Record QPlainTextEdit : Type := mkEdit {
  document : string;
  textCursor : QTextCursor;
  scroll_value : Z;
  page : Z;
  alive : bool;
  toolkit : Toolkit
}.

(** [scrollbar.maximum()] *)
Definition scroll_maximum (e : QPlainTextEdit) : Z :=
  Z.max 0 (lineCount (toolkit e) (document e) - page e).

Definition new_edit (page : Z) (tk : Toolkit) : QPlainTextEdit :=
  mkEdit "" (mkCursor 0 0) 0 page true tk.

(** [edit.moveCursor(op)]: moves the edit's own cursor; the toolkit then
    places the view. *)
Definition moveCursor (op : MoveOperation) (e : QPlainTextEdit)
    : QPlainTextEdit :=
  let c' := movePosition (toolkit e) (document e) op MoveAnchor 1
              (textCursor e) in
  mkEdit (document e) c'
         (view_after (toolkit e) MovedCursor (document e) (position c')
            (page e) (scroll_value e))
         (page e) (alive e) (toolkit e).

(** [edit.insertPlainText(text)]: inserts at the edit's own cursor. *)
Definition insertPlainText (text : string) (e : QPlainTextEdit)
    : QPlainTextEdit :=
  let '(doc', c') := insertText (document e) (textCursor e) text in
  mkEdit doc' c'
         (view_after (toolkit e) InsertedText doc' (position c') (page e)
            (scroll_value e))
         (page e) (alive e) (toolkit e).

(** [cursor.removeSelectedText()] for a cursor [c] on the edit's
    document. *)
Definition removeSelected (c : QTextCursor) (e : QPlainTextEdit)
    : QPlainTextEdit :=
  let doc' := fst (removeSelectedText (document e) c) in
  let c' := clamp doc' (textCursor e) in
  mkEdit doc' c'
         (view_after (toolkit e) RemovedText doc' (position c') (page e)
            (scroll_value e))
         (page e) (alive e) (toolkit e).

(** [scrollbar.setValue(v)]: the value is kept within the range. *)
Definition setValue (v : Z) (e : QPlainTextEdit) : QPlainTextEdit :=
  mkEdit (document e) (textCursor e)
         (Z.max 0 (Z.min v (scroll_maximum e)))
         (page e) (alive e) (toolkit e).

(** [edit.clear()] *)
Definition clear (e : QPlainTextEdit) : QPlainTextEdit :=
  mkEdit "" (mkCursor 0 0)
         (view_after (toolkit e) Cleared "" 0 (page e) (scroll_value e))
         (page e) (alive e) (toolkit e).

(** The least move of the view that shows line [line]. *)
Definition bring_into_view (line page v : Z) : Z :=
  if Z.ltb line v then line
  else if Z.ltb (v + page - 1) line then line - page + 1
  else v.

(** A toolkit for a viewport wide enough that no block is wrapped, which
    keeps the cursor in view when the cursor is moved through the text
    area, leaves the view where it is when text is inserted, and keeps the
    view within the range when text is removed. *)
Definition cursor_following : Toolkit :=
  mkToolkit (fun _ _ => false)
    (fun call doc p page v =>
       match call with
       | MovedCursor => bring_into_view (Z.of_nat (block_of doc p)) page v
       | InsertedText => v
       | RemovedText | Cleared =>
           Z.min v (Z.max 0 (blockCount doc - page))
       end).

End Qt.

(** ** Objects, references and the world *)

(** A stream object: one that exists outside this module (the process's
    real streams, another redirector's stream), or an adapter allocated by
    the widget, named by its allocation index. *)
Inductive Obj : Type :=
| Ext (n : nat)
| Adapter (i : nat).

#[global] Instance Obj_eq_dec : EqDecision Obj.
Proof. solve_decision. Defined.

(** A Python reference; [None] is Python's [None]. *)
Abbreviation ref := (option Obj).

(** [a is b] *)
Definition is_ (a b : ref) : bool := bool_decide (a = b).

(** Truth value of a stream reference: [None] is falsy, an object is
    truthy. *)
Definition ref_truthy {A : Type} (r : option A) : bool :=
  match r with Some _ => true | None => false end.

(** A callback receives the text and the source label; the result tells
    whether the call raised an exception. *)
Definition Callback : Type := string -> string -> bool.

(** Calls that leave this module: the callback, the original streams, and
    a slot that code outside connects to an adapter's signal. *)
Inductive Event : Type :=
| CallbackCall (text source : string)
| StreamWrite (target : nat) (text : string)
| StreamFlush (target : nat)
| SlotCall (text source : string).

(** Fields of a [TextStream]; [connected] records that [text_written] is
    connected to the widget's [_on_text_written], [signal_ok] that emitting
    the signal succeeds. *)
Record TextStreamObj : Type := mkTextStream {
  _original_stream : option nat;
  _buffer : string;
  _source : string;
  connected : bool;
  signal_ok : bool
}.

(** Fields of a [ConsoleOutputWidget]; [_text_edit] is [None] until
    [_setup_ui] has run. *)
Record Widget : Type := mkWidget {
  _original_stdout : option nat;
  _original_stderr : option nat;
  _stdout_stream : option nat;
  _stderr_stream : option nat;
  _capture_stdout : bool;
  _capture_stderr : bool;
  _text_callback : option Callback;
  _max_lines : Z;
  _auto_scroll : bool;
  _text_edit : option Qt.QPlainTextEdit
}.

(** What the surroundings decide: which outside streams raise on [write],
    how many lines the viewport of the text area shows, and what the
    toolkit does with layout and view. *)
Record Env : Type := mkEnv {
  write_raises : nat -> bool;
  viewport_lines : Z;
  toolkit_of : Qt.Toolkit
}.

Record World : Type := mkWorld {
  sys_stdout : ref;
  sys_stderr : ref;
  streams : list TextStreamObj;
  widget : Widget;
  trace : list Event;
  env : Env
}.

Definition set_sys_stdout (r : ref) (w : World) : World :=
  mkWorld r (sys_stderr w) (streams w) (widget w) (trace w) (env w).
Definition set_sys_stderr (r : ref) (w : World) : World :=
  mkWorld (sys_stdout w) r (streams w) (widget w) (trace w) (env w).
Definition set_streams (l : list TextStreamObj) (w : World) : World :=
  mkWorld (sys_stdout w) (sys_stderr w) l (widget w) (trace w) (env w).
Definition set_widget (x : Widget) (w : World) : World :=
  mkWorld (sys_stdout w) (sys_stderr w) (streams w) x (trace w) (env w).
Definition log (e : Event) (w : World) : World :=
  mkWorld (sys_stdout w) (sys_stderr w) (streams w) (widget w)
          (trace w ++ [e])%list (env w).

Definition with_stdout_stream (v : option nat) (x : Widget) : Widget :=
  mkWidget (_original_stdout x) (_original_stderr x) v (_stderr_stream x)
           (_capture_stdout x) (_capture_stderr x) (_text_callback x)
           (_max_lines x) (_auto_scroll x) (_text_edit x).
Definition with_stderr_stream (v : option nat) (x : Widget) : Widget :=
  mkWidget (_original_stdout x) (_original_stderr x) (_stdout_stream x) v
           (_capture_stdout x) (_capture_stderr x) (_text_callback x)
           (_max_lines x) (_auto_scroll x) (_text_edit x).
Definition with_capture_stdout (v : bool) (x : Widget) : Widget :=
  mkWidget (_original_stdout x) (_original_stderr x) (_stdout_stream x)
           (_stderr_stream x) v (_capture_stderr x) (_text_callback x)
           (_max_lines x) (_auto_scroll x) (_text_edit x).
Definition with_capture_stderr (v : bool) (x : Widget) : Widget :=
  mkWidget (_original_stdout x) (_original_stderr x) (_stdout_stream x)
           (_stderr_stream x) (_capture_stdout x) v (_text_callback x)
           (_max_lines x) (_auto_scroll x) (_text_edit x).
Definition with_text_callback (v : option Callback) (x : Widget) : Widget :=
  mkWidget (_original_stdout x) (_original_stderr x) (_stdout_stream x)
           (_stderr_stream x) (_capture_stdout x) (_capture_stderr x) v
           (_max_lines x) (_auto_scroll x) (_text_edit x).
Definition with_auto_scroll (v : bool) (x : Widget) : Widget :=
  mkWidget (_original_stdout x) (_original_stderr x) (_stdout_stream x)
           (_stderr_stream x) (_capture_stdout x) (_capture_stderr x)
           (_text_callback x) (_max_lines x) v (_text_edit x).
Definition with_text_edit (v : option Qt.QPlainTextEdit) (x : Widget) : Widget :=
  mkWidget (_original_stdout x) (_original_stderr x) (_stdout_stream x)
           (_stderr_stream x) (_capture_stdout x) (_capture_stderr x)
           (_text_callback x) (_max_lines x) (_auto_scroll x) v.

(** ** State and exception monad *)

(** Outcome of a call: a value, or a propagating Python [Exception]. *)
Inductive result (A : Type) : Type :=
| Ok (a : A)
| Raise.
Arguments Ok {A} a.
Arguments Raise {A}.

Definition M (A : Type) : Type := World -> result A * World.

Definition ret {A} (a : A) : M A := fun w => (Ok a, w).
Definition raise {A} : M A := fun w => (Raise, w).
Definition bind {A B} (m : M A) (k : A -> M B) : M B :=
  fun w => match m w with
           | (Ok a, w') => k a w'
           | (Raise, w') => (Raise, w')
           end.
(** [try: body except Exception: handler]; state changes made by [body]
    before it raised are kept. *)
Definition try_except {A} (body handler : M A) : M A :=
  fun w => match body w with
           | (Ok a, w') => (Ok a, w')
           | (Raise, w') => handler w'
           end.
Definition get : M World := fun w => (Ok w, w).
Definition modify (f : World -> World) : M unit := fun w => (Ok tt, f w).
Definition when (b : bool) (m : M unit) : M unit := if b then m else ret tt.

Notation "x <- m ;; k" := (bind m (fun x => k))
  (at level 100, m at next level, right associativity).
Notation "m ;; k" := (bind m (fun _ => k))
  (at level 100, right associativity).

(** State left by a call, whatever its outcome. *)
Definition exec {A} (m : M A) (w : World) : World := snd (m w).
(** Whether a call returned normally. *)
Definition returns {A} (m : M A) (w : World) : bool :=
  match fst (m w) with Ok _ => true | Raise => false end.

(** [stream.write(text)] on a stream outside this module. *)
Definition ext_write (target : nat) (text : string) : M unit :=
  w <- get ;;
  modify (log (StreamWrite target text)) ;;
  if write_raises (env w) target then raise else ret tt.

(** [stream.flush()] on a stream outside this module. *)
Definition ext_flush (target : nat) : M unit :=
  modify (log (StreamFlush target)).

(** ** class TextStream *)
Module TextStream.

(** The fields of adapter [self]; a reference that names no object
    raises. *)
Definition fields (self : nat) : M TextStreamObj :=
  w <- get ;;
  match streams w !! self with
  | Some ts => ret ts
  | None => raise
  end.

Definition update (self : nat) (f : TextStreamObj -> TextStreamObj)
    : M unit :=
  modify (fun w => set_streams (alter f self (streams w)) w).

Definition add_to_buffer (text : string) (ts : TextStreamObj)
    : TextStreamObj :=
  mkTextStream (_original_stream ts) (_buffer ts ++ text) (_source ts)
               (connected ts) (signal_ok ts).

Definition set_connected (ts : TextStreamObj) : TextStreamObj :=
  mkTextStream (_original_stream ts) (_buffer ts) (_source ts) true
               (signal_ok ts).

(** [TextStream(original_stream, source)]: a new object, named by the
    next free index. *)
Definition __init__ (original_stream : option nat) (source : string)
    : M nat :=
  w <- get ;;
  modify (set_streams
            (streams w ++ [mkTextStream original_stream "" source false true])%list) ;;
  ret (length (streams w)).

(** [self.source] *)
Definition source (self : nat) : M string :=
  ts <- fields self ;; ret (_source ts).

(** [self.text_written.connect(slot)] *)
Definition connect (self : nat) : M unit := update self set_connected.

Section Signal.
(** The slot the widget connects to [text_written]. *)
Variable slot : string -> string -> M unit.

(** [self.text_written.emit(text, source)] with a direct connection:
    the slot runs before [emit] returns.  An exception raised inside
    the slot is reported by the toolkit and does not reach the
    emitter; emitting on a broken signal raises. *)
Definition emit (self : nat) (text source : string) : M unit :=
  ts <- fields self ;;
  if signal_ok ts then
    when (connected ts) (try_except (slot text source) (ret tt))
  else raise.

Definition write (self : nat) (text : string) : M Z :=
  when (truthy text)
    (update self (add_to_buffer text) ;;
     try_except
       (ts <- fields self ;; emit self text (_source ts))
       (ts <- fields self ;;
        match _original_stream ts with
        | Some o => try_except (ext_write o text) (ret tt)
        | None => ret tt
        end)) ;;
  ret (if truthy text then len text else 0).
End Signal.

Definition flush (self : nat) : M unit :=
  ts <- fields self ;;
  match _original_stream ts with
  | Some o => ext_flush o
  | None => ret tt
  end.

Definition isatty (self : nat) : M bool := ret false.
Definition readable (self : nat) : M bool := ret false.
Definition writable (self : nat) : M bool := ret true.
Definition seekable (self : nat) : M bool := ret false.

End TextStream.

(** ** class ConsoleOutputWidget *)
Module ConsoleOutputWidget.

Definition self_ : M Widget := w <- get ;; ret (widget w).

Definition update (f : Widget -> Widget) : M unit :=
  modify (fun w => set_widget (f (widget w)) w).

(** A call on [self._text_edit] that changes it: raises when the
    attribute is missing or the toolkit object is gone. *)
Definition edit_call (f : Qt.QPlainTextEdit -> Qt.QPlainTextEdit)
    : M unit :=
  x <- self_ ;;
  match _text_edit x with
  | Some e =>
      if Qt.alive e then update (with_text_edit (Some (f e))) else raise
  | None => raise
  end.

(** A call on [self._text_edit] that reads from it. *)
Definition edit_query {A} (g : Qt.QPlainTextEdit -> A) : M A :=
  x <- self_ ;;
  match _text_edit x with
  | Some e => if Qt.alive e then ret (g e) else raise
  | None => raise
  end.

Definition _setup_ui : M unit :=
  w <- get ;;
  update (with_text_edit
            (Some (Qt.new_edit (viewport_lines (env w)) (toolkit_of (env w))))).

(** The callback is code from outside: the call is recorded, and raises
    when the callback says so. *)
Definition call_callback (cb : Callback) (text source : string) : M unit :=
  modify (log (CallbackCall text source)) ;;
  if cb text source then raise else ret tt.

(** The [try] block of [_append_text_internal]: append, limit the buffer
    size, scroll. *)
Definition display_append (text : string) : M unit :=
  edit_call (Qt.moveCursor Qt.End) ;;
  edit_call (Qt.insertPlainText text) ;;
  count <- edit_query (fun e => Qt.blockCount (Qt.document e)) ;;
  x <- self_ ;;
  when (Z.ltb (_max_lines x) count)
    (document <- edit_query Qt.document ;;
     layout <- edit_query Qt.toolkit ;;
     let cursor := Qt.mkCursor 0 0 in
     let cursor := Qt.movePosition layout document Qt.Start Qt.MoveAnchor 1
                     cursor in
     let cursor := Qt.movePosition layout document Qt.Down Qt.MoveAnchor
                     (count - _max_lines x) cursor in
     let cursor := Qt.movePosition layout document Qt.StartOfBlock
                     Qt.MoveAnchor 1 cursor in
     let cursor := Qt.movePosition layout document Qt.End Qt.KeepAnchor 1
                     cursor in
     edit_call (Qt.removeSelected cursor)) ;;
  x <- self_ ;;
  when (_auto_scroll x)
    (maximum <- edit_query Qt.scroll_maximum ;;
     edit_call (Qt.setValue maximum)).

Definition _append_text_internal (text source : string) : M unit :=
  if negb (truthy text) then ret tt
  else
    x <- self_ ;;
    match _text_callback x with
    | Some cb => try_except (call_callback cb text source) (ret tt)
    | None => ret tt
    end ;;
    x <- self_ ;;
    match _text_edit x with
    | None =>
        match _original_stdout x with
        | Some o => ext_write o text
        | None => ret tt
        end
    | Some _ =>
        try_except (display_append text)
          (x <- self_ ;;
           match _original_stdout x with
           | Some o => try_except (ext_write o text) (ret tt)
           | None => ret tt
           end)
    end.

Definition _on_text_written (text source : string) : M unit :=
  _append_text_internal text source.

(** [source] defaults to ["manual"]. *)
Definition append_text (text : string) (source : option string) : M unit :=
  _append_text_internal text (default "manual" source).

Definition _setup_streams : M unit :=
  x <- self_ ;;
  when (_capture_stdout x)
    (x <- self_ ;;
     s <- TextStream.__init__ (_original_stdout x) "stdout" ;;
     update (with_stdout_stream (Some s)) ;;
     TextStream.connect s ;;
     modify (set_sys_stdout (Some (Adapter s)))) ;;
  x <- self_ ;;
  when (_capture_stderr x)
    (x <- self_ ;;
     s <- TextStream.__init__ (_original_stderr x) "stderr" ;;
     update (with_stderr_stream (Some s)) ;;
     TextStream.connect s ;;
     modify (set_sys_stderr (Some (Adapter s)))).

(** The reference held by a stream attribute of the widget. *)
Definition as_ref (s : option nat) : ref := Adapter <$> s.
(** The reference to an original stream. *)
Definition ext_ref (s : option nat) : ref := Ext <$> s.

Definition set_capture (stdout stderr : bool) : M unit :=
  x <- self_ ;;
  (if stdout && negb (_capture_stdout x) then
     s <- TextStream.__init__ (_original_stdout x) "stdout" ;;
     update (with_stdout_stream (Some s)) ;;
     TextStream.connect s ;;
     modify (set_sys_stdout (Some (Adapter s))) ;;
     update (with_capture_stdout true)
   else if negb stdout && _capture_stdout x then
     w <- get ;;
     when (is_ (sys_stdout w) (as_ref (_stdout_stream x)))
       (modify (set_sys_stdout (ext_ref (_original_stdout x)))) ;;
     update (with_stdout_stream None) ;;
     update (with_capture_stdout false)
   else ret tt) ;;
  x <- self_ ;;
  (if stderr && negb (_capture_stderr x) then
     s <- TextStream.__init__ (_original_stderr x) "stderr" ;;
     update (with_stderr_stream (Some s)) ;;
     TextStream.connect s ;;
     modify (set_sys_stderr (Some (Adapter s))) ;;
     update (with_capture_stderr true)
   else if negb stderr && _capture_stderr x then
     w <- get ;;
     when (is_ (sys_stderr w) (as_ref (_stderr_stream x)))
       (modify (set_sys_stderr (ext_ref (_original_stderr x)))) ;;
     update (with_stderr_stream None) ;;
     update (with_capture_stderr false)
   else ret tt).

Definition set_text_callback (callback : option Callback) : M unit :=
  update (with_text_callback callback).

Definition _on_auto_scroll_toggled (checked : bool) : M unit :=
  update (with_auto_scroll checked).

Definition clear : M unit := edit_call Qt.clear.

Definition restore_streams : M unit :=
  x <- self_ ;;
  w <- get ;;
  when (ref_truthy (_stdout_stream x)
        && is_ (sys_stdout w) (as_ref (_stdout_stream x)))
    (modify (set_sys_stdout (ext_ref (_original_stdout x)))) ;;
  x <- self_ ;;
  w <- get ;;
  when (ref_truthy (_stderr_stream x)
        && is_ (sys_stderr w) (as_ref (_stderr_stream x)))
    (modify (set_sys_stderr (ext_ref (_original_stderr x)))).

Definition closeEvent : M unit := restore_streams.

(** The widget's fields as assigned by [__init__], before [_setup_ui]
    and [_setup_streams] run. *)
Definition fresh (original_stdout original_stderr : option nat)
    (capture_stdout capture_stderr : bool)
    (text_callback : option Callback) (max_lines : Z) : Widget :=
  mkWidget original_stdout original_stderr None None
           capture_stdout capture_stderr text_callback max_lines true None.

(** [ConsoleOutputWidget(capture_stdout, capture_stderr, text_callback,
    max_lines)], run where the stream slots hold [stdout0] and [stderr0]
    (objects from outside, or [None]) and no adapter exists yet. *)
Definition __init__ (stdout0 stderr0 : option nat) (e : Env)
    (capture_stdout capture_stderr : bool)
    (text_callback : option Callback) (max_lines : Z)
    : result unit * World :=
  (_setup_ui ;; _setup_streams)
    (mkWorld (ext_ref stdout0) (ext_ref stderr0) []
             (fresh stdout0 stderr0 capture_stdout capture_stderr
                    text_callback max_lines)
             [] e).

End ConsoleOutputWidget.

(** ** The program: adapters wired to the widget *)

(** [stream.write(text)] on an adapter whose signal is connected to the
    widget's [_on_text_written]. *)
Definition stream_write (self : nat) (text : string) : M Z :=
  TextStream.write ConsoleOutputWidget._on_text_written self text.

(** [sys.stdout.write(text)] / [sys.stderr.write(text)]: dispatch on the
    object the slot holds. *)
Definition write_to (r : ref) (text : string) : M unit :=
  match r with
  | Some (Adapter i) => stream_write i text ;; ret tt
  | Some (Ext n) => ext_write n text
  | None => raise
  end.

Definition sys_stdout_write (text : string) : M unit :=
  w <- get ;; write_to (sys_stdout w) text.
Definition sys_stderr_write (text : string) : M unit :=
  w <- get ;; write_to (sys_stderr w) text.

(** The visible text buffer: the plain text of the text area's document
    (empty while the text area does not exist). *)
Definition visible (w : World) : string :=
  match _text_edit (widget w) with
  | Some e => Qt.toPlainText (Qt.document e)
  | None => ""
  end.

(** Scroll position of the text area. *)
Definition scroll_position (w : World) : option Z :=
  Qt.scroll_value <$> _text_edit (widget w).

(** The lines of a text: its blocks, in order. *)
Fixpoint lines_from (acc : string) (s : string) : list string :=
  match s with
  | EmptyString => [acc]
  | String c r =>
      if Ascii.eqb c newline then acc :: lines_from "" r
      else lines_from (acc ++ String c "") r
  end.
Definition lines (s : string) : list string := lines_from "" s.

(** An environment in which no outside stream raises, with a viewport
    wide enough that no line is wrapped. *)
Definition quiet_env (viewport : Z) : Env :=
  mkEnv (fun _ => false) viewport Qt.cursor_following.

Definition nl : string := String newline "".

(** ** What can happen to a widget *)

(** The calls the widget and its adapters offer, and what the surroundings
    can do: another redirector assigning a stream slot, the toolkit tearing
    down a signal or the text area. *)
Inductive Op : Type :=
| Write (self : nat) (text : string)
| Flush (self : nat)
| StdoutWrite (text : string)
| StderrWrite (text : string)
| AppendText (text : string) (source : option string)
| SetCapture (stdout stderr : bool)
| SetTextCallback (callback : option Callback)
| AutoScrollToggled (checked : bool)
| Clear
| RestoreStreams
| CloseEvent
| RedirectStdout (r : ref)
| RedirectStderr (r : ref)
| SignalBroken (self : nat)
| TextAreaGone.

(** A redirector can only install an object that exists. *)
Definition exists_in (w : World) (r : ref) : bool :=
  match r with
  | Some (Adapter i) => bool_decide (i < length (streams w))%nat
  | _ => true
  end.

(** The toolkit object behind an adapter's signal is gone: emitting
    raises from now on. *)
Definition break_signal (ts : TextStreamObj) : TextStreamObj :=
  mkTextStream (_original_stream ts) (_buffer ts) (_source ts)
               (connected ts) false.

(** The toolkit object behind the text area is gone: calls on it raise
    from now on. *)
Definition kill_edit (e : Qt.QPlainTextEdit) : Qt.QPlainTextEdit :=
  Qt.mkEdit (Qt.document e) (Qt.textCursor e) (Qt.scroll_value e)
            (Qt.page e) false (Qt.toolkit e).

(** Each operation as the call it stands for. *)
Definition interp (op : Op) : M unit :=
  match op with
  | Write self text => stream_write self text ;; ret tt
  | Flush self => TextStream.flush self
  | StdoutWrite text => sys_stdout_write text
  | StderrWrite text => sys_stderr_write text
  | AppendText text source => ConsoleOutputWidget.append_text text source
  | SetCapture stdout stderr => ConsoleOutputWidget.set_capture stdout stderr
  | SetTextCallback callback => ConsoleOutputWidget.set_text_callback callback
  | AutoScrollToggled checked =>
      ConsoleOutputWidget._on_auto_scroll_toggled checked
  | Clear => ConsoleOutputWidget.clear
  | RestoreStreams => ConsoleOutputWidget.restore_streams
  | CloseEvent => ConsoleOutputWidget.closeEvent
  | RedirectStdout r =>
      w <- get ;; when (exists_in w r) (modify (set_sys_stdout r))
  | RedirectStderr r =>
      w <- get ;; when (exists_in w r) (modify (set_sys_stderr r))
  | SignalBroken self => TextStream.update self break_signal
  | TextAreaGone =>
      ConsoleOutputWidget.update
        (fun x => with_text_edit (kill_edit <$> _text_edit x) x)
  end.

(** The world after one operation, whatever the outcome of the call; and
    after a list of them, in order. *)
Definition run_op (op : Op) (w : World) : World := exec (interp op) w.

Fixpoint run_ops (ops : list Op) (w : World) : World :=
  match ops with
  | [] => w
  | op :: ops' => run_ops ops' (run_op op w)
  end.

(** The world right after the widget was constructed. *)
Definition constructed (stdout0 stderr0 : option nat) (e : Env)
    (capture_stdout capture_stderr : bool)
    (text_callback : option Callback) (max_lines : Z) : World :=
  snd (ConsoleOutputWidget.__init__ stdout0 stderr0 e capture_stdout
         capture_stderr text_callback max_lines).

(** Whether an operation is an assignment to a stream slot by another
    redirector. *)
Definition is_redirect (op : Op) : bool :=
  match op with
  | RedirectStdout _ | RedirectStderr _ => true
  | _ => false
  end.

(** * Derived definitions used by the statements *)

(** The world after [self._buffer += text]. *)
Definition buffered (self : nat) (text : string) (w : World) : World :=
  set_streams (alter (TextStream.add_to_buffer text) self (streams w)) w.

(** The cursor the trimming builds on [document]: to the start, down by
    the number of excess blocks, to the start of that block, then to the
    end of the document with the anchor kept. *)
Definition trim_cursor (layout : Qt.Toolkit) (document : string)
    (excess : Z) : Qt.QTextCursor :=
  Qt.movePosition layout document Qt.End Qt.KeepAnchor 1
    (Qt.movePosition layout document Qt.StartOfBlock Qt.MoveAnchor 1
       (Qt.movePosition layout document Qt.Down Qt.MoveAnchor excess
          (Qt.movePosition layout document Qt.Start Qt.MoveAnchor 1
             (Qt.mkCursor 0 0)))).

(** The text area after the "limit buffer size" step. *)
Definition limited (max_lines : Z) (e : Qt.QPlainTextEdit)
    : Qt.QPlainTextEdit :=
  let count := Qt.blockCount (Qt.document e) in
  if Z.ltb max_lines count then
    Qt.removeSelected
      (trim_cursor (Qt.toolkit e) (Qt.document e) (count - max_lines)) e
  else e.

(** The text area after the auto-scroll step. *)
Definition scrolled (auto_scroll : bool) (e : Qt.QPlainTextEdit)
    : Qt.QPlainTextEdit :=
  if auto_scroll then Qt.setValue (Qt.scroll_maximum e) e else e.

(** The text area after the [try] block of [_append_text_internal] ran to
    its end on a live text area. *)
Definition appended (max_lines : Z) (auto_scroll : bool) (text : string)
    (e : Qt.QPlainTextEdit) : Qt.QPlainTextEdit :=
  scrolled auto_scroll
    (limited max_lines (Qt.insertPlainText text (Qt.moveCursor Qt.End e))).

(** The world with the text area replaced. *)
Definition set_edit (e : Qt.QPlainTextEdit) (w : World) : World :=
  set_widget (with_text_edit (Some e) (widget w)) w.

(** The world after the callback step of the append path. *)
Definition called_back (text source : string) (w : World) : World :=
  match _text_callback (widget w) with
  | Some _ => log (CallbackCall text source) w
  | None => w
  end.

(** The world after a fallback write of the append path. *)
Definition fell_back (text : string) (w : World) : World :=
  match _original_stdout (widget w) with
  | Some o => log (StreamWrite o text) w
  | None => w
  end.

(** The adapter object as [_setup_streams] and [set_capture] leave it:
    created, then connected. *)
Definition new_adapter (orig : option nat) (label : string) : TextStreamObj :=
  mkTextStream orig "" label true true.

(** The world after an adapter for stdout was created, recorded, connected
    and installed. *)
Definition installed_stdout (w : World) : World :=
  mkWorld (Some (Adapter (length (streams w)))) (sys_stderr w)
          (streams w ++ [new_adapter (_original_stdout (widget w)) "stdout"])%list
          (with_stdout_stream (Some (length (streams w))) (widget w))
          (trace w) (env w).

Definition installed_stderr (w : World) : World :=
  mkWorld (sys_stdout w) (Some (Adapter (length (streams w))))
          (streams w ++ [new_adapter (_original_stderr (widget w)) "stderr"])%list
          (with_stderr_stream (Some (length (streams w))) (widget w))
          (trace w) (env w).

(** The world after the disabling branch of [set_capture] for stdout. *)
Definition released_stdout (w : World) : World :=
  let x := widget w in
  let w1 :=
    if is_ (sys_stdout w) (ConsoleOutputWidget.as_ref (_stdout_stream x))
    then set_sys_stdout (ConsoleOutputWidget.ext_ref (_original_stdout x)) w
    else w in
  set_widget (with_capture_stdout false (with_stdout_stream None x)) w1.

Definition released_stderr (w : World) : World :=
  let x := widget w in
  let w1 :=
    if is_ (sys_stderr w) (ConsoleOutputWidget.as_ref (_stderr_stream x))
    then set_sys_stderr (ConsoleOutputWidget.ext_ref (_original_stderr x)) w
    else w in
  set_widget (with_capture_stderr false (with_stderr_stream None x)) w1.

Definition capture_stdout_to (stdout : bool) (w : World) : World :=
  if stdout && negb (_capture_stdout (widget w)) then
    set_widget (with_capture_stdout true (widget (installed_stdout w)))
               (installed_stdout w)
  else if negb stdout && _capture_stdout (widget w) then released_stdout w
  else w.

Definition capture_stderr_to (stderr : bool) (w : World) : World :=
  if stderr && negb (_capture_stderr (widget w)) then
    set_widget (with_capture_stderr true (widget (installed_stderr w)))
               (installed_stderr w)
  else if negb stderr && _capture_stderr (widget w) then released_stderr w
  else w.

(** The world after each half of [restore_streams]. *)
Definition restored_stdout (w : World) : World :=
  let x := widget w in
  if ref_truthy (_stdout_stream x)
     && is_ (sys_stdout w) (ConsoleOutputWidget.as_ref (_stdout_stream x))
  then set_sys_stdout (ConsoleOutputWidget.ext_ref (_original_stdout x)) w
  else w.

Definition restored_stderr (w : World) : World :=
  let x := widget w in
  if ref_truthy (_stderr_stream x)
     && is_ (sys_stderr w) (ConsoleOutputWidget.as_ref (_stderr_stream x))
  then set_sys_stderr (ConsoleOutputWidget.ext_ref (_original_stderr x)) w
  else w.

(** The world the append path leaves, for any text. *)
Definition append_world (text source : string) (w : World) : World :=
  if truthy text then
    let w1 := called_back text source w in
    match _text_edit (widget w) with
    | None => fell_back text w1
    | Some e =>
        if Qt.alive e then
          set_edit (appended (_max_lines (widget w))
                      (_auto_scroll (widget w)) text e) w1
        else fell_back text w1
    end
  else w.

(** The world a [write] on adapter [self] leaves, for any text. *)
Definition write_world (self : nat) (text : string) (w : World) : World :=
  if truthy text then
    match streams w !! self with
    | Some ts =>
        let w1 := buffered self text w in
        if signal_ok ts then
          if connected ts then append_world text (_source ts) w1 else w1
        else match _original_stream ts with
             | Some o => log (StreamWrite o text) w1
             | None => w1
             end
    | None => w
    end
  else w.

(** A slot connected from outside that records each notification it
    receives. *)
Definition recording_slot (text source : string) : M unit :=
  modify (log (SlotCall text source)).

(** The widget of the spec's example: both streams captured, no callback,
    at most three lines, outside streams [Ext 0] and [Ext 1]. *)
Definition example_world : World :=
  constructed (Some 0%nat) (Some 1%nat) (quiet_env 5) true true None 3.

(** Whether an event of the trace is a callback call. *)
Definition is_callback_call (ev : Event) : bool :=
  match ev with CallbackCall _ _ => true | _ => false end.

Definition callback_events (text source : string) (w : World) : list Event :=
  match _text_callback (widget w) with
  | Some _ => [CallbackCall text source]
  | None => []
  end.

Definition fallback_events (text : string) (w : World) : list Event :=
  match _original_stdout (widget w) with
  | Some o => [StreamWrite o text]
  | None => []
  end.

(** The world a write through a stream slot leaves. *)
Definition slot_write_world (r : ref) (text : string) (w : World) : World :=
  match r with
  | Some (Adapter i) => write_world i text w
  | Some (Ext n) => log (StreamWrite n text) w
  | None => w
  end.

(** The world each operation leaves. *)
Definition step (op : Op) (w : World) : World :=
  match op with
  | Write self text => write_world self text w
  | Flush self =>
      match streams w !! self with
      | Some ts =>
          match _original_stream ts with
          | Some o => log (StreamFlush o) w
          | None => w
          end
      | None => w
      end
  | StdoutWrite text => slot_write_world (sys_stdout w) text w
  | StderrWrite text => slot_write_world (sys_stderr w) text w
  | AppendText text source => append_world text (default "manual" source) w
  | SetCapture stdout stderr =>
      capture_stderr_to stderr (capture_stdout_to stdout w)
  | SetTextCallback callback =>
      set_widget (with_text_callback callback (widget w)) w
  | AutoScrollToggled checked =>
      set_widget (with_auto_scroll checked (widget w)) w
  | Clear =>
      match _text_edit (widget w) with
      | Some e => if Qt.alive e then set_edit (Qt.clear e) w else w
      | None => w
      end
  | RestoreStreams | CloseEvent => restored_stderr (restored_stdout w)
  | RedirectStdout r => if exists_in w r then set_sys_stdout r w else w
  | RedirectStderr r => if exists_in w r then set_sys_stderr r w else w
  | SignalBroken self => set_streams (alter break_signal self (streams w)) w
  | TextAreaGone =>
      set_widget (with_text_edit (kill_edit <$> _text_edit (widget w))
                    (widget w)) w
  end.

(** How an adapter object may differ between an earlier and a later
    world: same label, same original stream, still connected, buffer
    extended. *)
Definition stream_evolves (ts ts' : TextStreamObj) : Prop :=
  _source ts' = _source ts
  /\ _original_stream ts' = _original_stream ts
  /\ (connected ts = true -> connected ts' = true)
  /\ exists suffix : string, _buffer ts' = _buffer ts ++ suffix.

Definition streams_evolve (l l' : list TextStreamObj) : Prop :=
  forall (i : nat) (ts : TextStreamObj),
    l !! i = Some ts ->
    exists ts', l' !! i = Some ts' /\ stream_evolves ts ts'.

(** The adapter a stream attribute of the widget names: it exists, carries
    the label, is connected and wraps the widget's original stream. *)
Definition tracks (label : string) (orig s : option nat) (w : World) : Prop :=
  forall i : nat,
    s = Some i ->
    exists ts, streams w !! i = Some ts
               /\ _source ts = label
               /\ connected ts = true
               /\ _original_stream ts = orig.

(** What holds of every world a constructed widget can be in. *)
Definition inv (w : World) : Prop :=
  let x := widget w in
  tracks "stdout" (_original_stdout x) (_stdout_stream x) w
  /\ tracks "stderr" (_original_stderr x) (_stderr_stream x) w
  /\ _capture_stdout x = ref_truthy (_stdout_stream x)
  /\ _capture_stderr x = ref_truthy (_stderr_stream x)
  /\ is_Some (_text_edit x)
  /\ exists_in w (sys_stdout w) = true
  /\ exists_in w (sys_stderr w) = true.

(** An operation that leaves the slots and the widget's capture state
    alone. *)
Definition same_capture (w w' : World) : Prop :=
  sys_stdout w' = sys_stdout w
  /\ sys_stderr w' = sys_stderr w
  /\ _original_stdout (widget w') = _original_stdout (widget w)
  /\ _original_stderr (widget w') = _original_stderr (widget w)
  /\ _stdout_stream (widget w') = _stdout_stream (widget w)
  /\ _stderr_stream (widget w') = _stderr_stream (widget w)
  /\ _capture_stdout (widget w') = _capture_stdout (widget w)
  /\ _capture_stderr (widget w') = _capture_stderr (widget w)
  /\ (is_Some (_text_edit (widget w)) -> is_Some (_text_edit (widget w')))
  /\ streams_evolve (streams w) (streams w').

(** Each stream slot holds the original stream, or the widget captures
    and the slot holds the widget's own adapter; the originals are the
    objects the slots held before construction. *)
Definition owned_or_original (stdout0 stderr0 : option nat) (w : World)
    : Prop :=
  let x := widget w in
  _original_stdout x = stdout0
  /\ _original_stderr x = stderr0
  /\ (sys_stdout w = ConsoleOutputWidget.ext_ref stdout0
      \/ (_capture_stdout x = true
          /\ sys_stdout w = ConsoleOutputWidget.as_ref (_stdout_stream x)))
  /\ (sys_stderr w = ConsoleOutputWidget.ext_ref stderr0
      \/ (_capture_stderr x = true
          /\ sys_stderr w = ConsoleOutputWidget.as_ref (_stderr_stream x))).

(** The world with the callback and the trace forgotten. *)
Definition forget (w : World) : World :=
  mkWorld (sys_stdout w) (sys_stderr w) (streams w)
          (with_text_callback None (widget w)) [] (env w).

(** The callback calls recorded in the trace, in order. *)
Definition callback_calls (w : World) : list Event :=
  filter (fun ev => is_callback_call ev = true) (trace w).

(** A callback that raises on every call. *)
Definition raising_callback : Callback := fun _ _ => true.

(** The example widget with the raising callback registered. *)
Definition raising_world : World :=
  constructed (Some 0%nat) (Some 1%nat) (quiet_env 5) true true
    (Some raising_callback) 3.

(** The texts of a list, one after the other. *)
Fixpoint concat_all (l : list string) : string :=
  match l with
  | [] => ""
  | x :: r => x ++ concat_all r
  end.

(** Adapter [i] exists and a write on it reaches the widget: its signal is
    connected and emitting works. *)
Definition delivering (w : World) (i : nat) : Prop :=
  exists ts, streams w !! i = Some ts
             /\ connected ts = true /\ signal_ok ts = true.

(** The six lines written at once in the examples. *)
Definition six_lines : string :=
  "1" ++ nl ++ "2" ++ nl ++ "3" ++ nl ++ "4" ++ nl ++ "5" ++ nl ++ "6" ++ nl.

(** The buffer of adapter [self], empty when there is no such adapter. *)
Definition buffer_of (self : nat) (w : World) : string :=
  match streams w !! self with
  | Some ts => _buffer ts
  | None => ""
  end.

(** The append path takes a fallback branch: the text area is missing, or
    the calls on it raise. *)
Definition takes_fallback (w : World) : Prop :=
  _text_edit (widget w) = None
  \/ exists e, _text_edit (widget w) = Some e /\ Qt.alive e = false.

(** What no operation changes in the widget: the original streams
    recorded at construction and the line cap. *)
Definition same_constants (w w' : World) : Prop :=
  _original_stdout (widget w') = _original_stdout (widget w)
  /\ _original_stderr (widget w') = _original_stderr (widget w)
  /\ _max_lines (widget w') = _max_lines (widget w).

(** Whether an operation registers a callback. *)
Definition registers_callback (op : Op) : bool :=
  match op with
  | SetTextCallback (Some _) => true
  | _ => false
  end.

(** The calls on the widget and on its adapters that are covered by the
    code's own exception handling: a write on an allocated adapter, a write
    through a slot that holds an adapter, and the widget's methods other
    than [clear]. *)
Definition guarded_call (w : World) (op : Op) : bool :=
  match op with
  | Write self _ => bool_decide (self < length (streams w))%nat
  | StdoutWrite _ =>
      match sys_stdout w with Some (Adapter _) => true | _ => false end
  | StderrWrite _ =>
      match sys_stderr w with Some (Adapter _) => true | _ => false end
  | AppendText _ _ | SetCapture _ _ | SetTextCallback _
  | AutoScrollToggled _ | RestoreStreams | CloseEvent => true
  | _ => false
  end.

(** A text fed to the widget: through [append_text] with the default
    label, or through a write on adapter [i]. *)
Definition feed (item : option nat * string) : Op :=
  match fst item with
  | Some i => Write i (snd item)
  | None => AppendText (snd item) None
  end.

(** A text as the text area shows it once inserted: split into blocks
    (a carriage return, alone or before a newline, is a line break) and
    read back as plain text. *)
Definition shown (text : string) : string :=
  Qt.toPlainText (Qt.normalize text).

(** What a fallback write to the stream [orig] adds to the trace. *)
Definition sent_to (orig : option nat) (text : string) : list Event :=
  match orig with
  | Some o => [StreamWrite o text]
  | None => []
  end.

(** The layout wraps no block of the document: every visual line is a
    block. *)
Definition unwrapped (tk : Qt.Toolkit) (doc : string) : Prop :=
  forall p : nat, Qt.soft_break tk doc p = false.

(** A widget with a viewport of five lines and a line cap of 100, and
    twenty lines of text. *)
Definition tall_world : World :=
  constructed (Some 0%nat) (Some 1%nat) (quiet_env 5) true true None 100.

Definition twenty_lines : string := concat_all (repeat ("line" ++ nl) 20).

(** * Execution lemmas *)

Ltac munfold :=
  unfold bind, get, modify, ret, raise, when, try_except; cbv beta.

Lemma truthy_nonempty (text : string) : text <> "" -> truthy text = true.
Proof. destruct text; [congruence | reflexivity]. Qed.

Lemma truthy_true_nonempty (text : string) : truthy text = true -> text <> "".
Proof. destruct text; [discriminate | congruence]. Qed.

Lemma fields_run (self : nat) (w : World) (ts : TextStreamObj) :
  streams w !! self = Some ts -> TextStream.fields self w = (Ok ts, w).
Proof.
  intros H. unfold TextStream.fields. munfold. rewrite H. reflexivity.
Qed.

Lemma update_buffer_run (self : nat) (text : string) (w : World) :
  TextStream.update self (TextStream.add_to_buffer text) w
  = (Ok tt, buffered self text w).
Proof. reflexivity. Qed.

Lemma buffered_lookup (self : nat) (text : string) (w : World)
    (ts : TextStreamObj) :
  streams w !! self = Some ts ->
  streams (buffered self text w) !! self
  = Some (TextStream.add_to_buffer text ts).
Proof.
  intros H. unfold buffered. cbn. rewrite list_lookup_alter_eq, H.
  reflexivity.
Qed.

Lemma buffered_lookup_ne (self i : nat) (text : string) (w : World) :
  self <> i -> streams (buffered self text w) !! i = streams w !! i.
Proof.
  intros H. unfold buffered. cbn. apply list_lookup_alter_ne. exact H.
Qed.

(** What one [write] of a non-empty text does, for any connected slot. *)
Lemma write_run (slot : string -> string -> M unit) (self : nat)
    (text : string) (w : World) (ts : TextStreamObj) :
  streams w !! self = Some ts -> text <> "" ->
  TextStream.write slot self text w =
    (Ok (len text),
     let w1 := buffered self text w in
     if signal_ok ts then
       if connected ts then snd (slot text (_source ts) w1) else w1
     else match _original_stream ts with
          | Some o => log (StreamWrite o text) w1
          | None => w1
          end).
Proof.
  intros Hs Hne. destruct text as [|c r]; [congruence|].
  pose proof (buffered_lookup self (String c r) w ts Hs) as Hb.
  unfold TextStream.write, TextStream.emit, ext_write.
  cbn [truthy]. munfold.
  rewrite update_buffer_run.
  repeat (rewrite (fields_run _ _ _ Hb); cbv beta iota).
  cbn [signal_ok connected _source _original_stream TextStream.add_to_buffer].
  destruct (signal_ok ts).
  - destruct (connected ts); [|reflexivity].
    destruct (slot _ _ _) as [[[]|] w']; reflexivity.
  - cbv beta iota. repeat (rewrite (fields_run _ _ _ Hb); cbv beta iota).
    cbn [signal_ok connected _source _original_stream TextStream.add_to_buffer].
    destruct (_original_stream ts); [|reflexivity].
    cbn. destruct (write_raises _ _); reflexivity.
Qed.

Lemma write_empty_run (slot : string -> string -> M unit) (self : nat)
    (w : World) :
  TextStream.write slot self "" w = (Ok 0, w).
Proof. reflexivity. Qed.

Lemma edit_call_run (f : Qt.QPlainTextEdit -> Qt.QPlainTextEdit)
    (w : World) (e : Qt.QPlainTextEdit) :
  _text_edit (widget w) = Some e -> Qt.alive e = true ->
  ConsoleOutputWidget.edit_call f w = (Ok tt, set_edit (f e) w).
Proof.
  intros He Ha. unfold ConsoleOutputWidget.edit_call,
    ConsoleOutputWidget.self_, ConsoleOutputWidget.update. munfold.
  rewrite He, Ha. reflexivity.
Qed.

Lemma edit_query_run {A} (g : Qt.QPlainTextEdit -> A)
    (w : World) (e : Qt.QPlainTextEdit) :
  _text_edit (widget w) = Some e -> Qt.alive e = true ->
  ConsoleOutputWidget.edit_query g w = (Ok (g e), w).
Proof.
  intros He Ha. unfold ConsoleOutputWidget.edit_query,
    ConsoleOutputWidget.self_. munfold.
  rewrite He, Ha. reflexivity.
Qed.

Lemma edit_call_dead (f : Qt.QPlainTextEdit -> Qt.QPlainTextEdit)
    (w : World) (e : Qt.QPlainTextEdit) :
  _text_edit (widget w) = Some e -> Qt.alive e = false ->
  ConsoleOutputWidget.edit_call f w = (Raise, w).
Proof.
  intros He Ha. unfold ConsoleOutputWidget.edit_call,
    ConsoleOutputWidget.self_. munfold.
  rewrite He, Ha. reflexivity.
Qed.

Lemma set_edit_edit (e : Qt.QPlainTextEdit) (w : World) :
  _text_edit (widget (set_edit e w)) = Some e.
Proof. reflexivity. Qed.

Lemma set_edit_set_edit (e e' : Qt.QPlainTextEdit) (w : World) :
  set_edit e' (set_edit e w) = set_edit e' w.
Proof. reflexivity. Qed.

Lemma insertPlainText_alive (text : string) (e : Qt.QPlainTextEdit) :
  Qt.alive (Qt.insertPlainText text e) = Qt.alive e.
Proof.
  unfold Qt.insertPlainText.
  destruct (Qt.insertText _ _ _). reflexivity.
Qed.

Lemma display_append_run (text : string) (w : World)
    (e : Qt.QPlainTextEdit) :
  _text_edit (widget w) = Some e -> Qt.alive e = true ->
  ConsoleOutputWidget.display_append text w =
    (Ok tt,
     set_edit (appended (_max_lines (widget w)) (_auto_scroll (widget w))
                 text e) w).
Proof.
  intros He Ha.
  unfold ConsoleOutputWidget.display_append, appended.
  set (e1 := Qt.moveCursor Qt.End e).
  set (e2 := Qt.insertPlainText text e1).
  assert (Ha2 : Qt.alive e2 = true)
    by (unfold e2; rewrite insertPlainText_alive; exact Ha).
  unfold bind at 1. rewrite (edit_call_run _ w e He Ha). fold e1.
  unfold bind at 1.
  rewrite (edit_call_run _ (set_edit e1 w) e1 eq_refl Ha).
  fold e2. rewrite set_edit_set_edit.
  unfold bind at 1.
  rewrite (edit_query_run _ (set_edit e2 w) e2 eq_refl Ha2).
  unfold bind at 1. unfold ConsoleOutputWidget.self_ at 1.
  munfold. cbn [widget set_edit set_widget with_text_edit _max_lines
                _auto_scroll].
  unfold limited, scrolled, trim_cursor.
  destruct (Z.ltb _ _).
  - rewrite (edit_query_run Qt.document (set_edit e2 w) e2 eq_refl Ha2).
    rewrite (edit_query_run Qt.toolkit (set_edit e2 w) e2 eq_refl Ha2).
    rewrite (edit_call_run _ (set_edit e2 w) e2 eq_refl Ha2).
    rewrite set_edit_set_edit.
    unfold ConsoleOutputWidget.self_. munfold.
    cbn [widget set_edit set_widget with_text_edit _auto_scroll].
    destruct (_auto_scroll (widget w)); [|reflexivity].
    match goal with
    | |- context [ConsoleOutputWidget.edit_query _ (set_edit ?x w)] =>
        rewrite (edit_query_run Qt.scroll_maximum (set_edit x w) x eq_refl Ha2);
        rewrite (edit_call_run (Qt.setValue (Qt.scroll_maximum x))
                   (set_edit x w) x eq_refl Ha2)
    end.
    reflexivity.
  - unfold ConsoleOutputWidget.self_. munfold.
    cbn [widget set_edit set_widget with_text_edit _auto_scroll].
    destruct (_auto_scroll (widget w)); [|reflexivity].
    rewrite (edit_query_run Qt.scroll_maximum (set_edit e2 w) e2 eq_refl Ha2).
    rewrite (edit_call_run _ (set_edit e2 w) e2 eq_refl Ha2).
    reflexivity.
Qed.

Lemma display_append_dead (text : string) (w : World)
    (e : Qt.QPlainTextEdit) :
  _text_edit (widget w) = Some e -> Qt.alive e = false ->
  ConsoleOutputWidget.display_append text w = (Raise, w).
Proof.
  intros He Ha. unfold ConsoleOutputWidget.display_append.
  unfold bind at 1. rewrite (edit_call_dead _ w e He Ha). reflexivity.
Qed.

Lemma called_back_widget (text source : string) (w : World) :
  widget (called_back text source w) = widget w.
Proof. unfold called_back. destruct (_text_callback _); reflexivity. Qed.

Lemma called_back_env (text source : string) (w : World) :
  env (called_back text source w) = env w.
Proof. unfold called_back. destruct (_text_callback _); reflexivity. Qed.

Lemma callback_step_run (text source : string) (w : World) :
  (match _text_callback (widget w) with
   | Some cb =>
       try_except (ConsoleOutputWidget.call_callback cb text source) (ret tt)
   | None => ret tt
   end) w = (Ok tt, called_back text source w).
Proof.
  unfold called_back, ConsoleOutputWidget.call_callback.
  destruct (_text_callback (widget w)) as [cb|]; [|reflexivity].
  munfold. destruct (cb text source); reflexivity.
Qed.

Lemma self_run (w : World) :
  ConsoleOutputWidget.self_ w = (Ok (widget w), w).
Proof. reflexivity. Qed.

(** What the append path does with a non-empty text. *)
Lemma append_run (text source : string) (w : World) :
  text <> "" ->
  ConsoleOutputWidget._append_text_internal text source w =
    let w1 := called_back text source w in
    match _text_edit (widget w) with
    | None =>
        (match _original_stdout (widget w) with
         | Some o => if write_raises (env w) o then Raise else Ok tt
         | None => Ok tt
         end,
         fell_back text w1)
    | Some e =>
        (Ok tt,
         if Qt.alive e then
           set_edit (appended (_max_lines (widget w))
                       (_auto_scroll (widget w)) text e) w1
         else fell_back text w1)
    end.
Proof.
  intros Hne. unfold ConsoleOutputWidget._append_text_internal.
  rewrite (truthy_nonempty _ Hne). cbn [negb].
  unfold bind. cbv beta. rewrite self_run. cbv beta iota.
  rewrite callback_step_run. cbv beta iota zeta. rewrite self_run.
  cbv beta iota.
  pose proof (called_back_widget text source w) as Hw.
  pose proof (called_back_env text source w) as Hv.
  set (w1 := called_back text source w) in *.
  rewrite Hw. unfold fell_back. rewrite Hw.
  destruct (_text_edit (widget w)) as [e|] eqn:He.
  - destruct (Qt.alive e) eqn:Ha.
    + unfold try_except.
      rewrite (display_append_run text w1 e); [|rewrite Hw; exact He|exact Ha].
      rewrite Hw. reflexivity.
    + unfold try_except at 1.
      rewrite (display_append_dead text w1 e); [|rewrite Hw; exact He|exact Ha].
      rewrite self_run. cbv beta iota. rewrite Hw.
      unfold ext_write. munfold.
      destruct (_original_stdout (widget w)); [|reflexivity].
      destruct (write_raises _ _); reflexivity.
  - unfold ext_write. munfold.
    destruct (_original_stdout (widget w)); [|reflexivity].
    rewrite Hv. destruct (write_raises _ _); reflexivity.
Qed.

Lemma append_empty_run (source : string) (w : World) :
  ConsoleOutputWidget._append_text_internal "" source w = (Ok tt, w).
Proof. reflexivity. Qed.

Lemma alter_at_end {A} (f : A -> A) (l : list A) (x : A) :
  alter f (length l) (l ++ [x])%list = (l ++ [f x])%list.
Proof.
  induction l as [|a l IH]; [reflexivity|].
  cbn. f_equal. exact IH.
Qed.

Lemma install_stdout_run (w : World) :
  (s <- TextStream.__init__ (_original_stdout (widget w)) "stdout" ;;
   ConsoleOutputWidget.update (with_stdout_stream (Some s)) ;;
   TextStream.connect s ;;
   modify (set_sys_stdout (Some (Adapter s)))) w
  = (Ok tt, installed_stdout w).
Proof.
  unfold TextStream.__init__, TextStream.connect, TextStream.update,
    ConsoleOutputWidget.update, installed_stdout, new_adapter.
  munfold. cbn. rewrite alter_at_end. reflexivity.
Qed.

Lemma install_stderr_run (w : World) :
  (s <- TextStream.__init__ (_original_stderr (widget w)) "stderr" ;;
   ConsoleOutputWidget.update (with_stderr_stream (Some s)) ;;
   TextStream.connect s ;;
   modify (set_sys_stderr (Some (Adapter s)))) w
  = (Ok tt, installed_stderr w).
Proof.
  unfold TextStream.__init__, TextStream.connect, TextStream.update,
    ConsoleOutputWidget.update, installed_stderr, new_adapter.
  munfold. cbn. rewrite alter_at_end. reflexivity.
Qed.

Lemma capture_stdout_step_run (stdout : bool) (w : World) :
  (if stdout && negb (_capture_stdout (widget w)) then
     s <- TextStream.__init__ (_original_stdout (widget w)) "stdout" ;;
     ConsoleOutputWidget.update (with_stdout_stream (Some s)) ;;
     TextStream.connect s ;;
     modify (set_sys_stdout (Some (Adapter s))) ;;
     ConsoleOutputWidget.update (with_capture_stdout true)
   else if negb stdout && _capture_stdout (widget w) then
     w' <- get ;;
     when (is_ (sys_stdout w')
             (ConsoleOutputWidget.as_ref (_stdout_stream (widget w))))
       (modify (set_sys_stdout
                  (ConsoleOutputWidget.ext_ref (_original_stdout (widget w))))) ;;
     ConsoleOutputWidget.update (with_stdout_stream None) ;;
     ConsoleOutputWidget.update (with_capture_stdout false)
   else ret tt) w
  = (Ok tt, capture_stdout_to stdout w).
Proof.
  unfold capture_stdout_to, released_stdout, installed_stdout, new_adapter,
    TextStream.__init__, TextStream.connect, TextStream.update,
    ConsoleOutputWidget.update.
  destruct (stdout && negb (_capture_stdout (widget w))).
  - munfold. cbn. rewrite alter_at_end. reflexivity.
  - destruct (negb stdout && _capture_stdout (widget w)); [|reflexivity].
    munfold. destruct (is_ _ _); reflexivity.
Qed.

Lemma capture_stderr_step_run (stderr : bool) (w : World) :
  (if stderr && negb (_capture_stderr (widget w)) then
     s <- TextStream.__init__ (_original_stderr (widget w)) "stderr" ;;
     ConsoleOutputWidget.update (with_stderr_stream (Some s)) ;;
     TextStream.connect s ;;
     modify (set_sys_stderr (Some (Adapter s))) ;;
     ConsoleOutputWidget.update (with_capture_stderr true)
   else if negb stderr && _capture_stderr (widget w) then
     w' <- get ;;
     when (is_ (sys_stderr w')
             (ConsoleOutputWidget.as_ref (_stderr_stream (widget w))))
       (modify (set_sys_stderr
                  (ConsoleOutputWidget.ext_ref (_original_stderr (widget w))))) ;;
     ConsoleOutputWidget.update (with_stderr_stream None) ;;
     ConsoleOutputWidget.update (with_capture_stderr false)
   else ret tt) w
  = (Ok tt, capture_stderr_to stderr w).
Proof.
  unfold capture_stderr_to, released_stderr, installed_stderr, new_adapter,
    TextStream.__init__, TextStream.connect, TextStream.update,
    ConsoleOutputWidget.update.
  destruct (stderr && negb (_capture_stderr (widget w))).
  - munfold. cbn. rewrite alter_at_end. reflexivity.
  - destruct (negb stderr && _capture_stderr (widget w)); [|reflexivity].
    munfold. destruct (is_ _ _); reflexivity.
Qed.

Lemma set_capture_run (stdout stderr : bool) (w : World) :
  ConsoleOutputWidget.set_capture stdout stderr w
  = (Ok tt, capture_stderr_to stderr (capture_stdout_to stdout w)).
Proof.
  unfold ConsoleOutputWidget.set_capture.
  unfold bind at 1. rewrite self_run. cbv beta iota.
  unfold bind at 1. rewrite capture_stdout_step_run. cbv beta iota.
  unfold bind at 1. rewrite self_run. cbv beta iota.
  apply capture_stderr_step_run.
Qed.

Lemma restore_streams_run (w : World) :
  ConsoleOutputWidget.restore_streams w
  = (Ok tt, restored_stderr (restored_stdout w)).
Proof.
  unfold ConsoleOutputWidget.restore_streams, restored_stderr,
    restored_stdout, ConsoleOutputWidget.self_.
  munfold.
  destruct (ref_truthy (_stdout_stream (widget w))
            && is_ (sys_stdout w) _); cbn;
    destruct (ref_truthy (_stderr_stream (widget w)) && is_ (sys_stderr w) _);
    reflexivity.
Qed.

Lemma constructed_eq (stdout0 stderr0 : option nat) (e : Env)
    (capture_stdout capture_stderr : bool) (cb : option Callback)
    (max_lines : Z) :
  constructed stdout0 stderr0 e capture_stdout capture_stderr cb max_lines =
    let w0 :=
      mkWorld (ConsoleOutputWidget.ext_ref stdout0)
              (ConsoleOutputWidget.ext_ref stderr0) []
              (with_text_edit
                 (Some (Qt.new_edit (viewport_lines e) (toolkit_of e)))
                 (ConsoleOutputWidget.fresh stdout0 stderr0 capture_stdout
                    capture_stderr cb max_lines))
              [] e in
    let w1 := if capture_stdout then installed_stdout w0 else w0 in
    if capture_stderr then installed_stderr w1 else w1.
Proof.
  destruct capture_stdout, capture_stderr; reflexivity.
Qed.

Lemma append_exec (text source : string) (w : World) :
  exec (ConsoleOutputWidget._append_text_internal text source) w
  = append_world text source w.
Proof.
  unfold exec, append_world. destruct (truthy text) eqn:Ht.
  - rewrite (append_run text source w (truthy_true_nonempty _ Ht)).
    cbv zeta. destruct (_text_edit (widget w)); reflexivity.
  - destruct text; [reflexivity | discriminate].
Qed.

Lemma append_returns (text source : string) (w : World)
    (e : Qt.QPlainTextEdit) :
  _text_edit (widget w) = Some e ->
  returns (ConsoleOutputWidget._append_text_internal text source) w = true.
Proof.
  intros He. unfold returns. destruct (truthy text) eqn:Ht.
  - rewrite (append_run text source w (truthy_true_nonempty _ Ht)).
    cbv zeta. rewrite He. reflexivity.
  - destruct text; [reflexivity | discriminate].
Qed.

Lemma alter_out_of_range {A} (f : A -> A) (l : list A) (i : nat) :
  l !! i = None -> alter f i l = l.
Proof.
  revert i. induction l as [|a l IH]; intros [|i] H; try reflexivity.
  - discriminate.
  - cbn in *. f_equal. apply IH. exact H.
Qed.

Lemma buffered_out_of_range (self : nat) (text : string) (w : World) :
  streams w !! self = None -> buffered self text w = w.
Proof.
  intros H. unfold buffered. rewrite (alter_out_of_range _ _ _ H).
  destruct w; reflexivity.
Qed.

Lemma stream_write_exec (self : nat) (text : string) (w : World) :
  exec (stream_write self text) w = write_world self text w.
Proof.
  unfold write_world, stream_write. destruct (truthy text) eqn:Ht.
  - destruct (streams w !! self) as [ts|] eqn:Hs.
    + unfold exec.
      rewrite (write_run _ self text w ts Hs (truthy_true_nonempty _ Ht)).
      cbn [snd]. cbv zeta.
      destruct (signal_ok ts); [|reflexivity].
      destruct (connected ts); [|reflexivity].
      apply append_exec.
    + destruct text as [|c r]; [discriminate|].
      unfold exec, TextStream.write, TextStream.emit. cbn [truthy].
      munfold. rewrite update_buffer_run.
      rewrite (buffered_out_of_range _ _ _ Hs).
      unfold TextStream.fields. munfold.
      repeat (rewrite Hs; cbv beta iota). reflexivity.
  - destruct text; [reflexivity | discriminate].
Qed.

Lemma stream_write_returns (self : nat) (text : string) (w : World)
    (ts : TextStreamObj) :
  streams w !! self = Some ts ->
  fst (stream_write self text w) = Ok (if truthy text then len text else 0).
Proof.
  intros Hs. destruct (truthy text) eqn:Ht.
  - unfold stream_write.
    rewrite (write_run _ self text w ts Hs (truthy_true_nonempty _ Ht)).
    reflexivity.
  - destruct text; [reflexivity | discriminate].
Qed.

(** * Empty text *)

(** C7: an empty text passed to the internal append path, through
    [append_text], through the slot or through a write on a captured
    stream, changes nothing: the world after the call is the world before
    it, so the callback is not invoked, the visible buffer is unchanged and
    no fallback write occurs; the call returns normally. *)
Theorem empty_text_is_noop (source : string) (osource : option string)
    (self : nat) (w : World) :
  ConsoleOutputWidget._append_text_internal "" source w = (Ok tt, w)
  /\ ConsoleOutputWidget.append_text "" osource w = (Ok tt, w)
  /\ ConsoleOutputWidget._on_text_written "" source w = (Ok tt, w)
  /\ stream_write self "" w = (Ok 0, w)
  /\ (forall text : string,
        negb (truthy text) = true ->
        ConsoleOutputWidget._append_text_internal text source w = (Ok tt, w)
        /\ trace (exec (ConsoleOutputWidget._append_text_internal text source) w)
           = trace w
        /\ visible (exec (ConsoleOutputWidget._append_text_internal text source) w)
           = visible w).
Proof.
  repeat split; try reflexivity;
    destruct text; try reflexivity; discriminate.
Qed.

(** * The stream adapter's write *)

(** C6, as amended: on an existing adapter [write] never raises, for any
    text and any connected slot, and returns the length written.  An empty
    text changes nothing and emits nothing.  A non-empty text is appended
    to the buffer and the signal is emitted once with the text and the
    adapter's source label (the slot runs once; an exception inside it does
    not come back); if the emission fails, the text is written once to the
    original stream when there is one, whether or not that write raises. *)
Theorem write_never_raises (slot : string -> string -> M unit) (self : nat)
    (text : string) (w : World) (ts : TextStreamObj) :
  streams w !! self = Some ts ->
  fst (TextStream.write slot self text w)
    = Ok (if truthy text then len text else 0)
  /\ (text = "" -> exec (TextStream.write slot self text) w = w)
  /\ (text <> "" ->
      exec (TextStream.write slot self text) w =
        let w1 := buffered self text w in
        if signal_ok ts then
          if connected ts then exec (slot text (_source ts)) w1 else w1
        else match _original_stream ts with
             | Some o => log (StreamWrite o text) w1
             | None => w1
             end)
  /\ streams (buffered self text w) !! self
       = Some (TextStream.add_to_buffer text ts).
Proof.
  intros Hs. repeat split.
  - destruct (truthy text) eqn:Ht.
    + rewrite (write_run slot self text w ts Hs (truthy_true_nonempty _ Ht)).
      reflexivity.
    + destruct text; [reflexivity | discriminate].
  - intros ->. reflexivity.
  - intros Hne. unfold exec at 1.
    rewrite (write_run slot self text w ts Hs Hne). reflexivity.
  - apply buffered_lookup. exact Hs.
Qed.

Lemma write_never_raises_witness :
  fst (TextStream.write recording_slot 0 ("a" ++ nl) example_world)
    = Ok 2
  /\ trace (exec (TextStream.write recording_slot 0 ("a" ++ nl)) example_world)
     = [SlotCall ("a" ++ nl) "stdout"].
Proof.
  pose proof (write_never_raises recording_slot 0 ("a" ++ nl) example_world
                (new_adapter (Some 0%nat) "stdout") eq_refl) as [H1 [_ [H3 _]]].
  split.
  - exact H1.
  - rewrite H3; [reflexivity | discriminate].
Defined.

(** C6 as stated fails on the empty text: a write of [""] emits no
    notification, although the claim has every write emit one carrying the
    text and the source label. *)
Lemma write_empty_emits_nothing :
  trace (exec (TextStream.write recording_slot 0 "") example_world)
    <> (trace example_world ++ [SlotCall "" "stdout"])%list
  /\ trace (exec (TextStream.emit recording_slot 0 "" "stdout") example_world)
     = (trace example_world ++ [SlotCall "" "stdout"])%list.
Proof.
  split; [discriminate | reflexivity].
Qed.

Lemma empty_text_is_noop_witness :
  ConsoleOutputWidget._append_text_internal "" "stdout" example_world
  = (Ok tt, example_world).
Proof.
  destruct (empty_text_is_noop "stdout" None 0 example_world)
    as [_ [_ [_ [_ H]]]].
  destruct (H "" eq_refl) as [H1 _]. exact H1.
Defined.

(** * Fallback writes of the append path *)

Lemma fell_back_trace (text : string) (w : World) :
  trace (fell_back text w) = (trace w ++ fallback_events text w)%list.
Proof.
  unfold fell_back, fallback_events.
  destruct (_original_stdout (widget w)); cbn; [reflexivity|].
  symmetry. apply app_nil_r.
Qed.

Lemma called_back_trace (text source : string) (w : World) :
  trace (called_back text source w)
  = (trace w ++ callback_events text source w)%list.
Proof.
  unfold called_back, callback_events.
  destruct (_text_callback (widget w)); cbn; [reflexivity|].
  symmetry. apply app_nil_r.
Qed.

Lemma fallback_events_called_back (text t s : string) (w : World) :
  fallback_events text (called_back t s w) = fallback_events text w.
Proof. unfold fallback_events. rewrite called_back_widget. reflexivity. Qed.

Lemma append_world_fallback (text source : string) (w : World) :
  text <> "" -> takes_fallback w ->
  append_world text source w = fell_back text (called_back text source w).
Proof.
  intros Hne Hf. unfold append_world. rewrite (truthy_nonempty _ Hne).
  destruct Hf as [Hn | [e [He Ha]]].
  - rewrite Hn. reflexivity.
  - rewrite He, Ha. reflexivity.
Qed.

(** C10: when the append path takes a fallback branch on a non-empty text
    (text area missing, or a call on it raised), all it adds to the trace
    is the callback call, if a callback is registered, followed by one
    write of the text to the original stdout recorded at construction, if
    there is one; this is so for every source label, ["stderr"] included.
    Every stream write so added targets the original stdout, and a text
    written to a connected adapter labelled ["stderr"] is written to the
    original stdout as well. *)
Theorem fallback_goes_to_original_stdout (text source : string) (w : World) :
  text <> "" -> takes_fallback w ->
  let w' := exec (ConsoleOutputWidget._append_text_internal text source) w in
  trace w' = (trace w ++ callback_events text source w
                ++ fallback_events text w)%list
  /\ visible w' = visible w
  /\ (forall target t,
        In (StreamWrite target t)
           (callback_events text source w ++ fallback_events text w)%list ->
        _original_stdout (widget w) = Some target /\ t = text)
  /\ (forall self ts,
        streams w !! self = Some ts -> _source ts = "stderr" ->
        connected ts = true -> signal_ok ts = true ->
        trace (exec (stream_write self text) w)
        = (trace w ++ callback_events text "stderr" w
             ++ fallback_events text w)%list).
Proof.
  intros Hne Hf w'. subst w'. rewrite append_exec.
  rewrite (append_world_fallback text source w Hne Hf).
  repeat split.
  - rewrite fell_back_trace, called_back_trace, fallback_events_called_back.
    symmetry. apply app_assoc.
  - unfold visible, fell_back.
    destruct (_original_stdout _); cbn [widget log];
      rewrite called_back_widget; reflexivity.
  - unfold callback_events, fallback_events in H.
    destruct (_text_callback (widget w)), (_original_stdout (widget w));
      cbn in H; intuition (try discriminate; try congruence).
  - unfold callback_events, fallback_events in H.
    destruct (_text_callback (widget w)), (_original_stdout (widget w));
      cbn in H; intuition (try discriminate; try congruence).
  - intros self ts Hs Hsrc Hc Hok.
    rewrite stream_write_exec. unfold write_world.
    rewrite (truthy_nonempty _ Hne), Hs, Hok, Hc, Hsrc.
    rewrite (append_world_fallback text "stderr" (buffered self text w) Hne).
    + rewrite fell_back_trace, called_back_trace, fallback_events_called_back.
      symmetry. apply app_assoc.
    + exact Hf.
Qed.

Lemma fallback_goes_to_original_stdout_witness :
  trace (exec (stream_write 1 "oops") (run_op TextAreaGone example_world))
  = [StreamWrite 0 "oops"].
Proof.
  assert (Hne : "oops" <> "") by discriminate.
  assert (Hf : takes_fallback (run_op TextAreaGone example_world)).
  { right. eexists. split; reflexivity. }
  destruct (fallback_goes_to_original_stdout "oops" "stderr"
              (run_op TextAreaGone example_world) Hne Hf) as [_ [_ [_ H]]].
  exact (H 1%nat (new_adapter (Some 1%nat) "stderr") eq_refl eq_refl eq_refl
           eq_refl).
Defined.

(** * Auto-scroll *)

Lemma fell_back_widget (text : string) (w : World) :
  widget (fell_back text w) = widget w.
Proof. unfold fell_back. destruct (_original_stdout _); reflexivity. Qed.

Lemma toggled_then_append (checked : bool) (text source : string)
    (w : World) :
  exec (ConsoleOutputWidget._on_auto_scroll_toggled checked ;;
        ConsoleOutputWidget._append_text_internal text source) w
  = append_world text source
      (set_widget (with_auto_scroll checked (widget w)) w).
Proof.
  rewrite <- append_exec. reflexivity.
Qed.

Lemma scrolled_on_at_maximum (e : Qt.QPlainTextEdit) :
  Qt.scroll_value (scrolled true e) = Qt.scroll_maximum (scrolled true e).
Proof.
  unfold scrolled, Qt.setValue, Qt.scroll_maximum.
  cbn [Qt.scroll_value Qt.document Qt.page Qt.toolkit]. lia.
Qed.

(** C8, the code at a failing input: auto-scroll is toggled off on a
    widget whose viewport shows five lines, with the view at the top, and
    twenty lines are written to the captured stdout (far below the line
    cap of 100).  The append path calls [moveCursor(End)] on the text area
    before it tests the auto-scroll flag, and the toolkit brings the moved
    cursor into view: the scroll position is no longer the one the user
    left. *)
Theorem auto_scroll_off_view_still_moves :
  let w0 := run_op (AutoScrollToggled false)
              (constructed (Some 0%nat) (Some 1%nat) (quiet_env 5) true true
                 None 100) in
  let w := run_ops (repeat (StdoutWrite ("line" ++ nl)) 20) w0 in
  _auto_scroll (widget w0) = false
  /\ _auto_scroll (widget w) = false
  /\ scroll_position w0 = Some 0
  /\ scroll_position w <> scroll_position w0
  /\ Qt.blockCount (visible w) = 21.
Proof.
  vm_compute. repeat split; discriminate.
Qed.

(** * The line cap *)

(** C1, the code at the spec's example: with [max_lines = 3], after
    writing ["a\n"], ["b\n"], ["c\n"], ["d\n"] to the captured stdout the
    visible buffer holds the lines a, d and an empty last line, not b, c,
    d: the selection removed by the trimming runs from the start of the
    first excess block to the end of the document, so the newest lines go
    and the oldest stay.  A single write of six lines leaves five blocks,
    more than [max_lines]. *)
Theorem line_cap_example_keeps_oldest :
  let w := run_ops [StdoutWrite ("a" ++ nl); StdoutWrite ("b" ++ nl);
                    StdoutWrite ("c" ++ nl); StdoutWrite ("d" ++ nl)]
             example_world in
  let w6 := run_op (StdoutWrite ("1" ++ nl ++ "2" ++ nl ++ "3" ++ nl
                                 ++ "4" ++ nl ++ "5" ++ nl ++ "6" ++ nl))
              example_world in
  visible w = "a" ++ nl ++ "d" ++ nl
  /\ lines (visible w) = ["a"; "d"; ""]
  /\ lines (visible w) <> ["b"; "c"; "d"]
  /\ lines (visible w) <> ["b"; "c"; "d"; ""]
  /\ lines (visible w6) = ["1"; "2"; "3"; "4"; ""]
  /\ Qt.blockCount (visible w6) = 5
  /\ _max_lines (widget w6) = 3.
Proof.
  vm_compute. repeat split; discriminate.
Qed.

(** * Operations and what they preserve *)

Lemma exec_bind_ret {A} (m : M A) (w : World) :
  exec (m ;; ret tt) w = exec m w.
Proof.
  unfold exec, bind, ret. destruct (m w) as [[a|] w']; reflexivity.
Qed.

Lemma write_to_exec (r : ref) (text : string) (w : World) :
  exec (write_to r text) w = slot_write_world r text w.
Proof.
  destruct r as [[n|i]|]; cbn [write_to slot_write_world].
  - unfold exec, ext_write. munfold.
    destruct (write_raises _ _); reflexivity.
  - rewrite exec_bind_ret. apply stream_write_exec.
  - reflexivity.
Qed.

Lemma run_op_step (op : Op) (w : World) : run_op op w = step op w.
Proof.
  unfold run_op. destruct op; cbn [interp step].
  - rewrite exec_bind_ret. apply stream_write_exec.
  - unfold exec, TextStream.flush, TextStream.fields, ext_flush. munfold.
    destruct (streams w !! self) as [ts|]; [|reflexivity].
    destruct (_original_stream ts); reflexivity.
  - apply (write_to_exec (sys_stdout w) text w).
  - apply (write_to_exec (sys_stderr w) text w).
  - apply append_exec.
  - unfold exec. rewrite set_capture_run. reflexivity.
  - reflexivity.
  - reflexivity.
  - unfold exec, ConsoleOutputWidget.clear, ConsoleOutputWidget.edit_call,
      ConsoleOutputWidget.update. munfold. rewrite self_run.
    destruct (_text_edit (widget w)) as [e|]; [|reflexivity].
    destruct (Qt.alive e); reflexivity.
  - unfold exec. rewrite restore_streams_run. reflexivity.
  - unfold exec, ConsoleOutputWidget.closeEvent.
    rewrite restore_streams_run. reflexivity.
  - unfold exec. munfold. destruct (exists_in w r); reflexivity.
  - unfold exec. munfold. destruct (exists_in w r); reflexivity.
  - reflexivity.
  - reflexivity.
Qed.

Lemma stream_evolves_refl (ts : TextStreamObj) : stream_evolves ts ts.
Proof.
  repeat split; auto. exists "". symmetry.
  induction (_buffer ts) as [|c s IH]; [reflexivity|].
  cbn. f_equal. exact IH.
Qed.

Lemma string_app_assoc (a b c : string) : (a ++ b) ++ c = a ++ (b ++ c).
Proof. induction a as [|x a IH]; [reflexivity|]. cbn. f_equal. exact IH. Qed.

Lemma string_app_nil_r (a : string) : a ++ "" = a.
Proof. induction a as [|x a IH]; [reflexivity|]. cbn. f_equal. exact IH. Qed.

Lemma stream_evolves_trans (a b c : TextStreamObj) :
  stream_evolves a b -> stream_evolves b c -> stream_evolves a c.
Proof.
  intros (Hs1 & Ho1 & Hc1 & s1 & Hb1) (Hs2 & Ho2 & Hc2 & s2 & Hb2).
  repeat split.
  - congruence.
  - congruence.
  - auto.
  - exists (s1 ++ s2). rewrite Hb2, Hb1. apply string_app_assoc.
Qed.

Lemma streams_evolve_refl (l : list TextStreamObj) : streams_evolve l l.
Proof. intros i ts H. exists ts. split; [exact H | apply stream_evolves_refl]. Qed.

Lemma streams_evolve_trans (l1 l2 l3 : list TextStreamObj) :
  streams_evolve l1 l2 -> streams_evolve l2 l3 -> streams_evolve l1 l3.
Proof.
  intros H12 H23 i ts H.
  destruct (H12 i ts H) as (ts2 & H2 & E2).
  destruct (H23 i ts2 H2) as (ts3 & H3 & E3).
  exists ts3. split; [exact H3 | eapply stream_evolves_trans; eassumption].
Qed.

Lemma streams_evolve_alter (f : TextStreamObj -> TextStreamObj)
    (self : nat) (l : list TextStreamObj) :
  (forall ts, stream_evolves ts (f ts)) ->
  streams_evolve l (alter f self l).
Proof.
  intros Hf i ts H. destruct (decide (self = i)) as [->|Hne].
  - exists (f ts). split; [|apply Hf].
    rewrite list_lookup_alter_eq, H. reflexivity.
  - exists ts. split; [|apply stream_evolves_refl].
    rewrite list_lookup_alter_ne by exact Hne. exact H.
Qed.

Lemma streams_evolve_app (l : list TextStreamObj) (x : TextStreamObj) :
  streams_evolve l (l ++ [x])%list.
Proof.
  intros i ts H. exists ts. split; [|apply stream_evolves_refl].
  apply lookup_app_l_Some. exact H.
Qed.

Lemma add_to_buffer_evolves (text : string) (ts : TextStreamObj) :
  stream_evolves ts (TextStream.add_to_buffer text ts).
Proof. repeat split; auto. exists text. reflexivity. Qed.

Lemma break_signal_evolves (ts : TextStreamObj) :
  stream_evolves ts (break_signal ts).
Proof.
  repeat split; auto. exists "". cbn. symmetry. apply string_app_nil_r.
Qed.

Lemma streams_evolve_length (l l' : list TextStreamObj) :
  streams_evolve l l' -> (length l <= length l')%nat.
Proof.
  intros H. destruct l as [|a l0] eqn:E; [cbn; lia|]. rewrite <- E in *.
  assert (Hlast : is_Some (l !! (length l - 1)%nat)).
  { apply lookup_lt_is_Some. subst l. cbn. lia. }
  destruct Hlast as [ts Hts].
  destruct (H _ _ Hts) as (ts' & H' & _).
  apply lookup_lt_Some in H'. lia.
Qed.

(** The append path touches nothing but the text area and the trace. *)
Lemma append_world_frame (text source : string) (w : World) :
  let w' := append_world text source w in
  sys_stdout w' = sys_stdout w /\ sys_stderr w' = sys_stderr w
  /\ streams w' = streams w /\ env w' = env w
  /\ widget w' = with_text_edit (_text_edit (widget w')) (widget w)
  /\ (is_Some (_text_edit (widget w)) -> is_Some (_text_edit (widget w'))).
Proof.
  unfold append_world, called_back, fell_back.
  destruct w as [so se l x tr ev]. destruct x. cbn.
  destruct (truthy text); cbn; [|repeat split; auto].
  destruct _text_callback0, _text_edit0 as [e|], _original_stdout0; cbn;
    try destruct (Qt.alive e); cbn; repeat split; auto.
Qed.

Lemma exists_in_evolve (w w' : World) (r : ref) :
  streams_evolve (streams w) (streams w') ->
  exists_in w r = true -> exists_in w' r = true.
Proof.
  intros Hev. destruct r as [[n|i]|]; cbn; auto.
  intros H. apply bool_decide_eq_true in H. apply bool_decide_eq_true.
  pose proof (streams_evolve_length _ _ Hev). lia.
Qed.

Lemma tracks_evolve (label : string) (orig s : option nat) (w w' : World) :
  streams_evolve (streams w) (streams w') ->
  tracks label orig s w -> tracks label orig s w'.
Proof.
  intros Hev Ht i Hi. destruct (Ht i Hi) as (ts & Hl & Hs & Hc & Ho).
  destruct (Hev i ts Hl) as (ts' & Hl' & Hs' & Ho' & Hc' & _).
  exists ts'. repeat split; [exact Hl' | congruence | auto | congruence].
Qed.

Lemma inv_same_capture (w w' : World) :
  same_capture w w' -> inv w -> inv w'.
Proof.
  intros (Hso & Hse & Hoo & Hoe & Hss & Hes & Hco & Hce & Hed & Hev)
         (T1 & T2 & C1 & C2 & E & X1 & X2).
  unfold inv. cbv zeta. rewrite Hoo, Hoe, Hss, Hes, Hco, Hce, Hso, Hse.
  repeat split; auto.
  - eapply tracks_evolve; eassumption.
  - eapply tracks_evolve; eassumption.
  - eapply exists_in_evolve; eassumption.
  - eapply exists_in_evolve; eassumption.
Qed.

Lemma same_capture_refl (w : World) : same_capture w w.
Proof. repeat split; auto. apply streams_evolve_refl. Qed.

Lemma same_capture_trans (w1 w2 w3 : World) :
  same_capture w1 w2 -> same_capture w2 w3 -> same_capture w1 w3.
Proof.
  intros (A1 & A2 & A3 & A4 & A5 & A6 & A7 & A8 & A9 & A10)
         (B1 & B2 & B3 & B4 & B5 & B6 & B7 & B8 & B9 & B10).
  repeat split; try congruence; auto.
  eapply streams_evolve_trans; eassumption.
Qed.

Lemma same_capture_append (text source : string) (w : World) :
  same_capture w (append_world text source w).
Proof.
  destruct (append_world_frame text source w)
    as (H1 & H2 & H3 & H4 & H5 & H6).
  repeat split; auto; try (rewrite H5; reflexivity).
  rewrite H3. apply streams_evolve_refl.
Qed.

Lemma same_capture_buffered (self : nat) (text : string) (w : World) :
  same_capture w (buffered self text w).
Proof.
  repeat split; auto. cbn.
  apply streams_evolve_alter, add_to_buffer_evolves.
Qed.

Lemma same_capture_log (ev : Event) (w : World) : same_capture w (log ev w).
Proof. repeat split; auto. apply streams_evolve_refl. Qed.

Lemma same_capture_write (self : nat) (text : string) (w : World) :
  same_capture w (write_world self text w).
Proof.
  unfold write_world. destruct (truthy text); [|apply same_capture_refl].
  destruct (streams w !! self) as [ts|]; [|apply same_capture_refl].
  destruct (signal_ok ts).
  - destruct (connected ts); [|apply same_capture_buffered].
    eapply same_capture_trans;
      [apply same_capture_buffered | apply same_capture_append].
  - destruct (_original_stream ts); [|apply same_capture_buffered].
    eapply same_capture_trans;
      [apply same_capture_buffered | apply same_capture_log].
Qed.

Lemma same_capture_slot_write (r : ref) (text : string) (w : World) :
  same_capture w (slot_write_world r text w).
Proof.
  destruct r as [[n|i]|]; cbn.
  - apply same_capture_log.
  - apply same_capture_write.
  - apply same_capture_refl.
Qed.

Lemma exists_in_ext (w : World) (o : option nat) :
  exists_in w (ConsoleOutputWidget.ext_ref o) = true.
Proof. destruct o; reflexivity. Qed.

Lemma lookup_at_end {A} (l : list A) (x : A) :
  (l ++ [x])%list !! length l = Some x.
Proof.
  rewrite lookup_app_r by lia. rewrite Nat.sub_diag. reflexivity.
Qed.

Lemma inv_capture_stdout_to (stdout : bool) (w : World) :
  inv w -> inv (capture_stdout_to stdout w).
Proof.
  intros (T1 & T2 & C1 & C2 & E & X1 & X2). unfold capture_stdout_to.
  destruct (stdout && negb (_capture_stdout (widget w))).
  - unfold inv. cbn. repeat split; auto.
    + intros i Hi. injection Hi as <-.
      eexists. split; [apply lookup_at_end|]. repeat split.
    + intros i Hi. destruct (T2 i Hi) as (ts & Hl & Hrest).
      exists ts. split; [apply lookup_app_l_Some; exact Hl | exact Hrest].
    + apply bool_decide_eq_true. rewrite length_app. cbn. lia.
    + destruct (sys_stderr w) as [[n|i]|]; cbn in *; auto.
      apply bool_decide_eq_true in X2. apply bool_decide_eq_true.
      rewrite length_app. cbn. lia.
  - destruct (negb stdout && _capture_stdout (widget w)).
    + unfold released_stdout, inv. cbv zeta.
      destruct (is_ _ _); cbn; repeat split; auto; try discriminate.
      apply (exists_in_ext w).
    + repeat split; auto.
Qed.

Lemma inv_capture_stderr_to (stderr : bool) (w : World) :
  inv w -> inv (capture_stderr_to stderr w).
Proof.
  intros (T1 & T2 & C1 & C2 & E & X1 & X2). unfold capture_stderr_to.
  destruct (stderr && negb (_capture_stderr (widget w))).
  - unfold inv. cbn. repeat split; auto.
    + intros i Hi. destruct (T1 i Hi) as (ts & Hl & Hrest).
      exists ts. split; [apply lookup_app_l_Some; exact Hl | exact Hrest].
    + intros i Hi. injection Hi as <-.
      eexists. split; [apply lookup_at_end|]. repeat split.
    + destruct (sys_stdout w) as [[n|i]|]; cbn in *; auto.
      apply bool_decide_eq_true in X1. apply bool_decide_eq_true.
      rewrite length_app. cbn. lia.
    + apply bool_decide_eq_true. rewrite length_app. cbn. lia.
  - destruct (negb stderr && _capture_stderr (widget w)).
    + unfold released_stderr, inv. cbv zeta.
      destruct (is_ _ _); cbn; repeat split; auto; try discriminate.
      apply (exists_in_ext w).
    + repeat split; auto.
Qed.

Lemma inv_restored (w : World) :
  inv w -> inv (restored_stderr (restored_stdout w)).
Proof.
  intros (T1 & T2 & C1 & C2 & E & X1 & X2).
  unfold restored_stderr, restored_stdout. cbv zeta.
  destruct (ref_truthy (_stdout_stream (widget w)) && is_ (sys_stdout w) _);
    cbn [widget sys_stderr set_sys_stdout];
    destruct (ref_truthy (_stderr_stream (widget w)) && is_ (sys_stderr w) _);
    unfold inv; cbn; repeat split; auto;
    try apply (exists_in_ext w).
Qed.

Lemma step_inv (op : Op) (w : World) : inv w -> inv (step op w).
Proof.
  intros H. destruct op; cbn [step].
  - eapply inv_same_capture; [apply same_capture_write | exact H].
  - destruct (streams w !! self) as [ts|]; [|exact H].
    destruct (_original_stream ts); [|exact H].
    eapply inv_same_capture; [apply same_capture_log | exact H].
  - eapply inv_same_capture; [apply same_capture_slot_write | exact H].
  - eapply inv_same_capture; [apply same_capture_slot_write | exact H].
  - eapply inv_same_capture; [apply same_capture_append | exact H].
  - apply inv_capture_stderr_to, inv_capture_stdout_to, H.
  - eapply inv_same_capture; [|exact H].
    repeat split; auto. apply streams_evolve_refl.
  - eapply inv_same_capture; [|exact H].
    repeat split; auto. apply streams_evolve_refl.
  - destruct (_text_edit (widget w)) as [e|] eqn:He; [|exact H].
    destruct (Qt.alive e); [|exact H].
    eapply inv_same_capture; [|exact H].
    repeat split; auto. apply streams_evolve_refl.
  - apply inv_restored, H.
  - apply inv_restored, H.
  - destruct (exists_in w r) eqn:Hr; [|exact H].
    destruct H as (T1 & T2 & C1 & C2 & E & X1 & X2).
    repeat split; auto.
  - destruct (exists_in w r) eqn:Hr; [|exact H].
    destruct H as (T1 & T2 & C1 & C2 & E & X1 & X2).
    repeat split; auto.
  - eapply inv_same_capture; [|exact H].
    repeat split; auto. cbn.
    apply streams_evolve_alter, break_signal_evolves.
  - eapply inv_same_capture; [|exact H].
    repeat split; auto; [|apply streams_evolve_refl].
    cbn. intros [e He]. rewrite He. eexists. reflexivity.
Qed.

Lemma constructed_inv (stdout0 stderr0 : option nat) (e : Env)
    (capture_stdout capture_stderr : bool) (cb : option Callback)
    (max_lines : Z) :
  inv (constructed stdout0 stderr0 e capture_stdout capture_stderr cb
         max_lines).
Proof.
  destruct capture_stdout, capture_stderr; unfold inv; cbn;
    repeat split; try discriminate; try (eexists; reflexivity);
    try (destruct stdout0; reflexivity); try (destruct stderr0; reflexivity);
    intros i Hi; injection Hi as <-; eexists; (split; [reflexivity|]);
    repeat split.
Qed.

Lemma run_ops_inv (ops : list Op) (w : World) : inv w -> inv (run_ops ops w).
Proof.
  revert w. induction ops as [|op ops IH]; intros w H; [exact H|].
  cbn. apply IH. rewrite run_op_step. apply step_inv, H.
Qed.

(** * Restoring the stream slots *)

Lemma restore_guarded (w : World) :
  let w' := step RestoreStreams w in
  (sys_stdout w' <> sys_stdout w ->
   exists i, _stdout_stream (widget w) = Some i
             /\ sys_stdout w = Some (Adapter i)
             /\ sys_stdout w'
                = ConsoleOutputWidget.ext_ref (_original_stdout (widget w)))
  /\ (sys_stderr w' <> sys_stderr w ->
      exists i, _stderr_stream (widget w) = Some i
                /\ sys_stderr w = Some (Adapter i)
                /\ sys_stderr w'
                   = ConsoleOutputWidget.ext_ref (_original_stderr (widget w))).
Proof.
  cbn [step]. unfold restored_stderr, restored_stdout. cbv zeta. split.
  - destruct (_stdout_stream (widget w)) as [i|] eqn:Hs; cbn [ref_truthy andb].
    + destruct (is_ (sys_stdout w) _) eqn:Hg.
      * apply bool_decide_eq_true in Hg. cbn in Hg.
        intros _. exists i. repeat split; auto.
        cbn [widget set_sys_stdout sys_stderr _stderr_stream].
        destruct (_ && _); reflexivity.
      * intros Hne. exfalso. apply Hne.
        destruct (_ && _); reflexivity.
    + intros Hne. exfalso. apply Hne. destruct (_ && _); reflexivity.
  - assert (Hw : widget (if ref_truthy (_stdout_stream (widget w))
                            && is_ (sys_stdout w)
                                 (ConsoleOutputWidget.as_ref
                                    (_stdout_stream (widget w)))
                         then set_sys_stdout
                                (ConsoleOutputWidget.ext_ref
                                   (_original_stdout (widget w))) w
                         else w) = widget w)
      by (destruct (_ && _); reflexivity).
    assert (He : sys_stderr (if ref_truthy (_stdout_stream (widget w))
                            && is_ (sys_stdout w)
                                 (ConsoleOutputWidget.as_ref
                                    (_stdout_stream (widget w)))
                         then set_sys_stdout
                                (ConsoleOutputWidget.ext_ref
                                   (_original_stdout (widget w))) w
                         else w) = sys_stderr w)
      by (destruct (_ && _); reflexivity).
    rewrite Hw, He.
    destruct (_stderr_stream (widget w)) as [i|] eqn:Hs; cbn [ref_truthy andb].
    + destruct (is_ (sys_stderr w) _) eqn:Hg.
      * apply bool_decide_eq_true in Hg. cbn in Hg.
        intros _. exists i. repeat split; auto.
      * intros Hne. exfalso. apply Hne. exact He.
    + intros Hne. exfalso. apply Hne. exact He.
Qed.

Lemma capture_stderr_to_stdout (stderr : bool) (w : World) :
  sys_stdout (capture_stderr_to stderr w) = sys_stdout w
  /\ _stdout_stream (widget (capture_stderr_to stderr w))
     = _stdout_stream (widget w)
  /\ _capture_stdout (widget (capture_stderr_to stderr w))
     = _capture_stdout (widget w)
  /\ _original_stdout (widget (capture_stderr_to stderr w))
     = _original_stdout (widget w)
  /\ _original_stderr (widget (capture_stderr_to stderr w))
     = _original_stderr (widget w).
Proof.
  unfold capture_stderr_to, released_stderr. cbv zeta.
  destruct (stderr && negb _); [repeat split|].
  destruct (negb stderr && _); [|repeat split].
  destruct (is_ _ _); repeat split.
Qed.

Lemma capture_stdout_to_stderr (stdout : bool) (w : World) :
  sys_stderr (capture_stdout_to stdout w) = sys_stderr w
  /\ _stderr_stream (widget (capture_stdout_to stdout w))
     = _stderr_stream (widget w)
  /\ _capture_stderr (widget (capture_stdout_to stdout w))
     = _capture_stderr (widget w)
  /\ _original_stdout (widget (capture_stdout_to stdout w))
     = _original_stdout (widget w)
  /\ _original_stderr (widget (capture_stdout_to stdout w))
     = _original_stderr (widget w).
Proof.
  unfold capture_stdout_to, released_stdout. cbv zeta.
  destruct (stdout && negb _); [repeat split|].
  destruct (negb stdout && _); [|repeat split].
  destruct (is_ _ _); repeat split.
Qed.

Lemma release_stdout_guarded (w : World) :
  _capture_stdout (widget w) = ref_truthy (_stdout_stream (widget w)) ->
  let w' := capture_stdout_to false w in
  sys_stdout w' <> sys_stdout w ->
  exists i, _stdout_stream (widget w) = Some i
            /\ sys_stdout w = Some (Adapter i)
            /\ sys_stdout w'
               = ConsoleOutputWidget.ext_ref (_original_stdout (widget w)).
Proof.
  intros Hc. unfold capture_stdout_to, released_stdout. cbv zeta.
  cbn [andb negb]. rewrite Hc.
  destruct (_stdout_stream (widget w)) as [i|]; cbn [ref_truthy];
    [|intros Hne; exfalso; apply Hne; reflexivity].
  destruct (is_ (sys_stdout w) _) eqn:Hg.
  - apply bool_decide_eq_true in Hg. cbn in Hg.
    intros _. exists i. repeat split; auto.
  - intros Hne. exfalso. apply Hne. reflexivity.
Qed.

Lemma release_stderr_guarded (w : World) :
  _capture_stderr (widget w) = ref_truthy (_stderr_stream (widget w)) ->
  let w' := capture_stderr_to false w in
  sys_stderr w' <> sys_stderr w ->
  exists i, _stderr_stream (widget w) = Some i
            /\ sys_stderr w = Some (Adapter i)
            /\ sys_stderr w'
               = ConsoleOutputWidget.ext_ref (_original_stderr (widget w)).
Proof.
  intros Hc. unfold capture_stderr_to, released_stderr. cbv zeta.
  cbn [andb negb]. rewrite Hc.
  destruct (_stderr_stream (widget w)) as [i|]; cbn [ref_truthy];
    [|intros Hne; exfalso; apply Hne; reflexivity].
  destruct (is_ (sys_stderr w) _) eqn:Hg.
  - apply bool_decide_eq_true in Hg. cbn in Hg.
    intros _. exists i. repeat split; auto.
  - intros Hne. exfalso. apply Hne. reflexivity.
Qed.

(** C5: in every world a constructed widget can reach, whatever the
    widget, its streams or another redirector did before, each stream slot
    holds one object, so at most one adapter owns it; and [restore_streams]
    and the disabling branches of [set_capture] change a slot only when it
    still holds this widget's own adapter, in which case the slot gets the
    original stream back: a slot that another redirector has taken over is
    left as it is. *)
Theorem restore_only_own_adapter (stdout0 stderr0 : option nat) (e : Env)
    (capture_stdout capture_stderr : bool) (cb : option Callback)
    (max_lines : Z) (ops : list Op) (flag : bool) :
  let w := run_ops ops (constructed stdout0 stderr0 e capture_stdout
                          capture_stderr cb max_lines) in
  let owns_stdout (w' : World) :=
    exists i, _stdout_stream (widget w) = Some i
              /\ sys_stdout w = Some (Adapter i)
              /\ sys_stdout w'
                 = ConsoleOutputWidget.ext_ref (_original_stdout (widget w)) in
  let owns_stderr (w' : World) :=
    exists i, _stderr_stream (widget w) = Some i
              /\ sys_stderr w = Some (Adapter i)
              /\ sys_stderr w'
                 = ConsoleOutputWidget.ext_ref (_original_stderr (widget w)) in
  (forall a b, sys_stdout w = Some (Adapter a) ->
               sys_stdout w = Some (Adapter b) -> a = b)
  /\ (forall a b, sys_stderr w = Some (Adapter a) ->
                  sys_stderr w = Some (Adapter b) -> a = b)
  /\ (sys_stdout (run_op RestoreStreams w) <> sys_stdout w ->
      owns_stdout (run_op RestoreStreams w))
  /\ (sys_stderr (run_op RestoreStreams w) <> sys_stderr w ->
      owns_stderr (run_op RestoreStreams w))
  /\ (sys_stdout (run_op (SetCapture false flag) w) <> sys_stdout w ->
      owns_stdout (run_op (SetCapture false flag) w))
  /\ (sys_stderr (run_op (SetCapture flag false) w) <> sys_stderr w ->
      owns_stderr (run_op (SetCapture flag false) w)).
Proof.
  intros w owns_stdout owns_stderr.
  assert (Hinv : inv w) by (apply run_ops_inv, constructed_inv).
  destruct Hinv as (T1 & T2 & C1 & C2 & E & X1 & X2).
  subst owns_stdout owns_stderr. cbv beta.
  repeat rewrite run_op_step.
  destruct (restore_guarded w) as [R1 R2].
  repeat split.
  - congruence.
  - congruence.
  - exact R1.
  - exact R2.
  - cbn [step].
    destruct (capture_stderr_to_stdout flag (capture_stdout_to false w))
      as (-> & _).
    apply (release_stdout_guarded w C1).
  - cbn [step].
    destruct (capture_stdout_to_stderr flag w) as (Hs & Hst & Hc & _ & Ho).
    intros Hne.
    destruct (release_stderr_guarded (capture_stdout_to flag w)) as (i & Hi).
    + rewrite Hc, Hst. exact C2.
    + rewrite Hs. exact Hne.
    + exists i. rewrite <- Hst, <- Hs, <- Ho. exact Hi.
Qed.

Lemma restore_only_own_adapter_witness :
  sys_stdout (run_op RestoreStreams
                (run_ops [RedirectStdout (Some (Ext 7))] example_world))
  = Some (Ext 7)
  /\ sys_stdout (run_op (SetCapture false false)
                   (run_ops [RedirectStdout (Some (Ext 7))] example_world))
     = Some (Ext 7).
Proof.
  destruct (restore_only_own_adapter (Some 0%nat) (Some 1%nat) (quiet_env 5)
              true true None 3 [RedirectStdout (Some (Ext 7))] false)
    as (_ & _ & R & _ & S & _).
  split.
  - destruct (decide (sys_stdout (run_op RestoreStreams
                (run_ops [RedirectStdout (Some (Ext 7))] example_world))
              = Some (Ext 7))) as [Heq|Hne]; [exact Heq|].
    exfalso. destruct (R Hne) as (i & _ & Hi & _). discriminate Hi.
  - destruct (decide (sys_stdout (run_op (SetCapture false false)
                (run_ops [RedirectStdout (Some (Ext 7))] example_world))
              = Some (Ext 7))) as [Heq|Hne]; [exact Heq|].
    exfalso. destruct (S Hne) as (i & _ & Hi & _). discriminate Hi.
Defined.

(** * Switching capture off *)

Lemma owned_same_capture (stdout0 stderr0 : option nat) (w w' : World) :
  same_capture w w' ->
  owned_or_original stdout0 stderr0 w -> owned_or_original stdout0 stderr0 w'.
Proof.
  intros (Hso & Hse & Hoo & Hoe & Hss & Hes & Hco & Hce & _ & _).
  unfold owned_or_original. cbv zeta.
  rewrite Hoo, Hoe, Hss, Hes, Hco, Hce, Hso, Hse. auto.
Qed.

Lemma owned_capture_stdout_to (stdout0 stderr0 : option nat) (stdout : bool)
    (w : World) :
  owned_or_original stdout0 stderr0 w ->
  owned_or_original stdout0 stderr0 (capture_stdout_to stdout w).
Proof.
  intros (Ho & He & J1 & J2).
  destruct (capture_stdout_to_stderr stdout w) as (Hs & Hst & Hc & Hoo & Hoe).
  unfold owned_or_original. cbv zeta. rewrite Hs, Hst, Hc, Hoo, Hoe.
  repeat split; auto.
  unfold capture_stdout_to, released_stdout. cbv zeta.
  destruct (stdout && negb _).
  - right. split; reflexivity.
  - destruct (negb stdout && _) eqn:Hb; [|exact J1].
    left. destruct (is_ (sys_stdout w) _) eqn:Hg.
    + cbn. rewrite Ho. reflexivity.
    + cbn. destruct J1 as [J1 | [_ J1]]; [exact J1|].
      rewrite J1 in Hg. unfold is_ in Hg.
      rewrite bool_decide_eq_false in Hg. congruence.
Qed.

Lemma owned_capture_stderr_to (stdout0 stderr0 : option nat) (stderr : bool)
    (w : World) :
  owned_or_original stdout0 stderr0 w ->
  owned_or_original stdout0 stderr0 (capture_stderr_to stderr w).
Proof.
  intros (Ho & He & J1 & J2).
  destruct (capture_stderr_to_stdout stderr w) as (Hs & Hst & Hc & Hoo & Hoe).
  unfold owned_or_original. cbv zeta. rewrite Hs, Hst, Hc, Hoo, Hoe.
  repeat split; auto.
  unfold capture_stderr_to, released_stderr. cbv zeta.
  destruct (stderr && negb _).
  - right. split; reflexivity.
  - destruct (negb stderr && _) eqn:Hb; [|exact J2].
    left. destruct (is_ (sys_stderr w) _) eqn:Hg.
    + cbn. rewrite He. reflexivity.
    + cbn. destruct J2 as [J2 | [_ J2]]; [exact J2|].
      rewrite J2 in Hg. unfold is_ in Hg.
      rewrite bool_decide_eq_false in Hg. congruence.
Qed.

Lemma owned_restored (stdout0 stderr0 : option nat) (w : World) :
  owned_or_original stdout0 stderr0 w ->
  owned_or_original stdout0 stderr0 (restored_stderr (restored_stdout w)).
Proof.
  intros (Ho & He & J1 & J2).
  unfold restored_stderr, restored_stdout. cbv zeta.
  destruct (ref_truthy (_stdout_stream (widget w)) && is_ (sys_stdout w) _);
    cbn [widget sys_stderr set_sys_stdout];
    destruct (ref_truthy (_stderr_stream (widget w)) && is_ (sys_stderr w) _);
    unfold owned_or_original; cbn; rewrite ?Ho, ?He; repeat split; auto.
Qed.

Lemma owned_step (stdout0 stderr0 : option nat) (op : Op) (w : World) :
  is_redirect op = false ->
  owned_or_original stdout0 stderr0 w ->
  owned_or_original stdout0 stderr0 (step op w).
Proof.
  intros Hr H. destruct op; cbn [step]; try discriminate Hr.
  - eapply owned_same_capture; [apply same_capture_write | exact H].
  - destruct (streams w !! self) as [ts|]; [|exact H].
    destruct (_original_stream ts); [|exact H].
    eapply owned_same_capture; [apply same_capture_log | exact H].
  - eapply owned_same_capture; [apply same_capture_slot_write | exact H].
  - eapply owned_same_capture; [apply same_capture_slot_write | exact H].
  - eapply owned_same_capture; [apply same_capture_append | exact H].
  - apply owned_capture_stderr_to, owned_capture_stdout_to, H.
  - exact H.
  - exact H.
  - destruct (_text_edit (widget w)) as [e|]; [|exact H].
    destruct (Qt.alive e); exact H.
  - apply owned_restored, H.
  - apply owned_restored, H.
  - exact H.
  - exact H.
Qed.

Lemma owned_run_ops (stdout0 stderr0 : option nat) (ops : list Op)
    (w : World) :
  forallb (fun op => negb (is_redirect op)) ops = true ->
  owned_or_original stdout0 stderr0 w ->
  owned_or_original stdout0 stderr0 (run_ops ops w).
Proof.
  revert w. induction ops as [|op ops IH]; intros w Hall H; [exact H|].
  cbn in Hall. apply andb_prop in Hall as [Hop Hall].
  cbn. apply IH; [exact Hall|]. rewrite run_op_step.
  apply owned_step; [|exact H]. destruct (is_redirect op); auto.
Qed.

Lemma owned_constructed (stdout0 stderr0 : option nat) (e : Env)
    (capture_stdout capture_stderr : bool) (cb : option Callback)
    (max_lines : Z) :
  owned_or_original stdout0 stderr0
    (constructed stdout0 stderr0 e capture_stdout capture_stderr cb max_lines).
Proof.
  destruct capture_stdout, capture_stderr; unfold owned_or_original; cbn;
    repeat split; auto.
Qed.

(** C4: a widget constructed with both capture flags on has put its own
    adapters into the two stream slots and recorded the objects the slots
    held before; after any calls on the widget and its streams that leave
    the slots to the widget, [set_capture(False, False)] puts back exactly
    those objects: the slots hold the same references as before the
    construction. *)
Theorem set_capture_off_restores_originals (stdout0 stderr0 : option nat)
    (e : Env) (cb : option Callback) (max_lines : Z) (ops : list Op) :
  forallb (fun op => negb (is_redirect op)) ops = true ->
  let w0 := constructed stdout0 stderr0 e true true cb max_lines in
  let w' := run_op (SetCapture false false) (run_ops ops w0) in
  sys_stdout w0 = Some (Adapter 0)
  /\ sys_stderr w0 = Some (Adapter 1)
  /\ _original_stdout (widget w0) = stdout0
  /\ _original_stderr (widget w0) = stderr0
  /\ sys_stdout w' = ConsoleOutputWidget.ext_ref stdout0
  /\ sys_stderr w' = ConsoleOutputWidget.ext_ref stderr0
  /\ _capture_stdout (widget w') = false
  /\ _capture_stderr (widget w') = false.
Proof.
  intros Hall w0 w'.
  assert (H0 : owned_or_original stdout0 stderr0 w0)
    by apply owned_constructed.
  pose proof (owned_run_ops stdout0 stderr0 ops w0 Hall H0) as H.
  assert (H' : owned_or_original stdout0 stderr0 w').
  { unfold w'. rewrite run_op_step. apply owned_step; [reflexivity | exact H]. }
  assert (Hc : _capture_stdout (widget w') = false
               /\ _capture_stderr (widget w') = false).
  { unfold w'. rewrite run_op_step. cbn [step].
    set (w := run_ops ops w0).
    destruct (capture_stderr_to_stdout false (capture_stdout_to false w))
      as (_ & _ & -> & _).
    split.
    - unfold capture_stdout_to, released_stdout. cbn [andb negb].
      destruct (_capture_stdout (widget w)) eqn:Hcs; [reflexivity | exact Hcs].
    - unfold capture_stderr_to, released_stderr. cbn [andb negb].
      destruct (_capture_stderr (widget (capture_stdout_to false w))) eqn:Hcs;
        [reflexivity | exact Hcs]. }
  destruct Hc as [Hc1 Hc2].
  destruct H' as (_ & _ & J1 & J2).
  repeat split; auto.
  - destruct J1 as [J1 | [J1 _]]; [exact J1 | congruence].
  - destruct J2 as [J2 | [J2 _]]; [exact J2 | congruence].
Qed.

Lemma set_capture_off_restores_originals_witness :
  sys_stdout (run_op (SetCapture false false)
                (run_ops [StdoutWrite ("a" ++ nl); SetCapture false true;
                          SetCapture true true; RestoreStreams]
                   example_world))
  = Some (Ext 0)
  /\ sys_stderr (run_op (SetCapture false false)
                   (run_ops [StdoutWrite ("a" ++ nl); SetCapture false true;
                             SetCapture true true; RestoreStreams]
                      example_world))
     = Some (Ext 1).
Proof.
  destruct (set_capture_off_restores_originals (Some 0%nat) (Some 1%nat)
              (quiet_env 5) None 3
              [StdoutWrite ("a" ++ nl); SetCapture false true;
               SetCapture true true; RestoreStreams] eq_refl)
    as (_ & _ & _ & _ & H1 & H2 & _).
  split; [exact H1 | exact H2].
Defined.

(** * The adapter's buffer *)

Lemma step_evolves (op : Op) (w : World) :
  streams_evolve (streams w) (streams (step op w)).
Proof.
  assert (Hsc : forall w', same_capture w w' ->
                           streams_evolve (streams w) (streams w'))
    by (intros w' H; apply H).
  destruct op; cbn [step].
  - apply Hsc, same_capture_write.
  - destruct (streams w !! self) as [ts|]; [|apply streams_evolve_refl].
    destruct (_original_stream ts); apply streams_evolve_refl.
  - apply Hsc, same_capture_slot_write.
  - apply Hsc, same_capture_slot_write.
  - apply Hsc, same_capture_append.
  - eapply streams_evolve_trans with (l2 := streams (capture_stdout_to stdout w)).
    + unfold capture_stdout_to, released_stdout. cbv zeta.
      destruct (stdout && negb _); [apply streams_evolve_app|].
      destruct (negb stdout && _); [|apply streams_evolve_refl].
      destruct (is_ _ _); apply streams_evolve_refl.
    + generalize (capture_stdout_to stdout w). intros w1.
      unfold capture_stderr_to, released_stderr. cbv zeta.
      destruct (stderr && negb _); [apply streams_evolve_app|].
      destruct (negb stderr && _); [|apply streams_evolve_refl].
      destruct (is_ _ _); apply streams_evolve_refl.
  - apply streams_evolve_refl.
  - apply streams_evolve_refl.
  - destruct (_text_edit (widget w)) as [e|]; [|apply streams_evolve_refl].
    destruct (Qt.alive e); apply streams_evolve_refl.
  - unfold restored_stderr, restored_stdout. cbv zeta.
    destruct (_ && _); cbn [widget sys_stderr set_sys_stdout];
      destruct (_ && _); apply streams_evolve_refl.
  - unfold restored_stderr, restored_stdout. cbv zeta.
    destruct (_ && _); cbn [widget sys_stderr set_sys_stdout];
      destruct (_ && _); apply streams_evolve_refl.
  - destruct (exists_in w r); apply streams_evolve_refl.
  - destruct (exists_in w r); apply streams_evolve_refl.
  - cbn. apply streams_evolve_alter, break_signal_evolves.
  - apply streams_evolve_refl.
Qed.

Lemma run_ops_evolves (ops : list Op) (w : World) :
  streams_evolve (streams w) (streams (run_ops ops w)).
Proof.
  revert w. induction ops as [|op ops IH]; intros w;
    [apply streams_evolve_refl|].
  cbn. eapply streams_evolve_trans; [|apply IH].
  rewrite run_op_step. apply step_evolves.
Qed.

Lemma write_world_streams (self : nat) (text : string) (w : World)
    (ts : TextStreamObj) :
  streams w !! self = Some ts -> text <> "" ->
  streams (write_world self text w) = streams (buffered self text w).
Proof.
  intros Hs Hne. unfold write_world. rewrite (truthy_nonempty _ Hne), Hs.
  destruct (signal_ok ts).
  - destruct (connected ts); [|reflexivity].
    apply (append_world_frame text (_source ts) (buffered self text w)).
  - destruct (_original_stream ts); reflexivity.
Qed.

Lemma string_length_app (a b : string) :
  String.length (a ++ b) = (String.length a + String.length b)%nat.
Proof. induction a as [|c a IH]; [reflexivity|]. cbn. f_equal. exact IH. Qed.

Lemma write_world_buffer (self : nat) (text : string) (w : World)
    (ts : TextStreamObj) :
  streams w !! self = Some ts -> text <> "" ->
  streams (write_world self text w) !! self
  = Some (TextStream.add_to_buffer text ts).
Proof.
  intros Hs Hne. rewrite (write_world_streams self text w ts Hs Hne).
  apply buffered_lookup, Hs.
Qed.

(** C9: every write of a non-empty text to an existing adapter makes its
    buffer exactly the old buffer followed by that text; whatever the
    widget, the adapters and the surroundings do afterwards, an adapter
    stays in place and its buffer only gets longer at the end, so nothing
    removes or clears buffered text; and no cap applies: [n] writes of a
    text add [n] times its length. *)
Theorem buffer_append_only (self : nat) (w : World) (ts : TextStreamObj) :
  streams w !! self = Some ts ->
  (forall text : string,
     text <> "" ->
     buffer_of self (exec (stream_write self text) w) = _buffer ts ++ text)
  /\ (forall ops : list Op,
        exists (ts' : TextStreamObj) (suffix : string),
          streams (run_ops ops w) !! self = Some ts'
          /\ _buffer ts' = _buffer ts ++ suffix)
  /\ (forall (text : string) (n : nat),
        text <> "" ->
        String.length
          (buffer_of self (run_ops (repeat (Write self text) n) w))
        = (String.length (_buffer ts) + n * String.length text)%nat).
Proof.
  intros Hs. repeat split.
  - intros text Hne. rewrite stream_write_exec. unfold buffer_of.
    rewrite (write_world_buffer self text w ts Hs Hne). reflexivity.
  - intros ops. destruct (run_ops_evolves ops w self ts Hs)
      as (ts' & Hl & _ & _ & _ & suffix & Hb).
    exists ts', suffix. split; assumption.
  - intros text n Hne. revert w ts Hs.
    induction n as [|n IH]; intros w ts Hs.
    + cbn. unfold buffer_of. rewrite Hs. lia.
    + cbn [repeat run_ops]. rewrite run_op_step. cbn [step].
      rewrite (IH _ _ (write_world_buffer self text w ts Hs Hne)).
      cbn [_buffer TextStream.add_to_buffer].
      rewrite string_length_app. lia.
Qed.

Lemma buffer_append_only_witness :
  buffer_of 0 (exec (stream_write 0 "xy") example_world) = "xy"
  /\ String.length
       (buffer_of 0 (run_ops (repeat (Write 0 "xy") 4) example_world))
     = 8%nat.
Proof.
  destruct (buffer_append_only 0 example_world
              (new_adapter (Some 0%nat) "stdout") eq_refl) as (H1 & _ & H3).
  split.
  - apply (H1 "xy"). discriminate.
  - apply (H3 "xy" 4%nat). discriminate.
Defined.

(** * The callback *)

Lemma forget_append_world (text source : string) (w : World) :
  forget (append_world text source w)
  = forget (append_world text source (forget w)).
Proof.
  unfold append_world, called_back, fell_back, forget.
  destruct w as [so se l x tr ev]. destruct x. cbn.
  destruct (truthy text); cbn; [|reflexivity].
  destruct _text_callback0, _text_edit0 as [e|], _original_stdout0; cbn;
    try destruct (Qt.alive e); reflexivity.
Qed.

Lemma forget_idem (w : World) : forget (forget w) = forget w.
Proof. reflexivity. Qed.

Lemma forget_buffered (self : nat) (text : string) (w : World) :
  forget (buffered self text w) = buffered self text (forget w).
Proof. reflexivity. Qed.

Lemma forget_log (ev : Event) (w : World) : forget (log ev w) = forget w.
Proof. reflexivity. Qed.

Lemma forget_write_world (self : nat) (text : string) (w : World) :
  forget (write_world self text w) = forget (write_world self text (forget w)).
Proof.
  unfold write_world. cbn [streams forget].
  destruct (truthy text); [|reflexivity].
  destruct (streams w !! self) as [ts|]; [|reflexivity].
  destruct (signal_ok ts).
  - destruct (connected ts); [|reflexivity].
    rewrite forget_append_world, forget_buffered. reflexivity.
  - destruct (_original_stream ts); reflexivity.
Qed.

Lemma forget_slot_write_world (r : ref) (text : string) (w : World) :
  forget (slot_write_world r text w)
  = forget (slot_write_world r text (forget w)).
Proof.
  destruct r as [[n|i]|]; cbn; [reflexivity | | reflexivity].
  apply forget_write_world.
Qed.

Lemma forget_capture_stdout_to (stdout : bool) (w : World) :
  forget (capture_stdout_to stdout w) = capture_stdout_to stdout (forget w).
Proof.
  unfold capture_stdout_to, released_stdout, installed_stdout, forget.
  destruct w as [so se l x tr ev]. destruct x. cbn.
  destruct (stdout && negb _capture_stdout0); [reflexivity|].
  destruct (negb stdout && _capture_stdout0); [|reflexivity].
  destruct (is_ so _); reflexivity.
Qed.

Lemma forget_capture_stderr_to (stderr : bool) (w : World) :
  forget (capture_stderr_to stderr w) = capture_stderr_to stderr (forget w).
Proof.
  unfold capture_stderr_to, released_stderr, installed_stderr, forget.
  destruct w as [so se l x tr ev]. destruct x. cbn.
  destruct (stderr && negb _capture_stderr0); [reflexivity|].
  destruct (negb stderr && _capture_stderr0); [|reflexivity].
  destruct (is_ se _); reflexivity.
Qed.

Lemma forget_restored (w : World) :
  forget (restored_stderr (restored_stdout w))
  = restored_stderr (restored_stdout (forget w)).
Proof.
  unfold restored_stderr, restored_stdout, forget.
  destruct w as [so se l x tr ev]. destruct x. cbn.
  destruct (ref_truthy _stdout_stream0 && is_ so _); cbn;
    destruct (ref_truthy _stderr_stream0 && is_ se _); reflexivity.
Qed.

Lemma forget_step (op : Op) (w : World) :
  forget (step op w) = forget (step op (forget w)).
Proof.
  destruct op; cbn [step].
  - apply forget_write_world.
  - cbn [streams forget]. destruct (streams w !! self) as [ts|]; [|reflexivity].
    destruct (_original_stream ts); reflexivity.
  - apply (forget_slot_write_world (sys_stdout w) text w).
  - apply (forget_slot_write_world (sys_stderr w) text w).
  - apply forget_append_world.
  - rewrite !forget_capture_stderr_to, !forget_capture_stdout_to.
    reflexivity.
  - reflexivity.
  - reflexivity.
  - unfold forget. destruct w as [so se l x tr ev]. destruct x. cbn.
    destruct _text_edit0 as [e|]; [|reflexivity].
    destruct (Qt.alive e); reflexivity.
  - rewrite !forget_restored. reflexivity.
  - rewrite !forget_restored. reflexivity.
  - unfold forget. cbn. destruct (exists_in w r) eqn:Hr.
    + destruct r as [[n|i]|]; cbn in *; rewrite ?Hr; reflexivity.
    + destruct r as [[n|i]|]; cbn in *; try discriminate.
      rewrite Hr. reflexivity.
  - unfold forget. cbn. destruct (exists_in w r) eqn:Hr.
    + destruct r as [[n|i]|]; cbn in *; rewrite ?Hr; reflexivity.
    + destruct r as [[n|i]|]; cbn in *; try discriminate.
      rewrite Hr. reflexivity.
  - reflexivity.
  - reflexivity.
Qed.

Lemma forget_run_ops (ops : list Op) (w : World) :
  forget (run_ops ops w) = forget (run_ops ops (forget w)).
Proof.
  revert w. induction ops as [|op ops IH]; intros w; [reflexivity|].
  cbn. rewrite IH. rewrite run_op_step, forget_step, <- run_op_step.
  rewrite <- IH. reflexivity.
Qed.

Lemma visible_forget (w : World) : visible (forget w) = visible w.
Proof. reflexivity. Qed.

Lemma callback_calls_append (text source : string) (w : World)
    (cb : Callback) :
  text <> "" -> _text_callback (widget w) = Some cb ->
  callback_calls (append_world text source w)
  = (callback_calls w ++ [CallbackCall text source])%list.
Proof.
  intros Hne Hcb. unfold append_world, callback_calls.
  rewrite (truthy_nonempty _ Hne).
  assert (Ht : trace (called_back text source w)
               = (trace w ++ [CallbackCall text source])%list)
    by (unfold called_back; rewrite Hcb; reflexivity).
  assert (Hf : filter (fun ev => is_callback_call ev = true)
                 (trace (fell_back text (called_back text source w)))
               = (filter (fun ev => is_callback_call ev = true) (trace w)
                    ++ [CallbackCall text source])%list).
  { unfold fell_back. destruct (_original_stdout _); cbn [trace log];
      rewrite Ht, ?filter_app; cbn; rewrite ?app_nil_r; reflexivity. }
  destruct (_text_edit (widget w)) as [e|]; [|exact Hf].
  destruct (Qt.alive e); [|exact Hf].
  cbn [trace set_edit set_widget]. rewrite Ht, filter_app. reflexivity.
Qed.

Lemma callback_calls_write (self : nat) (text : string) (w : World)
    (ts : TextStreamObj) (cb : Callback) :
  text <> "" -> _text_callback (widget w) = Some cb ->
  streams w !! self = Some ts ->
  connected ts = true -> signal_ok ts = true ->
  callback_calls (exec (stream_write self text) w)
  = (callback_calls w ++ [CallbackCall text (_source ts)])%list.
Proof.
  intros Hne Hcb Hs Hc Hok. rewrite stream_write_exec. unfold write_world.
  rewrite (truthy_nonempty _ Hne), Hs, Hok, Hc.
  apply (callback_calls_append text (_source ts) (buffered self text w) cb
           Hne Hcb).
Qed.

(** C3: with a callback registered, every non-empty text that reaches the
    append path makes exactly one callback call, carrying that text and the
    source label: ["stdout"] through the widget's stdout adapter,
    ["stderr"] through its stderr adapter, the given label or ["manual"]
    by default through [append_text].  Whether or not the callback raises,
    the call returns normally and the text area ends up as it would with
    no callback at all, for that text and for everything done afterwards. *)
Theorem callback_once_and_swallowed (stdout0 stderr0 : option nat) (e : Env)
    (capture_stdout capture_stderr : bool) (cb0 : option Callback)
    (max_lines : Z) (ops : list Op) (cb : Callback) (text : string) :
  let w := run_ops ops (constructed stdout0 stderr0 e capture_stdout
                          capture_stderr cb0 max_lines) in
  text <> "" ->
  _text_callback (widget w) = Some cb ->
  (forall source : option string,
     callback_calls (exec (ConsoleOutputWidget.append_text text source) w)
     = (callback_calls w
          ++ [CallbackCall text (default "manual" source)])%list)
  /\ (forall (i : nat) (ts : TextStreamObj),
        _stdout_stream (widget w) = Some i ->
        streams w !! i = Some ts -> signal_ok ts = true ->
        callback_calls (exec (stream_write i text) w)
        = (callback_calls w ++ [CallbackCall text "stdout"])%list)
  /\ (forall (i : nat) (ts : TextStreamObj),
        _stderr_stream (widget w) = Some i ->
        streams w !! i = Some ts -> signal_ok ts = true ->
        callback_calls (exec (stream_write i text) w)
        = (callback_calls w ++ [CallbackCall text "stderr"])%list)
  /\ (forall source : option string,
        returns (ConsoleOutputWidget.append_text text source) w = true)
  /\ (forall source : option string,
        _text_edit
          (widget (exec (ConsoleOutputWidget.append_text text source) w))
        = _text_edit
            (widget (exec (ConsoleOutputWidget.append_text text source)
                       (forget w))))
  /\ (forall ops' : list Op,
        visible (run_ops ops' w) = visible (run_ops ops' (forget w))).
Proof.
  intros w Hne Hcb.
  assert (Hinv : inv w) by (apply run_ops_inv, constructed_inv).
  destruct Hinv as (T1 & T2 & _ & _ & [ed Hed] & _).
  repeat split.
  - intros source. unfold ConsoleOutputWidget.append_text.
    rewrite append_exec. eapply callback_calls_append; eassumption.
  - intros i ts Hi Hs Hok.
    destruct (T1 i Hi) as (ts' & Hs' & Hsrc & Hc & _).
    assert (ts' = ts) by congruence. subst ts'.
    rewrite <- Hsrc. eapply callback_calls_write; eassumption.
  - intros i ts Hi Hs Hok.
    destruct (T2 i Hi) as (ts' & Hs' & Hsrc & Hc & _).
    assert (ts' = ts) by congruence. subst ts'.
    rewrite <- Hsrc. eapply callback_calls_write; eassumption.
  - intros source. unfold ConsoleOutputWidget.append_text.
    eapply append_returns. exact Hed.
  - intros source. unfold ConsoleOutputWidget.append_text.
    rewrite !append_exec.
    change (_text_edit (widget (append_world text (default "manual" source) w)))
      with (_text_edit (widget (forget
              (append_world text (default "manual" source) w)))).
    rewrite forget_append_world. reflexivity.
  - intros ops'. rewrite <- visible_forget, forget_run_ops, visible_forget.
    reflexivity.
Qed.

Lemma callback_once_and_swallowed_witness :
  callback_calls (exec (stream_write 1 "x") raising_world)
  = [CallbackCall "x" "stderr"]
  /\ callback_calls
       (exec (ConsoleOutputWidget.append_text "x" None) raising_world)
     = [CallbackCall "x" "manual"]
  /\ visible (run_ops [StdoutWrite "x"; StderrWrite "y"] raising_world)
     = "xy".
Proof.
  assert (Hne : "x" <> "") by discriminate.
  destruct (callback_once_and_swallowed (Some 0%nat) (Some 1%nat)
              (quiet_env 5) true true (Some raising_callback) 3 []
              raising_callback "x" Hne eq_refl)
    as (Hm & _ & He & _ & _ & Hv).
  split; [|split].
  - exact (He 1%nat (new_adapter (Some 1%nat) "stderr") eq_refl eq_refl
             eq_refl).
  - exact (Hm None).
  - etransitivity;
      [exact (Hv [StdoutWrite "x"; StderrWrite "y"]) | reflexivity].
Defined.

(** * Captured text reaches the visible buffer *)

Lemma substring_0_length (s : string) :
  String.substring 0 (String.length s) s = s.
Proof. induction s as [|c s IH]; [reflexivity|]. cbn. f_equal. exact IH. Qed.

Lemma substring_n_0 (n : nat) (s : string) : String.substring n 0 s = "".
Proof.
  revert n. induction s as [|c s IH]; intros [|n]; try reflexivity.
  cbn. apply IH.
Qed.

Lemma count_newlines_app (a b : string) :
  Qt.count_newlines (a ++ b)
  = (Qt.count_newlines a + Qt.count_newlines b)%nat.
Proof.
  induction a as [|c a IH]; [reflexivity|].
  cbn. destruct (Ascii.eqb c newline); rewrite IH; reflexivity.
Qed.

Lemma blockCount_app_le (a b : string) :
  Qt.blockCount a <= Qt.blockCount (a ++ b).
Proof. unfold Qt.blockCount. rewrite count_newlines_app. lia. Qed.

Lemma toPlainText_app (a b : string) :
  Qt.toPlainText (a ++ b) = Qt.toPlainText a ++ Qt.toPlainText b.
Proof. induction a as [|c a IH]; [reflexivity|]. cbn. f_equal. exact IH. Qed.

Lemma moveCursor_end (e : Qt.QPlainTextEdit) :
  Qt.document (Qt.moveCursor Qt.End e) = Qt.document e
  /\ Qt.textCursor (Qt.moveCursor Qt.End e)
     = Qt.mkCursor (String.length (Qt.document e))
                   (String.length (Qt.document e))
  /\ Qt.alive (Qt.moveCursor Qt.End e) = Qt.alive e.
Proof. repeat split. Qed.

Lemma insertText_at_end (doc text : string) :
  fst (Qt.insertText doc
         (Qt.mkCursor (String.length doc) (String.length doc)) text)
  = doc ++ Qt.normalize text.
Proof.
  unfold Qt.insertText, Qt.removeSelectedText, Qt.selectionStart,
    Qt.selectionEnd.
  cbn [Qt.position Qt.anchor fst].
  rewrite Nat.min_id, Nat.max_id, Nat.sub_diag.
  rewrite substring_n_0, string_app_nil_r, substring_0_length.
  rewrite substring_0_length, Nat.sub_diag, substring_n_0, string_app_nil_r.
  reflexivity.
Qed.

(** Moving the edit's cursor to the end and inserting there appends the
    text, split into blocks. *)
Lemma insert_at_end_document (text : string) (e : Qt.QPlainTextEdit) :
  Qt.document (Qt.insertPlainText text (Qt.moveCursor Qt.End e))
  = Qt.document e ++ Qt.normalize text.
Proof.
  destruct (moveCursor_end e) as (Hd & Hc & _).
  unfold Qt.insertPlainText. rewrite Hd, Hc.
  rewrite <- (insertText_at_end (Qt.document e) text).
  destruct (Qt.insertText _ _ _). reflexivity.
Qed.

Lemma scrolled_document (auto : bool) (e : Qt.QPlainTextEdit) :
  Qt.document (scrolled auto e) = Qt.document e.
Proof. destruct auto; reflexivity. Qed.

Lemma appended_document_within_cap (max_lines : Z) (auto : bool)
    (text : string) (e : Qt.QPlainTextEdit) :
  Qt.blockCount (Qt.document e ++ Qt.normalize text) <= max_lines ->
  Qt.document (appended max_lines auto text e)
  = Qt.document e ++ Qt.normalize text.
Proof.
  intros Hcap. unfold appended. rewrite scrolled_document. unfold limited.
  rewrite insert_at_end_document.
  destruct (Z.ltb_spec max_lines
              (Qt.blockCount (Qt.document e ++ Qt.normalize text)));
    [lia|].
  apply insert_at_end_document.
Qed.

Lemma appended_alive (max_lines : Z) (auto : bool) (text : string)
    (e : Qt.QPlainTextEdit) :
  Qt.alive (appended max_lines auto text e) = Qt.alive e.
Proof.
  unfold appended, scrolled, limited.
  destruct auto; destruct (Z.ltb _ _);
    cbn [Qt.alive Qt.setValue Qt.removeSelected];
    rewrite insertPlainText_alive; reflexivity.
Qed.

Lemma delivering_buffered (self : nat) (text : string) (w : World) (j : nat) :
  delivering w j -> delivering (buffered self text w) j.
Proof.
  intros (ts & Hs & Hc & Hok). destruct (decide (self = j)) as [->|Hne].
  - exists (TextStream.add_to_buffer text ts).
    split; [apply buffered_lookup, Hs | split; assumption].
  - exists ts. split; [|split; assumption].
    rewrite buffered_lookup_ne by exact Hne. exact Hs.
Qed.

Lemma write_world_appends (i : nat) (text : string) (w : World)
    (e : Qt.QPlainTextEdit) :
  _text_edit (widget w) = Some e -> Qt.alive e = true ->
  delivering w i ->
  Qt.blockCount (Qt.document e ++ Qt.normalize text)
    <= _max_lines (widget w) ->
  exists e',
    _text_edit (widget (write_world i text w)) = Some e'
    /\ Qt.alive e' = true
    /\ Qt.document e' = Qt.document e ++ Qt.normalize text
    /\ _max_lines (widget (write_world i text w)) = _max_lines (widget w)
    /\ (forall j, delivering w j -> delivering (write_world i text w) j).
Proof.
  intros He Ha (ts & Hs & Hc & Hok) Hcap. unfold write_world.
  destruct (truthy text) eqn:Ht.
  - rewrite Hs, Hok, Hc. unfold append_world. rewrite Ht.
    change (widget (buffered i text w)) with (widget w).
    rewrite He, Ha.
    exists (appended (_max_lines (widget w)) (_auto_scroll (widget w)) text e).
    repeat split.
    + rewrite appended_alive. exact Ha.
    + apply appended_document_within_cap, Hcap.
    + cbn. rewrite called_back_widget. reflexivity.
    + intros j Hj. apply (delivering_buffered i text w j) in Hj.
      destruct Hj as (tj & Hsj & Hcj & Hokj). exists tj.
      split; [|split; assumption].
      cbn [streams set_edit set_widget].
      unfold called_back. destruct (_text_callback _); exact Hsj.
  - destruct text; [|discriminate]. exists e.
    cbn [Qt.normalize]. rewrite string_app_nil_r. repeat split; auto.
Qed.

Lemma writes_append_in_order (ws : list (nat * string)) (w : World)
    (e : Qt.QPlainTextEdit) :
  _text_edit (widget w) = Some e -> Qt.alive e = true ->
  (forall i text, In (i, text) ws -> delivering w i) ->
  Qt.blockCount
    (Qt.document e ++ concat_all (map (fun iw => Qt.normalize (snd iw)) ws))
    <= _max_lines (widget w) ->
  visible (run_ops (map (fun iw => Write (fst iw) (snd iw)) ws) w)
  = visible w ++ concat_all (map (fun iw => shown (snd iw)) ws).
Proof.
  revert w e. induction ws as [|[i text] ws IH]; intros w e He Ha Hd Hcap.
  - cbn. symmetry. apply string_app_nil_r.
  - cbn [map run_ops fst snd concat_all] in *.
    rewrite run_op_step. cbn [step].
    destruct (write_world_appends i text w e He Ha)
      as (e' & He' & Ha' & Hdoc & Hml & Hdel).
    + apply (Hd i text). left. reflexivity.
    + rewrite <- string_app_assoc in Hcap.
      pose proof (blockCount_app_le (Qt.document e ++ Qt.normalize text)
                    (concat_all (map (fun iw => Qt.normalize (snd iw)) ws))).
      lia.
    + rewrite (IH (write_world i text w) e' He' Ha').
      * unfold visible, shown. rewrite He', He, Hdoc, toPlainText_app.
        apply string_app_assoc.
      * intros j t Hj. apply Hdel. apply (Hd j t). right. exact Hj.
      * rewrite Hml, Hdoc, string_app_assoc. exact Hcap.
Qed.

Lemma visible_fell_back (text t s : string) (w : World) :
  visible (fell_back text (called_back t s w)) = visible w.
Proof.
  unfold visible. rewrite fell_back_widget, called_back_widget. reflexivity.
Qed.

(** C2, as amended.  Texts written one after the other to adapters whose
    notification is delivered (signal connected, emission working), while
    the text area is live, are appended to the visible buffer in the order
    of the writes, as long as the block count of the resulting buffer stays
    within [max_lines]: the buffer is then the earlier buffer followed by
    the texts written, each as the text area shows it.  When the emission
    fails, a non-empty text is written to the adapter's original stream, if
    there is one, and the visible buffer is unchanged; when the text area
    is missing or gone, it is written to the original stdout, if there is
    one, after the callback call, and the visible buffer is unchanged. *)
Theorem captured_text_is_appended (ws : list (nat * string)) (w : World) :
  (forall e : Qt.QPlainTextEdit,
     _text_edit (widget w) = Some e -> Qt.alive e = true ->
     (forall i text, In (i, text) ws -> delivering w i) ->
     Qt.blockCount
       (Qt.document e
          ++ concat_all (map (fun iw => Qt.normalize (snd iw)) ws))
       <= _max_lines (widget w) ->
     visible (run_ops (map (fun iw => Write (fst iw) (snd iw)) ws) w)
     = visible w ++ concat_all (map (fun iw => shown (snd iw)) ws))
  /\ (forall (i : nat) (ts : TextStreamObj) (text : string),
        text <> "" -> streams w !! i = Some ts -> signal_ok ts = false ->
        visible (exec (stream_write i text) w) = visible w
        /\ trace (exec (stream_write i text) w)
           = (trace w ++ sent_to (_original_stream ts) text)%list)
  /\ (forall (i : nat) (ts : TextStreamObj) (text : string),
        text <> "" -> streams w !! i = Some ts ->
        connected ts = true -> signal_ok ts = true -> takes_fallback w ->
        visible (exec (stream_write i text) w) = visible w
        /\ trace (exec (stream_write i text) w)
           = (trace w ++ callback_events text (_source ts) w
                ++ sent_to (_original_stdout (widget w)) text)%list).
Proof.
  split; [|split].
  - intros e He Ha Hd Hcap. apply (writes_append_in_order ws w e He Ha Hd Hcap).
  - intros i ts text Hne Hs Hok. rewrite stream_write_exec.
    unfold write_world. rewrite (truthy_nonempty _ Hne), Hs, Hok.
    unfold sent_to. destruct (_original_stream ts); cbn [trace log buffered
      set_streams]; split; try reflexivity.
    symmetry. apply app_nil_r.
  - intros i ts text Hne Hs Hc Hok Hf. rewrite stream_write_exec.
    unfold write_world. rewrite (truthy_nonempty _ Hne), Hs, Hok, Hc.
    rewrite (append_world_fallback text (_source ts) (buffered i text w) Hne)
      by exact Hf.
    split.
    + apply (visible_fell_back text text (_source ts) (buffered i text w)).
    + rewrite fell_back_trace, called_back_trace, fallback_events_called_back.
      symmetry. apply app_assoc.
Qed.

Lemma captured_text_is_appended_witness :
  visible (run_ops [Write 0 "a"; Write 1 "b"; Write 0 nl] example_world)
  = "ab" ++ nl
  /\ trace (exec (stream_write 1 "e") (run_op (SignalBroken 1) example_world))
     = [StreamWrite 1 "e"]
  /\ trace (exec (stream_write 1 "e") (run_op TextAreaGone example_world))
     = [StreamWrite 0 "e"].
Proof.
  assert (Hne : "e" <> "") by discriminate.
  split; [|split].
  - destruct (captured_text_is_appended
                [(0%nat, "a"); (1%nat, "b"); (0%nat, nl)] example_world)
      as (H & _).
    apply (H (Qt.new_edit 5 Qt.cursor_following) eq_refl eq_refl).
    + intros i text [E | [E | [E | []]]]; injection E as <- _;
        eexists; (split; [reflexivity | split; reflexivity]).
    + vm_compute. discriminate.
  - destruct (captured_text_is_appended []
                (run_op (SignalBroken 1) example_world)) as (_ & H & _).
    destruct (H 1%nat (break_signal (new_adapter (Some 1%nat) "stderr")) "e"
                Hne eq_refl eq_refl) as (_ & Ht).
    exact Ht.
  - destruct (captured_text_is_appended []
                (run_op TextAreaGone example_world)) as (_ & _ & H).
    destruct (H 1%nat (new_adapter (Some 1%nat) "stderr") "e" Hne eq_refl
                eq_refl eq_refl) as (_ & Ht).
    + right. eexists. split; reflexivity.
    + exact Ht.
Defined.

(** C2 as stated fails once the cap is reached: six lines written at once
    to the captured stdout of a widget with [max_lines = 3] are not all in
    the visible buffer afterwards. *)
Lemma captured_text_cut_by_cap :
  visible (run_op (StdoutWrite six_lines) example_world)
    <> visible example_world ++ six_lines
  /\ lines (visible (run_op (StdoutWrite six_lines) example_world))
     = ["1"; "2"; "3"; "4"; ""]
  /\ sys_stdout example_world = Some (Adapter 0).
Proof.
  repeat split. vm_compute. discriminate.
Qed.

(** * What the trimming removes *)

Lemma block_of_block_start (doc : string) (b : nat) :
  (b <= Qt.count_newlines doc)%nat ->
  Qt.block_of doc (Qt.block_start doc b) = b.
Proof.
  unfold Qt.block_of. revert b.
  induction doc as [|c r IH]; intros b Hb.
  - cbn in Hb. assert (b = 0%nat) by lia. subst b. reflexivity.
  - destruct b as [|b']; [reflexivity|].
    cbn [Qt.block_start Qt.count_newlines] in *.
    destruct (Ascii.eqb c newline) eqn:Hc.
    + cbn [String.substring Qt.count_newlines]. rewrite Hc.
      f_equal. apply IH. lia.
    + cbn [String.substring Qt.count_newlines]. rewrite Hc.
      apply IH. exact Hb.
Qed.

Lemma block_start_0 (doc : string) : Qt.block_start doc 0 = 0%nat.
Proof. destruct doc; reflexivity. Qed.

Lemma block_start_le_length (doc : string) (b : nat) :
  (Qt.block_start doc b <= String.length doc)%nat.
Proof.
  revert b. induction doc as [|c r IH]; intros [|b]; cbn; try lia.
  destruct (Ascii.eqb c newline).
  - specialize (IH b). lia.
  - specialize (IH (S b)). lia.
Qed.

Section NoWrap.
Variable soft : nat -> bool.
Hypothesis no_soft : forall q, soft q = false.

Lemma starts_after_no_soft (c : ascii) (r : string) (q : nat) :
  Qt.starts_after soft c r q = Ascii.eqb c newline.
Proof. unfold Qt.starts_after. rewrite no_soft. apply orb_false_r. Qed.

Lemma scan_next_first (s : string) (pos p : nat) :
  (p <= pos)%nat -> (0 < Qt.count_newlines s)%nat ->
  Qt.scan_next soft s pos p = Some (pos + Qt.block_start s 1)%nat.
Proof.
  revert pos. induction s as [|c r IH]; intros pos Hp Hn; [cbn in Hn; lia|].
  cbn [Qt.scan_next Qt.block_start Qt.count_newlines] in *.
  rewrite starts_after_no_soft.
  destruct (Nat.ltb_spec p (S pos)); [|lia].
  destruct (Ascii.eqb c newline); cbn [andb].
  - rewrite block_start_0. f_equal. lia.
  - rewrite (IH (S pos)) by lia. f_equal. lia.
Qed.

Lemma scan_next_none (s : string) (pos p : nat) :
  Qt.count_newlines s = 0%nat -> Qt.scan_next soft s pos p = None.
Proof.
  revert pos. induction s as [|c r IH]; intros pos Hn; [reflexivity|].
  cbn [Qt.scan_next Qt.count_newlines] in *. rewrite starts_after_no_soft.
  destruct (Ascii.eqb c newline); [discriminate Hn|].
  rewrite andb_false_r. apply IH, Hn.
Qed.

Lemma scan_next_from_block_start (s : string) (pos b : nat) :
  (b < Qt.count_newlines s)%nat ->
  Qt.scan_next soft s pos (pos + Qt.block_start s b)
  = Some (pos + Qt.block_start s (S b))%nat.
Proof.
  revert pos b. induction s as [|c r IH]; intros pos b Hb;
    [cbn in Hb; lia|].
  destruct b as [|b'].
  - rewrite block_start_0, Nat.add_0_r.
    apply scan_next_first; [lia | exact Hb].
  - cbn [Qt.scan_next Qt.block_start Qt.count_newlines] in *.
    rewrite starts_after_no_soft.
    destruct (Ascii.eqb c newline) eqn:Hc.
    + destruct (Nat.ltb_spec (pos + S (Qt.block_start r b')) (S pos)); [lia|].
      cbn [andb].
      replace (pos + S (Qt.block_start r b'))%nat
        with (S pos + Qt.block_start r b')%nat by lia.
      rewrite (IH (S pos) b') by lia. f_equal. lia.
    + rewrite andb_false_r.
      replace (pos + S (Qt.block_start r (S b')))%nat
        with (S pos + Qt.block_start r (S b'))%nat by lia.
      rewrite (IH (S pos) (S b')) by lia.
      cbn [Qt.block_start]. f_equal. lia.
Qed.

Lemma scan_next_from_last_block (s : string) (pos : nat) :
  Qt.scan_next soft s pos (pos + Qt.block_start s (Qt.count_newlines s))
  = None.
Proof.
  revert pos. induction s as [|c r IH]; intros pos; [reflexivity|].
  cbn [Qt.scan_next Qt.count_newlines]. rewrite starts_after_no_soft.
  destruct (Ascii.eqb c newline) eqn:Hc.
  - cbn [Qt.block_start]. rewrite Hc.
    destruct (Nat.ltb_spec
                (pos + S (Qt.block_start r (Qt.count_newlines r))) (S pos));
      [lia|].
    cbn [andb].
    replace (pos + S (Qt.block_start r (Qt.count_newlines r)))%nat
      with (S pos + Qt.block_start r (Qt.count_newlines r))%nat by lia.
    apply IH.
  - rewrite andb_false_r.
    destruct (Qt.count_newlines r) as [|n] eqn:Hn.
    + apply scan_next_none, Hn.
    + cbn [Qt.block_start]. rewrite Hc.
      replace (pos + S (Qt.block_start r (S n)))%nat
        with (S pos + Qt.block_start r (S n))%nat by lia.
      apply IH.
Qed.

Lemma last_start_at_block_start (s : string) (pos cur b : nat) :
  (b <= Qt.count_newlines s)%nat -> (b = 0%nat -> cur = pos) ->
  Qt.last_start soft s pos cur (pos + Qt.block_start s b)
  = (pos + Qt.block_start s b)%nat.
Proof.
  revert pos cur b. induction s as [|c r IH]; intros pos cur b Hb Hcur.
  - cbn in Hb. assert (b = 0%nat) by lia. subst b. cbn.
    rewrite (Hcur eq_refl). lia.
  - destruct b as [|b'].
    + rewrite block_start_0, Nat.add_0_r. cbn [Qt.last_start].
      destruct (Nat.leb_spec (S pos) pos); [lia|]. apply Hcur. reflexivity.
    + cbn [Qt.last_start Qt.block_start Qt.count_newlines] in *.
      rewrite starts_after_no_soft.
      destruct (Ascii.eqb c newline) eqn:Hc.
      * destruct (Nat.leb_spec (S pos) (pos + S (Qt.block_start r b')));
          [|lia].
        replace (pos + S (Qt.block_start r b'))%nat
          with (S pos + Qt.block_start r b')%nat by lia.
        apply IH; [lia | reflexivity].
      * destruct (Nat.leb_spec (S pos) (pos + S (Qt.block_start r (S b'))));
          [|lia].
        replace (pos + S (Qt.block_start r (S b')))%nat
          with (S pos + Qt.block_start r (S b'))%nat by lia.
        apply IH; [lia | discriminate].
Qed.

End NoWrap.

(** Without wrapping, [Down] from the start of a block goes to the start of
    the next block, and stays where it is on the last one. *)
Lemma move_down_from_block_start (tk : Qt.Toolkit) (doc : string)
    (k b : nat) :
  unwrapped tk doc ->
  (b <= Qt.count_newlines doc)%nat ->
  Qt.move_n tk doc Qt.Down Qt.MoveAnchor k (Qt.block_start doc b)
  = Qt.block_start doc (Nat.min (b + k) (Qt.count_newlines doc)).
Proof.
  intros Hu. revert b. induction k as [|k IH]; intros b Hb.
  - cbn. f_equal. lia.
  - cbn [Qt.move_n Qt.move_once].
    unfold Qt.next_line_start, Qt.line_start.
    destruct (Nat.eq_dec b (Qt.count_newlines doc)) as [->|Hne].
    + pose proof (scan_next_from_last_block (Qt.soft_break tk doc) Hu doc 0)
        as Hs.
      cbn [Nat.add] in Hs. rewrite Hs. f_equal. lia.
    + pose proof (scan_next_from_block_start (Qt.soft_break tk doc) Hu doc 0 b)
        as Hs.
      cbn [Nat.add] in Hs. rewrite Hs by lia.
      pose proof (last_start_at_block_start (Qt.soft_break tk doc) Hu doc 0 0 b
                    Hb (fun _ => eq_refl)) as Hl.
      cbn [Nat.add] in Hl. rewrite Hl.
      rewrite Nat.sub_diag, Nat.min_0_l, Nat.add_0_r.
      rewrite (IH (S b)) by lia. f_equal. lia.
Qed.

(** The cursor the trimming builds: its position is the end of the
    document, its anchor the start of a block. *)
Lemma trim_cursor_shape (tk : Qt.Toolkit) (doc : string) (excess : Z) :
  exists b : nat,
    trim_cursor tk doc excess
    = Qt.mkCursor (String.length doc) (Qt.block_start doc b).
Proof.
  unfold trim_cursor, Qt.movePosition.
  change (Z.to_nat 1) with 1%nat.
  cbn [Qt.position Qt.anchor Qt.move_n Qt.move_once].
  eexists. reflexivity.
Qed.

Lemma trim_cursor_eq (tk : Qt.Toolkit) (doc : string) (excess : Z) :
  unwrapped tk doc ->
  trim_cursor tk doc excess
  = Qt.mkCursor (String.length doc)
      (Qt.block_start doc
         (Nat.min (Z.to_nat excess) (Qt.count_newlines doc))).
Proof.
  intros Hu. unfold trim_cursor, Qt.movePosition.
  change (Z.to_nat 1) with 1%nat. cbn [Qt.position Qt.anchor Qt.move_n
    Qt.move_once].
  rewrite <- (block_start_0 doc) at 1.
  rewrite (move_down_from_block_start tk doc (Z.to_nat excess) 0 Hu) by lia.
  rewrite Nat.add_0_l.
  rewrite block_of_block_start by lia. reflexivity.
Qed.

Lemma substring_split (doc : string) (n : nat) :
  doc = String.substring 0 n doc
        ++ String.substring n (String.length doc - n) doc.
Proof.
  revert n. induction doc as [|c r IH]; intros [|n]; cbn; try reflexivity.
  - f_equal. symmetry. apply substring_0_length.
  - f_equal. apply IH.
Qed.

Lemma remove_to_end (doc : string) (a : nat) :
  (a <= String.length doc)%nat ->
  fst (Qt.removeSelectedText doc (Qt.mkCursor (String.length doc) a))
  = String.substring 0 a doc.
Proof.
  intros Hle. unfold Qt.removeSelectedText, Qt.selectionStart,
    Qt.selectionEnd.
  cbn [Qt.position Qt.anchor fst].
  rewrite (Nat.min_r _ _ Hle), (Nat.max_l _ _ Hle), Nat.sub_diag.
  rewrite substring_n_0. apply string_app_nil_r.
Qed.

(** Where the cap is exceeded and no block is wrapped, the trimming keeps
    the text before the first excess block and removes everything from
    there to the end of the document. *)
Lemma limited_document (max_lines : Z) (e : Qt.QPlainTextEdit) :
  unwrapped (Qt.toolkit e) (Qt.document e) ->
  max_lines < Qt.blockCount (Qt.document e) ->
  Qt.document (limited max_lines e)
  = String.substring 0
      (Qt.block_start (Qt.document e)
         (Nat.min (Z.to_nat (Qt.blockCount (Qt.document e) - max_lines))
                  (Qt.count_newlines (Qt.document e))))
      (Qt.document e).
Proof.
  intros Hu Hcap. unfold limited.
  destruct (Z.ltb_spec max_lines (Qt.blockCount (Qt.document e))); [|lia].
  unfold Qt.removeSelected. cbn [Qt.document].
  rewrite (trim_cursor_eq _ _ _ Hu).
  apply remove_to_end, block_start_le_length.
Qed.

(** With any layout, the text that stays is a prefix of the text before the
    trimming: the lines written last are the ones removed. *)
Lemma limited_keeps_a_prefix (max_lines : Z) (e : Qt.QPlainTextEdit) :
  exists removed : string,
    Qt.document e = Qt.document (limited max_lines e) ++ removed.
Proof.
  unfold limited.
  destruct (Z.ltb_spec max_lines (Qt.blockCount (Qt.document e))) as [H|H].
  - unfold Qt.removeSelected. cbn [Qt.document].
    destruct (trim_cursor_shape (Qt.toolkit e) (Qt.document e)
                (Qt.blockCount (Qt.document e) - max_lines)) as [b ->].
    rewrite remove_to_end by apply block_start_le_length.
    eexists. apply substring_split.
  - exists "". symmetry. apply string_app_nil_r.
Qed.

(** * Further properties of [set_capture] and [restore_streams] *)

Lemma capture_stdout_to_flag (stdout : bool) (w : World) :
  _capture_stdout (widget (capture_stdout_to stdout w)) = stdout.
Proof.
  unfold capture_stdout_to, released_stdout. cbv zeta.
  destruct stdout, (_capture_stdout (widget w)) eqn:Hc; cbn [andb negb];
    try reflexivity; try exact Hc.
Qed.

Lemma capture_stderr_to_flag (stderr : bool) (w : World) :
  _capture_stderr (widget (capture_stderr_to stderr w)) = stderr.
Proof.
  unfold capture_stderr_to, released_stderr. cbv zeta.
  destruct stderr, (_capture_stderr (widget w)) eqn:Hc; cbn [andb negb];
    try reflexivity; try exact Hc.
Qed.

Lemma capture_stdout_to_same (stdout : bool) (w : World) :
  _capture_stdout (widget w) = stdout -> capture_stdout_to stdout w = w.
Proof.
  intros <-. unfold capture_stdout_to.
  destruct (_capture_stdout (widget w)); reflexivity.
Qed.

Lemma capture_stderr_to_same (stderr : bool) (w : World) :
  _capture_stderr (widget w) = stderr -> capture_stderr_to stderr w = w.
Proof.
  intros <-. unfold capture_stderr_to.
  destruct (_capture_stderr (widget w)); reflexivity.
Qed.

(** X1: [set_capture] leaves the two capture flags equal to its arguments,
    and calling it again with the same arguments changes nothing: no second
    adapter is created and no slot is touched. *)
Theorem set_capture_idempotent (stdout stderr : bool) (w : World) :
  let w1 := run_op (SetCapture stdout stderr) w in
  _capture_stdout (widget w1) = stdout
  /\ _capture_stderr (widget w1) = stderr
  /\ run_op (SetCapture stdout stderr) w1 = w1.
Proof.
  cbv zeta. rewrite !run_op_step. cbn [step].
  set (w1 := capture_stdout_to stdout w).
  assert (H1 : _capture_stdout (widget (capture_stderr_to stderr w1)) = stdout).
  { destruct (capture_stderr_to_stdout stderr w1) as (_ & _ & -> & _).
    apply capture_stdout_to_flag. }
  assert (H2 : _capture_stderr (widget (capture_stderr_to stderr w1)) = stderr)
    by apply capture_stderr_to_flag.
  repeat split; [exact H1 | exact H2 |].
  rewrite (capture_stdout_to_same stdout _ H1).
  apply capture_stderr_to_same, H2.
Qed.

(** X2: switching stdout capture on and off again puts the original stream
    recorded at construction into the slot, whatever object the slot held
    before capture was switched on: a stream another redirector had
    installed in between is not put back. *)
Theorem capture_on_off_installs_original (b b' : bool) (w : World) :
  _capture_stdout (widget w) = false ->
  sys_stdout (run_ops [SetCapture true b; SetCapture false b'] w)
  = ConsoleOutputWidget.ext_ref (_original_stdout (widget w)).
Proof.
  intros Hc. cbn [run_ops]. rewrite !run_op_step. cbn [step].
  destruct (capture_stderr_to_stdout b'
              (capture_stdout_to false
                 (capture_stderr_to b (capture_stdout_to true w))))
    as (-> & _).
  destruct (capture_stderr_to_stdout b (capture_stdout_to true w))
    as (Hs & Hst & Hcs & Ho & _).
  unfold capture_stdout_to at 1. cbn [andb negb]. rewrite Hcs.
  assert (Hon : capture_stdout_to true w
                = set_widget (with_capture_stdout true
                                (widget (installed_stdout w)))
                    (installed_stdout w)).
  { unfold capture_stdout_to. rewrite Hc. reflexivity. }
  rewrite Hon in *. cbn [_capture_stdout widget set_widget
    with_capture_stdout].
  unfold released_stdout. cbv zeta. rewrite Hs, Hst, Ho.
  cbn [sys_stdout set_widget installed_stdout widget _stdout_stream
       with_capture_stdout with_stdout_stream _original_stdout].
  unfold is_. rewrite bool_decide_eq_true_2 by reflexivity.
  reflexivity.
Qed.

Lemma capture_on_off_installs_original_witness :
  sys_stdout
    (run_ops [SetCapture true true; SetCapture false true]
       (run_ops [SetCapture false true; RedirectStdout (Some (Ext 7))]
          example_world))
  = Some (Ext 0).
Proof.
  apply (capture_on_off_installs_original true true
           (run_ops [SetCapture false true; RedirectStdout (Some (Ext 7))]
              example_world)).
  reflexivity.
Defined.

Lemma is_ext_adapter (o : option nat) (i : nat) :
  is_ (ConsoleOutputWidget.ext_ref o) (Some (Adapter i)) = false.
Proof.
  unfold is_. apply bool_decide_eq_false_2. destruct o; discriminate.
Qed.

Lemma restored_stdout_idem (w : World) :
  restored_stdout (restored_stdout w) = restored_stdout w.
Proof.
  unfold restored_stdout. cbv zeta.
  destruct (_stdout_stream (widget w)) as [i|] eqn:Hs; cbn [ref_truthy andb];
    [|rewrite Hs; reflexivity].
  destruct (is_ (sys_stdout w) _) eqn:Hg.
  - cbn [widget set_sys_stdout sys_stdout]. rewrite Hs.
    cbn [ref_truthy andb ConsoleOutputWidget.as_ref fmap option_fmap option_map].
    rewrite is_ext_adapter. reflexivity.
  - rewrite Hs. cbn [ref_truthy andb]. rewrite Hg. reflexivity.
Qed.

Lemma restored_stderr_idem (w : World) :
  restored_stderr (restored_stderr w) = restored_stderr w.
Proof.
  unfold restored_stderr. cbv zeta.
  destruct (_stderr_stream (widget w)) as [i|] eqn:Hs; cbn [ref_truthy andb];
    [|rewrite Hs; reflexivity].
  destruct (is_ (sys_stderr w) _) eqn:Hg.
  - cbn [widget set_sys_stderr sys_stderr]. rewrite Hs.
    cbn [ref_truthy andb ConsoleOutputWidget.as_ref fmap option_fmap option_map].
    rewrite is_ext_adapter. reflexivity.
  - rewrite Hs. cbn [ref_truthy andb]. rewrite Hg. reflexivity.
Qed.

Lemma restored_commute (w : World) :
  restored_stdout (restored_stderr w) = restored_stderr (restored_stdout w).
Proof.
  unfold restored_stdout, restored_stderr. cbv zeta.
  destruct (ref_truthy (_stdout_stream (widget w)) && is_ (sys_stdout w) _)
    eqn:H1;
    destruct (ref_truthy (_stderr_stream (widget w)) && is_ (sys_stderr w) _)
      eqn:H2;
    cbn [widget sys_stdout sys_stderr set_sys_stdout set_sys_stderr];
    rewrite ?H1, ?H2; reflexivity.
Qed.

Lemma restored_frame (w : World) :
  widget (restored_stderr (restored_stdout w)) = widget w
  /\ streams (restored_stderr (restored_stdout w)) = streams w
  /\ trace (restored_stderr (restored_stdout w)) = trace w
  /\ env (restored_stderr (restored_stdout w)) = env w.
Proof.
  unfold restored_stderr, restored_stdout. cbv zeta.
  destruct (ref_truthy (_stdout_stream (widget w)) && is_ (sys_stdout w) _);
    cbn [widget sys_stderr set_sys_stdout];
    destruct (ref_truthy (_stderr_stream (widget w)) && is_ (sys_stderr w) _);
    repeat split.
Qed.

(** X3: [restore_streams] changes nothing but the two stream slots: the
    widget keeps its capture flags and its adapters, the adapters and the
    trace are as before; a second call changes nothing more; and since the
    flags stay set, [set_capture(True, True)] after it is a no-op, so
    output is not captured again by that call. *)
Theorem restore_streams_keeps_capture_state (w : World) :
  let w1 := run_op RestoreStreams w in
  widget w1 = widget w
  /\ streams w1 = streams w
  /\ trace w1 = trace w
  /\ run_op RestoreStreams w1 = w1
  /\ (_capture_stdout (widget w) = true ->
      _capture_stderr (widget w) = true ->
      run_op (SetCapture true true) w1 = w1).
Proof.
  cbv zeta. rewrite !run_op_step. cbn [step].
  destruct (restored_frame w) as (Hw & Hs & Ht & _).
  repeat split; auto.
  - rewrite <- (restored_commute (restored_stderr (restored_stdout w))).
    rewrite restored_stderr_idem, restored_commute, restored_stdout_idem.
    reflexivity.
  - intros H1 H2.
    rewrite capture_stdout_to_same by (rewrite Hw; exact H1).
    apply capture_stderr_to_same. rewrite Hw. exact H2.
Qed.

Lemma restore_streams_keeps_capture_state_witness :
  sys_stdout (run_op (SetCapture true true)
                (run_op RestoreStreams example_world))
  = Some (Ext 0).
Proof.
  destruct (restore_streams_keeps_capture_state example_world)
    as (_ & _ & _ & _ & H).
  rewrite (H eq_refl eq_refl). reflexivity.
Defined.

(** * Adapters after capture is switched off *)

Lemma capture_stdout_to_keeps (stdout : bool) (w : World) :
  _text_edit (widget (capture_stdout_to stdout w)) = _text_edit (widget w)
  /\ _max_lines (widget (capture_stdout_to stdout w)) = _max_lines (widget w)
  /\ _text_callback (widget (capture_stdout_to stdout w))
     = _text_callback (widget w)
  /\ trace (capture_stdout_to stdout w) = trace w
  /\ (forall i ts, streams w !! i = Some ts ->
                   streams (capture_stdout_to stdout w) !! i = Some ts).
Proof.
  unfold capture_stdout_to, released_stdout. cbv zeta.
  destruct (stdout && negb _).
  - repeat split. intros i ts H. cbn. apply lookup_app_l_Some, H.
  - destruct (negb stdout && _); [|repeat split; auto].
    destruct (is_ _ _); repeat split; auto.
Qed.

Lemma capture_stderr_to_keeps (stderr : bool) (w : World) :
  _text_edit (widget (capture_stderr_to stderr w)) = _text_edit (widget w)
  /\ _max_lines (widget (capture_stderr_to stderr w)) = _max_lines (widget w)
  /\ _text_callback (widget (capture_stderr_to stderr w))
     = _text_callback (widget w)
  /\ trace (capture_stderr_to stderr w) = trace w
  /\ (forall i ts, streams w !! i = Some ts ->
                   streams (capture_stderr_to stderr w) !! i = Some ts).
Proof.
  unfold capture_stderr_to, released_stderr. cbv zeta.
  destruct (stderr && negb _).
  - repeat split. intros i ts H. cbn. apply lookup_app_l_Some, H.
  - destruct (negb stderr && _); [|repeat split; auto].
    destruct (is_ _ _); repeat split; auto.
Qed.

(** X4: [set_capture] never disconnects an adapter's signal.  A write on an
    adapter that delivered before still reaches the widget after capture
    was switched off (or on): on a live text area and within the line cap
    the text, as the text area shows it, is appended to the visible
    buffer. *)
Theorem released_adapter_still_delivers (stdout stderr : bool) (i : nat)
    (text : string) (w : World) (e : Qt.QPlainTextEdit) :
  _text_edit (widget w) = Some e -> Qt.alive e = true ->
  delivering w i ->
  Qt.blockCount (Qt.document e ++ Qt.normalize text)
    <= _max_lines (widget w) ->
  visible (run_ops [SetCapture stdout stderr; Write i text] w)
  = visible w ++ shown text.
Proof.
  intros He Ha (ts & Hs & Hc & Hok) Hcap.
  cbn [run_ops]. rewrite !run_op_step. cbn [step].
  set (w1 := capture_stdout_to stdout w).
  destruct (capture_stdout_to_keeps stdout w) as (E1 & M1 & _ & _ & S1).
  destruct (capture_stderr_to_keeps stderr w1) as (E2 & M2 & _ & _ & S2).
  fold w1 in E1, M1, S1.
  destruct (write_world_appends i text (capture_stderr_to stderr w1) e)
    as (e' & He' & _ & Hdoc & _).
  - rewrite E2, E1. exact He.
  - exact Ha.
  - exists ts. split; [apply S2, S1, Hs | split; assumption].
  - rewrite M2, M1. exact Hcap.
  - unfold visible, shown. rewrite He', He, Hdoc. apply toPlainText_app.
Qed.

Lemma released_adapter_still_delivers_witness :
  visible (run_ops [SetCapture false false; Write 0 "late"] example_world)
  = "late".
Proof.
  apply (released_adapter_still_delivers false false 0 "late" example_world
           (Qt.new_edit 5 Qt.cursor_following) eq_refl eq_refl).
  - eexists. split; [reflexivity | split; reflexivity].
  - vm_compute. discriminate.
Defined.

(** * Capture is not a tee *)

(** X6: a non-empty text written to an adapter whose notification is
    delivered, while the text area is live, is not written to the original
    stream: all the write adds to the trace is the callback call, if a
    callback is registered. *)
Theorem captured_write_not_forwarded (i : nat) (text : string) (w : World)
    (ts : TextStreamObj) (e : Qt.QPlainTextEdit) :
  text <> "" ->
  streams w !! i = Some ts -> connected ts = true -> signal_ok ts = true ->
  _text_edit (widget w) = Some e -> Qt.alive e = true ->
  trace (exec (stream_write i text) w)
  = (trace w ++ callback_events text (_source ts) w)%list.
Proof.
  intros Hne Hs Hc Hok He Ha.
  rewrite stream_write_exec. unfold write_world.
  rewrite (truthy_nonempty _ Hne), Hs, Hok, Hc.
  unfold append_world. rewrite (truthy_nonempty _ Hne).
  change (widget (buffered i text w)) with (widget w). rewrite He, Ha.
  cbn [trace set_edit set_widget].
  apply (called_back_trace text (_source ts) (buffered i text w)).
Qed.

Lemma captured_write_not_forwarded_witness :
  trace (exec (stream_write 0 "x") raising_world)
  = [CallbackCall "x" "stdout"].
Proof.
  apply (captured_write_not_forwarded 0 "x" raising_world
           (new_adapter (Some 0%nat) "stdout") (Qt.new_edit 5 Qt.cursor_following)).
  - discriminate.
  - reflexivity.
  - reflexivity.
  - reflexivity.
  - reflexivity.
  - reflexivity.
Defined.

(** * Clearing the text area *)

Lemma clear_run_live (w : World) (e : Qt.QPlainTextEdit) :
  _text_edit (widget w) = Some e -> Qt.alive e = true ->
  ConsoleOutputWidget.clear w = (Ok tt, set_edit (Qt.clear e) w).
Proof. intros He Ha. apply edit_call_run; assumption. Qed.

Lemma clear_run_not_live (w : World) :
  takes_fallback w -> ConsoleOutputWidget.clear w = (Raise, w).
Proof.
  intros [Hn | (e & He & Ha)].
  - unfold ConsoleOutputWidget.clear, ConsoleOutputWidget.edit_call.
    unfold bind. rewrite self_run. cbv beta iota. rewrite Hn. reflexivity.
  - apply (edit_call_dead _ w e He Ha).
Qed.

(** X5: on a live text area [clear] returns normally and leaves the
    visible buffer empty, the adapters' buffers and the trace untouched,
    and a text appended next (within the line cap) is then the whole
    buffer, as the text area shows it.  When the text area is missing or
    gone, [clear] raises to its caller, unlike the append path, and changes
    nothing. *)
Theorem clear_empties_or_raises (w : World) :
  (forall e : Qt.QPlainTextEdit,
     _text_edit (widget w) = Some e -> Qt.alive e = true ->
     returns ConsoleOutputWidget.clear w = true
     /\ visible (run_op Clear w) = ""
     /\ streams (run_op Clear w) = streams w
     /\ trace (run_op Clear w) = trace w
     /\ (forall (text : string) (source : option string),
           Qt.blockCount (Qt.normalize text) <= _max_lines (widget w) ->
           visible (run_ops [Clear; AppendText text source] w)
           = shown text))
  /\ (takes_fallback w ->
      returns ConsoleOutputWidget.clear w = false /\ run_op Clear w = w).
Proof.
  split.
  - intros e He Ha.
    assert (Hc : run_op Clear w = set_edit (Qt.clear e) w).
    { unfold run_op, exec. cbn [interp].
      rewrite (clear_run_live w e He Ha). reflexivity. }
    repeat split.
    + unfold returns. rewrite (clear_run_live w e He Ha). reflexivity.
    + rewrite Hc. reflexivity.
    + rewrite Hc. reflexivity.
    + rewrite Hc. reflexivity.
    + intros text source Hcap. cbn [run_ops]. rewrite Hc.
      rewrite run_op_step. cbn [step]. unfold append_world.
      destruct (truthy text) eqn:Ht.
      * cbn [widget set_edit set_widget with_text_edit _text_edit].
        change (Qt.alive (Qt.clear e)) with (Qt.alive e). rewrite Ha.
        unfold visible.
        cbn [widget set_edit set_widget with_text_edit _text_edit].
        rewrite appended_document_within_cap; [reflexivity|].
        cbn [_max_lines with_text_edit]. exact Hcap.
      * destruct text; [reflexivity | discriminate].
  - intros Hf. unfold returns, run_op, exec. cbn [interp].
    rewrite (clear_run_not_live w Hf). split; reflexivity.
Qed.

Lemma clear_empties_or_raises_witness :
  visible (run_ops [Clear; AppendText "fresh" None]
             (run_ops [StdoutWrite "old"] example_world))
  = "fresh"
  /\ returns ConsoleOutputWidget.clear (run_op TextAreaGone example_world)
     = false.
Proof.
  destruct (clear_empties_or_raises (run_ops [StdoutWrite "old"] example_world))
    as [Hl _].
  destruct (clear_empties_or_raises (run_op TextAreaGone example_world))
    as [_ Hd].
  split.
  - destruct (Hl (Qt.mkEdit "old" (Qt.mkCursor 3 3) 0 5 true Qt.cursor_following) eq_refl eq_refl)
      as (_ & _ & _ & _ & H).
    apply (H "fresh" None). vm_compute. discriminate.
  - apply Hd. right. eexists. split; reflexivity.
Defined.

(** * The trimming, in general *)

Lemma appended_is_prefix (max_lines : Z) (auto : bool) (text : string)
    (e : Qt.QPlainTextEdit) :
  exists removed : string,
    Qt.document e ++ Qt.normalize text
    = Qt.document (appended max_lines auto text e) ++ removed.
Proof.
  unfold appended. rewrite scrolled_document.
  destruct (limited_keeps_a_prefix max_lines
              (Qt.insertPlainText text (Qt.moveCursor Qt.End e)))
    as [removed H].
  exists removed. rewrite <- H. symmetry. apply insert_at_end_document.
Qed.

(** X8: whatever the append path does with a text, and however the layout
    wraps the lines, the visible buffer it leaves is a prefix of the earlier
    buffer followed by that text as the text area shows it: text is only
    ever dropped at the end, never at the front, so what the line cap
    removes is the text written last. *)
Theorem append_drops_only_at_end (text source : string) (w : World) :
  exists removed : string,
    visible w ++ shown text
    = visible (exec (ConsoleOutputWidget._append_text_internal text source) w)
      ++ removed.
Proof.
  rewrite append_exec. unfold append_world.
  destruct (truthy text) eqn:Ht.
  - unfold visible at 1 2.
    destruct (_text_edit (widget w)) as [e|] eqn:He.
    + destruct (Qt.alive e).
      * cbn [widget set_edit set_widget with_text_edit _text_edit].
        destruct (appended_is_prefix (_max_lines (widget w))
                    (_auto_scroll (widget w)) text e) as [removed H].
        exists (Qt.toPlainText removed). unfold shown.
        rewrite <- !toPlainText_app. f_equal. exact H.
      * rewrite fell_back_widget, called_back_widget, He.
        exists (shown text). reflexivity.
    + rewrite fell_back_widget, called_back_widget, He.
      exists (shown text). reflexivity.
  - destruct text; [|discriminate]. exists "". reflexivity.
Qed.

Lemma count_newlines_toPlainText (doc : string) :
  Qt.count_newlines (Qt.toPlainText doc) = Qt.count_newlines doc.
Proof.
  induction doc as [|c r IH]; [reflexivity|].
  cbn [Qt.toPlainText Qt.count_newlines]. rewrite IH.
  destruct (Ascii.eqb c Qt.nbsp) eqn:Hc; [|reflexivity].
  apply Ascii.eqb_eq in Hc. subst c. reflexivity.
Qed.

Lemma insertPlainText_toolkit (text : string) (e : Qt.QPlainTextEdit) :
  Qt.toolkit (Qt.insertPlainText text e) = Qt.toolkit e.
Proof.
  unfold Qt.insertPlainText. destruct (Qt.insertText _ _ _). reflexivity.
Qed.

Lemma limited_blockCount (max_lines : Z) (e : Qt.QPlainTextEdit) :
  unwrapped (Qt.toolkit e) (Qt.document e) ->
  1 <= max_lines -> max_lines < Qt.blockCount (Qt.document e) ->
  Qt.blockCount (Qt.document (limited max_lines e))
  = Qt.blockCount (Qt.document e) - max_lines + 1.
Proof.
  intros Hu H1 Hcap. rewrite (limited_document max_lines e Hu Hcap).
  unfold Qt.blockCount in *.
  set (cn := Qt.count_newlines (Qt.document e)) in *.
  assert (Hk : Nat.min (Z.to_nat (Z.of_nat (S cn) - max_lines)) cn
               = Z.to_nat (Z.of_nat (S cn) - max_lines)) by lia.
  rewrite Hk.
  pose proof (block_of_block_start (Qt.document e)
                (Z.to_nat (Z.of_nat (S cn) - max_lines))) as Hb.
  unfold Qt.block_of in Hb. rewrite Hb by (fold cn; lia). lia.
Qed.

(** X9: when a non-empty text appended to a live text area takes the block
    count [n] of the buffer above [max_lines] (at least 1), and the layout
    wraps no block of that buffer, the buffer left by the trimming has
    [n - max_lines + 1] blocks: the excess blocks and an empty last one, so
    the cap holds afterwards only if [n <= 2 * max_lines - 1]. *)
Theorem overshoot_leaves_excess_blocks (text source : string) (w : World)
    (e : Qt.QPlainTextEdit) :
  text <> "" ->
  _text_edit (widget w) = Some e -> Qt.alive e = true ->
  unwrapped (Qt.toolkit e) (Qt.document e ++ Qt.normalize text) ->
  1 <= _max_lines (widget w) ->
  _max_lines (widget w)
    < Qt.blockCount (Qt.document e ++ Qt.normalize text) ->
  Qt.blockCount
    (visible (exec (ConsoleOutputWidget._append_text_internal text source) w))
  = Qt.blockCount (Qt.document e ++ Qt.normalize text)
    - _max_lines (widget w) + 1.
Proof.
  intros Hne He Ha Hu H1 Hcap.
  rewrite append_exec. unfold append_world.
  rewrite (truthy_nonempty _ Hne), He, Ha. unfold visible.
  cbn [widget set_edit set_widget with_text_edit _text_edit].
  unfold Qt.blockCount at 1. rewrite count_newlines_toPlainText.
  fold (Qt.blockCount
          (Qt.document (appended (_max_lines (widget w))
                          (_auto_scroll (widget w)) text e))).
  unfold appended. rewrite scrolled_document.
  rewrite <- (insert_at_end_document text e) in *.
  apply limited_blockCount; assumption.
Qed.

Lemma overshoot_leaves_excess_blocks_witness :
  Qt.blockCount
    (visible (exec (ConsoleOutputWidget._append_text_internal six_lines
                      "manual") example_world))
  = 5.
Proof.
  apply (overshoot_leaves_excess_blocks six_lines "manual" example_world
           (Qt.new_edit 5 Qt.cursor_following)).
  - discriminate.
  - reflexivity.
  - reflexivity.
  - intros p. reflexivity.
  - vm_compute. discriminate.
  - vm_compute. reflexivity.
Defined.

(** * What holds in every reachable state *)

Lemma same_constants_refl (w : World) : same_constants w w.
Proof. repeat split. Qed.

Lemma same_constants_trans (w1 w2 w3 : World) :
  same_constants w1 w2 -> same_constants w2 w3 -> same_constants w1 w3.
Proof.
  intros (A1 & A2 & A3) (B1 & B2 & B3). repeat split; congruence.
Qed.

Lemma same_constants_append (text source : string) (w : World) :
  same_constants w (append_world text source w).
Proof.
  destruct (append_world_frame text source w) as (_ & _ & _ & _ & H & _).
  repeat split; rewrite H; reflexivity.
Qed.

Lemma same_constants_write (self : nat) (text : string) (w : World) :
  same_constants w (write_world self text w).
Proof.
  unfold write_world. destruct (truthy text); [|apply same_constants_refl].
  destruct (streams w !! self) as [ts|]; [|apply same_constants_refl].
  destruct (signal_ok ts).
  - destruct (connected ts); [|repeat split].
    eapply same_constants_trans with (w2 := buffered self text w);
      [repeat split | apply same_constants_append].
  - destruct (_original_stream ts); repeat split.
Qed.

Lemma same_constants_slot_write (r : ref) (text : string) (w : World) :
  same_constants w (slot_write_world r text w).
Proof.
  destruct r as [[n|i]|]; cbn;
    [repeat split | apply same_constants_write | repeat split].
Qed.

Lemma same_constants_capture_stdout (stdout : bool) (w : World) :
  same_constants w (capture_stdout_to stdout w).
Proof.
  destruct (capture_stdout_to_stderr stdout w) as (_ & _ & _ & H1 & H2).
  destruct (capture_stdout_to_keeps stdout w) as (_ & H3 & _).
  repeat split; assumption.
Qed.

Lemma same_constants_capture_stderr (stderr : bool) (w : World) :
  same_constants w (capture_stderr_to stderr w).
Proof.
  destruct (capture_stderr_to_stdout stderr w) as (_ & _ & _ & H1 & H2).
  destruct (capture_stderr_to_keeps stderr w) as (_ & H3 & _).
  repeat split; assumption.
Qed.

Lemma same_constants_step (op : Op) (w : World) :
  same_constants w (step op w).
Proof.
  destruct op; cbn [step]; try (repeat split; fail).
  - apply same_constants_write.
  - destruct (streams w !! self) as [ts|]; [|repeat split].
    destruct (_original_stream ts); repeat split.
  - apply same_constants_slot_write.
  - apply same_constants_slot_write.
  - apply same_constants_append.
  - eapply same_constants_trans;
      [apply same_constants_capture_stdout
      | apply same_constants_capture_stderr].
  - destruct (_text_edit (widget w)) as [e|]; [|repeat split].
    destruct (Qt.alive e); repeat split.
  - destruct (restored_frame w) as (H & _). repeat split; rewrite H; reflexivity.
  - destruct (restored_frame w) as (H & _). repeat split; rewrite H; reflexivity.
  - destruct (exists_in w r); repeat split.
  - destruct (exists_in w r); repeat split.
Qed.

Lemma same_constants_run_ops (ops : list Op) (w : World) :
  same_constants w (run_ops ops w).
Proof.
  revert w. induction ops as [|op ops IH]; intros w;
    [apply same_constants_refl|].
  cbn. eapply same_constants_trans; [|apply IH].
  rewrite run_op_step. apply same_constants_step.
Qed.

(** X10: in every state a constructed widget can reach, whatever the
    widget, its adapters, another redirector or the toolkit did: the
    original streams and the line cap are those given at construction; a
    capture flag is set exactly when the widget holds an adapter for that
    stream; that adapter exists, carries the label of its stream, is
    connected and wraps the original stream of its kind; the stdout and
    stderr adapters are two different objects; the text area exists. *)
Theorem reachable_state_invariant (stdout0 stderr0 : option nat) (e : Env)
    (capture_stdout capture_stderr : bool) (cb : option Callback)
    (max_lines : Z) (ops : list Op) :
  let w := run_ops ops (constructed stdout0 stderr0 e capture_stdout
                          capture_stderr cb max_lines) in
  let x := widget w in
  _original_stdout x = stdout0
  /\ _original_stderr x = stderr0
  /\ _max_lines x = max_lines
  /\ _capture_stdout x = ref_truthy (_stdout_stream x)
  /\ _capture_stderr x = ref_truthy (_stderr_stream x)
  /\ (forall i, _stdout_stream x = Some i ->
        exists ts, streams w !! i = Some ts /\ _source ts = "stdout"
                   /\ connected ts = true /\ _original_stream ts = stdout0)
  /\ (forall i, _stderr_stream x = Some i ->
        exists ts, streams w !! i = Some ts /\ _source ts = "stderr"
                   /\ connected ts = true /\ _original_stream ts = stderr0)
  /\ (forall i j, _stdout_stream x = Some i -> _stderr_stream x = Some j ->
                  i <> j)
  /\ is_Some (_text_edit x).
Proof.
  intros w x.
  assert (Hinv : inv w) by (apply run_ops_inv, constructed_inv).
  destruct Hinv as (T1 & T2 & C1 & C2 & E & _ & _).
  destruct (same_constants_run_ops ops
              (constructed stdout0 stderr0 e capture_stdout capture_stderr cb
                 max_lines)) as (O1 & O2 & M).
  fold w in O1, O2, M. fold x in O1, O2, M, T1, T2, C1, C2, E.
  assert (I1 : _original_stdout x = stdout0).
  { rewrite O1. destruct capture_stdout, capture_stderr; reflexivity. }
  assert (I2 : _original_stderr x = stderr0).
  { rewrite O2. destruct capture_stdout, capture_stderr; reflexivity. }
  assert (I3 : _max_lines x = max_lines).
  { rewrite M. destruct capture_stdout, capture_stderr; reflexivity. }
  split; [exact I1|]. split; [exact I2|]. split; [exact I3|].
  split; [exact C1|]. split; [exact C2|].
  split; [|split; [|split; [|exact E]]].
  - intros i Hi. rewrite <- I1. apply T1, Hi.
  - intros i Hi. rewrite <- I2. apply T2, Hi.
  - intros i j Hi Hj Heq. subst j.
    destruct (T1 i Hi) as (ts & Hs & Hl & _).
    destruct (T2 i Hj) as (ts' & Hs' & Hl' & _).
    rewrite Hs in Hs'. injection Hs' as <-. rewrite Hl in Hl'.
    discriminate Hl'.
Qed.

Lemma reachable_state_invariant_witness :
  exists ts,
    streams (run_ops [SetCapture false true; SetCapture true true]
               example_world) !! 2%nat = Some ts
    /\ _source ts = "stdout" /\ connected ts = true
    /\ _original_stream ts = Some 0%nat.
Proof.
  destruct (reachable_state_invariant (Some 0%nat) (Some 1%nat) (quiet_env 5)
              true true None 3 [SetCapture false true; SetCapture true true])
    as (_ & _ & _ & _ & _ & H & _).
  exact (H 2%nat eq_refl).
Defined.

(** * Closing the widget *)

Lemma restored_stderr_stdout (w : World) :
  sys_stdout (restored_stderr w) = sys_stdout w.
Proof.
  unfold restored_stderr. cbv zeta. destruct (_ && _); reflexivity.
Qed.

Lemma restored_stdout_stderr (w : World) :
  sys_stderr (restored_stdout w) = sys_stderr w
  /\ widget (restored_stdout w) = widget w.
Proof.
  unfold restored_stdout. cbv zeta. destruct (_ && _); split; reflexivity.
Qed.

(** X11: as long as no other redirector has assigned the stream slots,
    closing the widget (and likewise [restore_streams]) leaves both slots
    holding the very objects they held before the widget was constructed,
    whatever capture flags it was constructed with and whatever was done
    with the widget and its adapters in between. *)
Theorem close_restores_originals (stdout0 stderr0 : option nat) (e : Env)
    (capture_stdout capture_stderr : bool) (cb : option Callback)
    (max_lines : Z) (ops : list Op) :
  forallb (fun op => negb (is_redirect op)) ops = true ->
  let w := run_ops ops (constructed stdout0 stderr0 e capture_stdout
                          capture_stderr cb max_lines) in
  sys_stdout (run_op CloseEvent w) = ConsoleOutputWidget.ext_ref stdout0
  /\ sys_stderr (run_op CloseEvent w) = ConsoleOutputWidget.ext_ref stderr0
  /\ run_op RestoreStreams w = run_op CloseEvent w.
Proof.
  intros Hall w.
  assert (Hinv : inv w) by (apply run_ops_inv, constructed_inv).
  destruct Hinv as (_ & _ & C1 & C2 & _).
  destruct (owned_run_ops stdout0 stderr0 ops _ Hall
              (owned_constructed stdout0 stderr0 e capture_stdout
                 capture_stderr cb max_lines)) as (O1 & O2 & J1 & J2).
  fold w in O1, O2, J1, J2.
  rewrite !run_op_step. cbn [step].
  split; [|split; [|reflexivity]].
  - rewrite restored_stderr_stdout. unfold restored_stdout. cbv zeta.
    rewrite O1.
    destruct (ref_truthy (_stdout_stream (widget w)) && is_ (sys_stdout w) _)
      eqn:Hg; [reflexivity|].
    destruct J1 as [J1 | [Hc J1]]; [exact J1|].
    rewrite Hc in C1. rewrite <- C1 in Hg. rewrite J1 in Hg.
    unfold is_ in Hg. rewrite bool_decide_eq_true_2 in Hg by reflexivity.
    discriminate Hg.
  - destruct (restored_stdout_stderr w) as (Hs & Hw).
    unfold restored_stderr. cbv zeta. rewrite Hw, Hs, O2.
    destruct (ref_truthy (_stderr_stream (widget w)) && is_ (sys_stderr w) _)
      eqn:Hg; [reflexivity|]. rewrite Hs.
    destruct J2 as [J2 | [Hc J2]]; [exact J2|].
    rewrite Hc in C2. rewrite <- C2 in Hg. rewrite J2 in Hg.
    unfold is_ in Hg. rewrite bool_decide_eq_true_2 in Hg by reflexivity.
    discriminate Hg.
Qed.

Lemma close_restores_originals_witness :
  sys_stdout (run_op CloseEvent
                (run_ops [StdoutWrite "a"; SetCapture false true;
                          SetCapture true false]
                   (constructed (Some 0%nat) None (quiet_env 5) true false
                      None 3)))
  = Some (Ext 0)
  /\ sys_stderr (run_op CloseEvent
                   (run_ops [StdoutWrite "a"; SetCapture false true;
                             SetCapture true false]
                      (constructed (Some 0%nat) None (quiet_env 5) true false
                         None 3)))
     = None.
Proof.
  destruct (close_restores_originals (Some 0%nat) None (quiet_env 5) true
              false None 3
              [StdoutWrite "a"; SetCapture false true; SetCapture true false]
              eq_refl) as (H1 & H2 & _).
  split; [exact H1 | exact H2].
Defined.

(** * Calls that never raise *)

Lemma returns_bind_ret {A} (m : M A) (w : World) (a : A) :
  fst (m w) = Ok a -> returns (m ;; ret tt) w = true.
Proof.
  unfold returns, bind, ret. destruct (m w) as [[a'|] w']; cbn;
    [reflexivity | discriminate].
Qed.

Lemma stream_write_op_returns (self : nat) (text : string) (w : World) :
  (self < length (streams w))%nat ->
  returns (stream_write self text ;; ret tt) w = true.
Proof.
  intros Hlt. destruct (lookup_lt_is_Some_2 (streams w) self Hlt) as [ts Hs].
  eapply returns_bind_ret. apply (stream_write_returns self text w ts Hs).
Qed.

Lemma write_to_adapter_returns (i : nat) (text : string) (w : World) :
  exists_in w (Some (Adapter i)) = true ->
  returns (write_to (Some (Adapter i)) text) w = true.
Proof.
  intros H. cbn in H. apply bool_decide_eq_true in H.
  cbn [write_to]. apply stream_write_op_returns, H.
Qed.

(** X12: in every state a constructed widget can reach, a write on one of
    its adapters, a write through a stream slot that holds an adapter, and
    the widget's [append_text], [set_capture], [set_text_callback],
    auto-scroll toggle, [restore_streams] and [closeEvent] all return
    normally: with a raising callback, raising original streams, a broken
    signal or a text area that is gone, none of them raises to its
    caller. *)
Theorem guarded_calls_never_raise (stdout0 stderr0 : option nat) (e : Env)
    (capture_stdout capture_stderr : bool) (cb : option Callback)
    (max_lines : Z) (ops : list Op) (op : Op) :
  let w := run_ops ops (constructed stdout0 stderr0 e capture_stdout
                          capture_stderr cb max_lines) in
  guarded_call w op = true -> returns (interp op) w = true.
Proof.
  intros w Hop.
  assert (Hinv : inv w) by (apply run_ops_inv, constructed_inv).
  destruct Hinv as (_ & _ & _ & _ & [ed Hed] & X1 & X2).
  destruct op; cbn [guarded_call] in Hop; try discriminate Hop;
    cbn [interp].
  - apply bool_decide_eq_true in Hop. apply stream_write_op_returns, Hop.
  - unfold sys_stdout_write, returns, bind, get. cbv beta iota.
    destruct (sys_stdout w) as [[n|i]|] eqn:Hs; try discriminate Hop.
    apply (write_to_adapter_returns i text w X1).
  - unfold sys_stderr_write, returns, bind, get. cbv beta iota.
    destruct (sys_stderr w) as [[n|i]|] eqn:Hs; try discriminate Hop.
    apply (write_to_adapter_returns i text w X2).
  - unfold ConsoleOutputWidget.append_text. eapply append_returns, Hed.
  - unfold returns. rewrite set_capture_run. reflexivity.
  - reflexivity.
  - reflexivity.
  - unfold returns. rewrite restore_streams_run. reflexivity.
  - unfold returns, ConsoleOutputWidget.closeEvent.
    rewrite restore_streams_run. reflexivity.
Qed.

Lemma guarded_calls_never_raise_witness :
  returns (interp (StderrWrite "boom"))
    (run_ops [SignalBroken 1; TextAreaGone]
       (constructed (Some 0%nat) (Some 1%nat) (mkEnv (fun _ => true) 5 Qt.cursor_following)
          true true (Some raising_callback) 3))
  = true.
Proof.
  apply (guarded_calls_never_raise (Some 0%nat) (Some 1%nat)
           (mkEnv (fun _ => true) 5 Qt.cursor_following) true true (Some raising_callback) 3
           [SignalBroken 1; TextAreaGone] (StderrWrite "boom")).
  reflexivity.
Defined.

(** * Removing the callback *)

Lemma callback_calls_log_other (ev : Event) (w : World) :
  is_callback_call ev = false ->
  callback_calls (log ev w) = callback_calls w.
Proof.
  intros H. unfold callback_calls. cbn [trace log].
  rewrite filter_app. cbn. rewrite decide_False by (rewrite H; discriminate).
  apply app_nil_r.
Qed.

Lemma quiet_append (text source : string) (w : World) :
  _text_callback (widget w) = None ->
  _text_callback (widget (append_world text source w)) = None
  /\ callback_calls (append_world text source w) = callback_calls w.
Proof.
  intros Hn.
  destruct (append_world_frame text source w) as (_ & _ & _ & _ & Hw & _).
  split; [rewrite Hw; exact Hn|].
  unfold append_world, called_back. rewrite Hn.
  destruct (truthy text); [|reflexivity].
  assert (Hf : callback_calls (fell_back text w) = callback_calls w).
  { unfold fell_back. destruct (_original_stdout (widget w)); [|reflexivity].
    apply callback_calls_log_other. reflexivity. }
  destruct (_text_edit (widget w)) as [e|]; [|exact Hf].
  destruct (Qt.alive e); [reflexivity | exact Hf].
Qed.

Lemma quiet_write (self : nat) (text : string) (w : World) :
  _text_callback (widget w) = None ->
  _text_callback (widget (write_world self text w)) = None
  /\ callback_calls (write_world self text w) = callback_calls w.
Proof.
  intros Hn. unfold write_world.
  destruct (truthy text); [|split; [exact Hn | reflexivity]].
  destruct (streams w !! self) as [ts|]; [|split; [exact Hn | reflexivity]].
  destruct (signal_ok ts).
  - destruct (connected ts); [|split; [exact Hn | reflexivity]].
    apply (quiet_append text (_source ts) (buffered self text w) Hn).
  - destruct (_original_stream ts) as [o|]; split; try exact Hn;
      [|reflexivity].
    exact (callback_calls_log_other (StreamWrite o text)
             (buffered self text w) eq_refl).
Qed.

Lemma quiet_slot_write (r : ref) (text : string) (w : World) :
  _text_callback (widget w) = None ->
  _text_callback (widget (slot_write_world r text w)) = None
  /\ callback_calls (slot_write_world r text w) = callback_calls w.
Proof.
  intros Hn. destruct r as [[n|i]|]; cbn [slot_write_world].
  - split; [exact Hn | apply callback_calls_log_other; reflexivity].
  - apply quiet_write, Hn.
  - split; [exact Hn | reflexivity].
Qed.

Lemma quiet_step (op : Op) (w : World) :
  registers_callback op = false ->
  _text_callback (widget w) = None ->
  _text_callback (widget (step op w)) = None
  /\ callback_calls (step op w) = callback_calls w.
Proof.
  intros Hop Hn. destruct op; cbn [step].
  - apply quiet_write, Hn.
  - destruct (streams w !! self) as [ts|]; [|split; [exact Hn | reflexivity]].
    destruct (_original_stream ts); split; try exact Hn;
      [apply callback_calls_log_other; reflexivity | reflexivity].
  - apply quiet_slot_write, Hn.
  - apply quiet_slot_write, Hn.
  - apply quiet_append, Hn.
  - destruct (capture_stdout_to_keeps stdout w) as (_ & _ & K1 & T1 & _).
    destruct (capture_stderr_to_keeps stderr (capture_stdout_to stdout w))
      as (_ & _ & K2 & T2 & _).
    split; [rewrite K2, K1; exact Hn|].
    unfold callback_calls. rewrite T2, T1. reflexivity.
  - destruct callback; [discriminate Hop|]. split; reflexivity.
  - split; [exact Hn | reflexivity].
  - destruct (_text_edit (widget w)) as [e|]; [|split; [exact Hn | reflexivity]].
    destruct (Qt.alive e); split; try exact Hn; reflexivity.
  - destruct (restored_frame w) as (Hw & _ & Ht & _).
    split; [rewrite Hw; exact Hn|]. unfold callback_calls. rewrite Ht.
    reflexivity.
  - destruct (restored_frame w) as (Hw & _ & Ht & _).
    split; [rewrite Hw; exact Hn|]. unfold callback_calls. rewrite Ht.
    reflexivity.
  - destruct (exists_in w r); split; try exact Hn; reflexivity.
  - destruct (exists_in w r); split; try exact Hn; reflexivity.
  - split; [exact Hn | reflexivity].
  - split; [exact Hn | reflexivity].
Qed.

Lemma quiet_run_ops (ops : list Op) (w : World) :
  forallb (fun op => negb (registers_callback op)) ops = true ->
  _text_callback (widget w) = None ->
  callback_calls (run_ops ops w) = callback_calls w.
Proof.
  revert w. induction ops as [|op ops IH]; intros w Hall Hn; [reflexivity|].
  cbn in Hall. apply andb_prop in Hall as [Hop Hall].
  cbn [run_ops]. rewrite run_op_step.
  destruct (quiet_step op w) as [Hn' Hc'];
    [destruct (registers_callback op); auto; discriminate | exact Hn |].
  rewrite (IH (step op w) Hall Hn'). exact Hc'.
Qed.

(** X7: once the callback has been removed with [set_text_callback(None)],
    nothing done with the widget or its adapters calls a callback any more,
    until one is registered again: writes, appends, capture changes and
    restores add no callback call to the trace. *)
Theorem removed_callback_is_not_called (ops : list Op) (w : World) :
  forallb (fun op => negb (registers_callback op)) ops = true ->
  callback_calls (run_ops (SetTextCallback None :: ops) w)
  = callback_calls w.
Proof.
  intros Hall. cbn [run_ops]. rewrite run_op_step. cbn [step].
  rewrite (quiet_run_ops ops _ Hall); reflexivity.
Qed.

Lemma removed_callback_is_not_called_witness :
  callback_calls
    (run_ops [SetTextCallback None; StdoutWrite "a"; AppendText "b" None;
              StderrWrite "c"]
       (run_ops [StdoutWrite "z"] raising_world))
  = [CallbackCall "z" "stdout"].
Proof.
  apply (removed_callback_is_not_called
           [StdoutWrite "a"; AppendText "b" None; StderrWrite "c"]
           (run_ops [StdoutWrite "z"] raising_world)).
  reflexivity.
Defined.

(** * What a stream slot can hold *)

(** X13: as long as no other redirector assigns the slots, each stream
    slot holds either the object it held before construction or, while the
    capture flag is set, the adapter the widget currently records for that
    stream: an adapter the widget has released is never left in a slot. *)
Theorem slot_holds_original_or_current_adapter (stdout0 stderr0 : option nat)
    (e : Env) (capture_stdout capture_stderr : bool) (cb : option Callback)
    (max_lines : Z) (ops : list Op) :
  forallb (fun op => negb (is_redirect op)) ops = true ->
  let w := run_ops ops (constructed stdout0 stderr0 e capture_stdout
                          capture_stderr cb max_lines) in
  (sys_stdout w = ConsoleOutputWidget.ext_ref stdout0
   \/ exists i, _capture_stdout (widget w) = true
                /\ _stdout_stream (widget w) = Some i
                /\ sys_stdout w = Some (Adapter i))
  /\ (sys_stderr w = ConsoleOutputWidget.ext_ref stderr0
      \/ exists i, _capture_stderr (widget w) = true
                   /\ _stderr_stream (widget w) = Some i
                   /\ sys_stderr w = Some (Adapter i)).
Proof.
  intros Hall w.
  assert (Hinv : inv w) by (apply run_ops_inv, constructed_inv).
  destruct Hinv as (_ & _ & C1 & C2 & _).
  destruct (owned_run_ops stdout0 stderr0 ops _ Hall
              (owned_constructed stdout0 stderr0 e capture_stdout
                 capture_stderr cb max_lines)) as (_ & _ & J1 & J2).
  fold w in J1, J2. split.
  - destruct J1 as [J1 | [Hc J1]]; [left; exact J1|]. right.
    rewrite Hc in C1. destruct (_stdout_stream (widget w)) as [i|];
      [|discriminate C1].
    exists i. repeat split; assumption.
  - destruct J2 as [J2 | [Hc J2]]; [left; exact J2|]. right.
    rewrite Hc in C2. destruct (_stderr_stream (widget w)) as [i|];
      [|discriminate C2].
    exists i. repeat split; assumption.
Qed.

Lemma slot_holds_original_or_current_adapter_witness :
  sys_stdout (run_ops [SetCapture false true; SetCapture true true]
                example_world) = Some (Ext 0)
  \/ exists i,
       _capture_stdout
         (widget (run_ops [SetCapture false true; SetCapture true true]
                    example_world)) = true
       /\ _stdout_stream
            (widget (run_ops [SetCapture false true; SetCapture true true]
                       example_world)) = Some i
       /\ sys_stdout (run_ops [SetCapture false true; SetCapture true true]
                        example_world) = Some (Adapter i).
Proof.
  destruct (slot_holds_original_or_current_adapter (Some 0%nat) (Some 1%nat)
              (quiet_env 5) true true None 3
              [SetCapture false true; SetCapture true true] eq_refl)
    as [H _].
  exact H.
Defined.

(** * Texts from [append_text] and from the adapters *)

Lemma append_world_appends (text source : string) (w : World)
    (e : Qt.QPlainTextEdit) :
  _text_edit (widget w) = Some e -> Qt.alive e = true ->
  Qt.blockCount (Qt.document e ++ Qt.normalize text)
    <= _max_lines (widget w) ->
  exists e',
    _text_edit (widget (append_world text source w)) = Some e'
    /\ Qt.alive e' = true
    /\ Qt.document e' = Qt.document e ++ Qt.normalize text
    /\ _max_lines (widget (append_world text source w)) = _max_lines (widget w)
    /\ (forall j, delivering w j -> delivering (append_world text source w) j).
Proof.
  intros He Ha Hcap.
  destruct (append_world_frame text source w) as (_ & _ & Hs & _ & Hw & _).
  unfold append_world in *. destruct (truthy text) eqn:Ht.
  - rewrite He, Ha in *.
    exists (appended (_max_lines (widget w)) (_auto_scroll (widget w)) text e).
    repeat split.
    + rewrite appended_alive. exact Ha.
    + apply appended_document_within_cap, Hcap.
    + cbn. rewrite called_back_widget. reflexivity.
    + intros j (tj & Hj & Hc & Hok). exists tj. rewrite Hs.
      repeat split; assumption.
  - destruct text; [|discriminate]. exists e.
    cbn [Qt.normalize]. rewrite string_app_nil_r. repeat split; auto.
Qed.

(** X14: texts fed to the widget through [append_text] and through writes
    on delivering adapters, in any interleaving, are appended to the
    visible buffer in the order of the calls, each as the text area shows
    it, while the text area is live and the buffer stays within the line
    cap. *)
Theorem fed_texts_interleave_in_order (items : list (option nat * string))
    (w : World) (e : Qt.QPlainTextEdit) :
  _text_edit (widget w) = Some e -> Qt.alive e = true ->
  (forall i text, In (Some i, text) items -> delivering w i) ->
  Qt.blockCount
    (Qt.document e
       ++ concat_all (map (fun it => Qt.normalize (snd it)) items))
    <= _max_lines (widget w) ->
  visible (run_ops (map feed items) w)
  = visible w ++ concat_all (map (fun it => shown (snd it)) items).
Proof.
  revert w e. induction items as [|[o text] items IH];
    intros w e He Ha Hd Hcap.
  - cbn. symmetry. apply string_app_nil_r.
  - cbn [map run_ops fst snd concat_all] in *.
    rewrite run_op_step.
    assert (Hcap1 : Qt.blockCount (Qt.document e ++ Qt.normalize text)
                    <= _max_lines (widget w)).
    { rewrite <- string_app_assoc in Hcap.
      pose proof (blockCount_app_le (Qt.document e ++ Qt.normalize text)
                    (concat_all
                       (map (fun it => Qt.normalize (snd it)) items))).
      lia. }
    assert (Hstep : exists e',
               _text_edit (widget (step (feed (o, text)) w)) = Some e'
               /\ Qt.alive e' = true
               /\ Qt.document e' = Qt.document e ++ Qt.normalize text
               /\ _max_lines (widget (step (feed (o, text)) w))
                  = _max_lines (widget w)
               /\ (forall j, delivering w j ->
                             delivering (step (feed (o, text)) w) j)).
    { destruct o as [i|]; cbn [feed fst snd step].
      - apply (write_world_appends i text w e He Ha); [|exact Hcap1].
        apply (Hd i text). left. reflexivity.
      - apply (append_world_appends text _ w e He Ha Hcap1). }
    destruct Hstep as (e' & He' & Ha' & Hdoc & Hml & Hdel).
    rewrite (IH _ e' He' Ha').
    + unfold visible, shown. rewrite He', He, Hdoc, toPlainText_app.
      apply string_app_assoc.
    + intros j t Hj. apply Hdel. apply (Hd j t). right. exact Hj.
    + rewrite Hml, Hdoc, string_app_assoc. exact Hcap.
Qed.

Lemma fed_texts_interleave_in_order_witness :
  visible (run_ops (map feed [(Some 0%nat, "out "); (None, "note ");
                              (Some 1%nat, "err")]) example_world)
  = "out note err".
Proof.
  apply (fed_texts_interleave_in_order
           [(Some 0%nat, "out "); (None, "note "); (Some 1%nat, "err")]
           example_world (Qt.new_edit 5 Qt.cursor_following) eq_refl eq_refl).
  - intros i text [H | [H | [H | []]]]; try discriminate H;
      injection H as <- _;
      eexists; (split; [reflexivity | split; reflexivity]).
  - vm_compute. discriminate.
Defined.

(** * When the emission fails *)

(** X15: in every reachable state, a non-empty text written to the
    widget's stdout (stderr) adapter while its signal is broken goes once
    to the original stdout (stderr) recorded at construction, if there is
    one, and nowhere else: the visible buffer is unchanged and no callback
    is called; the adapter's buffer still takes the text. *)
Theorem broken_signal_writes_to_own_original (stdout0 stderr0 : option nat)
    (e : Env) (capture_stdout capture_stderr : bool) (cb : option Callback)
    (max_lines : Z) (ops : list Op) (i : nat) (ts : TextStreamObj)
    (text : string) :
  let w := run_ops ops (constructed stdout0 stderr0 e capture_stdout
                          capture_stderr cb max_lines) in
  let w' := exec (stream_write i text) w in
  let sent (orig : option nat) :=
    match orig with Some o => [StreamWrite o text] | None => [] end in
  text <> "" -> streams w !! i = Some ts -> signal_ok ts = false ->
  visible w' = visible w
  /\ buffer_of i w' = _buffer ts ++ text
  /\ (_stdout_stream (widget w) = Some i ->
      trace w' = (trace w ++ sent stdout0)%list)
  /\ (_stderr_stream (widget w) = Some i ->
      trace w' = (trace w ++ sent stderr0)%list).
Proof.
  intros w w' sent Hne Hs Hok.
  assert (Hinv : inv w) by (apply run_ops_inv, constructed_inv).
  destruct Hinv as (T1 & T2 & _).
  destruct (same_constants_run_ops ops
              (constructed stdout0 stderr0 e capture_stdout capture_stderr cb
                 max_lines)) as (O1 & O2 & _).
  fold w in O1, O2.
  assert (I1 : _original_stdout (widget w) = stdout0)
    by (rewrite O1; destruct capture_stdout, capture_stderr; reflexivity).
  assert (I2 : _original_stderr (widget w) = stderr0)
    by (rewrite O2; destruct capture_stdout, capture_stderr; reflexivity).
  assert (Hw' : w' = match _original_stream ts with
                     | Some o => log (StreamWrite o text) (buffered i text w)
                     | None => buffered i text w
                     end).
  { unfold w'. rewrite stream_write_exec. unfold write_world.
    rewrite (truthy_nonempty _ Hne), Hs, Hok. reflexivity. }
  assert (Htr : trace w' = (trace w ++ sent (_original_stream ts))%list).
  { rewrite Hw'. unfold sent. destruct (_original_stream ts); cbn;
      [reflexivity | symmetry; apply app_nil_r]. }
  repeat split.
  - rewrite Hw'. destruct (_original_stream ts); reflexivity.
  - unfold buffer_of.
    assert (Hl : streams w' !! i = Some (TextStream.add_to_buffer text ts)).
    { rewrite Hw'. destruct (_original_stream ts); cbn [streams log];
        apply buffered_lookup, Hs. }
    rewrite Hl. reflexivity.
  - intros Hi. destruct (T1 i Hi) as (ts' & Hs' & _ & _ & Ho).
    rewrite Hs in Hs'. injection Hs' as <-.
    rewrite Htr, Ho, I1. reflexivity.
  - intros Hi. destruct (T2 i Hi) as (ts' & Hs' & _ & _ & Ho).
    rewrite Hs in Hs'. injection Hs' as <-.
    rewrite Htr, Ho, I2. reflexivity.
Qed.

Lemma broken_signal_writes_to_own_original_witness :
  trace (exec (stream_write 1 "e")
           (run_ops [SignalBroken 1] raising_world))
  = [StreamWrite 1 "e"].
Proof.
  destruct (broken_signal_writes_to_own_original (Some 0%nat) (Some 1%nat)
              (quiet_env 5) true true (Some raising_callback) 3
              [SignalBroken 1] 1
              (break_signal (new_adapter (Some 1%nat) "stderr")) "e")
    as (_ & _ & _ & H); [discriminate | reflexivity | reflexivity |].
  exact (H eq_refl).
Defined.

(** * Auto-scroll switched on *)

Lemma appended_on_at_maximum (max_lines : Z) (text : string)
    (e : Qt.QPlainTextEdit) :
  Qt.scroll_value (appended max_lines true text e)
  = Qt.scroll_maximum (appended max_lines true text e).
Proof. unfold appended. apply scrolled_on_at_maximum. Qed.

(** X16: an append of a non-empty text to a live text area made while
    auto-scroll is on (as the check box handler sets it, or as found)
    leaves the scroll bar at its maximum for the resulting document,
    wherever the view stood before. *)
Theorem auto_scroll_on_ends_at_maximum (text source : string) (w : World)
    (e : Qt.QPlainTextEdit) :
  text <> "" -> _text_edit (widget w) = Some e -> Qt.alive e = true ->
  (exists e',
     _text_edit
       (widget (exec (ConsoleOutputWidget._on_auto_scroll_toggled true ;;
                      ConsoleOutputWidget._append_text_internal text source)
                  w)) = Some e'
     /\ Qt.scroll_value e' = Qt.scroll_maximum e')
  /\ (_auto_scroll (widget w) = true ->
      exists e',
        _text_edit
          (widget (exec (ConsoleOutputWidget._append_text_internal text
                           source) w)) = Some e'
        /\ Qt.scroll_value e' = Qt.scroll_maximum e').
Proof.
  intros Hne He Ha. split.
  - exists (appended (_max_lines (widget w)) true text e). split.
    + rewrite toggled_then_append. unfold append_world.
      rewrite (truthy_nonempty _ Hne).
      cbn [widget set_widget with_auto_scroll _text_edit _max_lines
           _auto_scroll].
      rewrite He, Ha. reflexivity.
    + apply appended_on_at_maximum.
  - intros Hon. exists (appended (_max_lines (widget w)) true text e). split.
    + rewrite append_exec. unfold append_world.
      rewrite (truthy_nonempty _ Hne), He, Ha, Hon. reflexivity.
    + apply appended_on_at_maximum.
Qed.

Lemma auto_scroll_on_ends_at_maximum_witness :
  (exists e',
     _text_edit
       (widget (exec (ConsoleOutputWidget._append_text_internal twenty_lines
                        "manual") tall_world)) = Some e'
     /\ Qt.scroll_value e' = Qt.scroll_maximum e')
  /\ scroll_position
       (exec (ConsoleOutputWidget._append_text_internal twenty_lines
                "manual") tall_world) = Some 16.
Proof.
  split.
  - destruct (auto_scroll_on_ends_at_maximum twenty_lines "manual" tall_world
                (Qt.new_edit 5 Qt.cursor_following))
      as (_ & H); [discriminate | reflexivity | reflexivity |].
    apply H. reflexivity.
  - vm_compute. reflexivity.
Defined.
